(** * NGL representation, picking and geometry-primitive layer

  A shallow embedding of [src/geometry/grid.ts] (the [Grid] class and,
  after the file separator, the [Primitive] classes), [src/utils/picker.ts]
  and [src/representation/representation.ts], with the properties the
  specification states about them.

  JavaScript numbers are IEEE-754 doubles and are modelled by Rocq's
  primitive floats, so [===] on numbers is [PrimFloat.eqb] and [NaN] is
  [nan].  Objects that are used as dictionaries are finite maps
  ([gmap string _]) except where the enumeration order of [for ... in]
  matters, where they are association lists. *)

From Stdlib Require Import ZArith Floats Ascii String.
From stdpp Require Import gmap strings list pretty.

(** ** JavaScript values *)

Module JS.

(** The values the modelled code passes around.  [VObj l] is a reference
    to a three.js value object ([Vector3], [Color], [Matrix4]) stored at
    address [l] of the heap: these expose [equals], [copy] and [set].
    [VPlain l] is a reference to any other object or array (no such
    methods).  [null] is not modelled: the code dereferences parameter
    values without a null check. *)
Inductive Value : Type :=
| VUndef
| VBool (b : bool)
| VNum (x : float)
| VStr (s : string)
| VObj (l : nat)
| VPlain (l : nat).

(** ToBoolean. *)
Definition truthy (v : Value) : bool :=
  match v with
  | VUndef => false
  | VBool b => b
  | VNum x => negb (PrimFloat.eqb x 0 || PrimFloat.is_nan x)
  | VStr s => negb (String.eqb s "")
  | VObj _ | VPlain _ => true
  end.

(** [a === b]: value equality on primitives (IEEE equality on numbers),
    identity on objects. *)
Definition strict_eq (a b : Value) : bool :=
  match a, b with
  | VUndef, VUndef => true
  | VBool x, VBool y => Bool.eqb x y
  | VNum x, VNum y => PrimFloat.eqb x y
  | VStr x, VStr y => String.eqb x y
  | VObj x, VObj y => Nat.eqb x y
  | VPlain x, VPlain y => Nat.eqb x y
  | _, _ => false
  end.

Definition is_undefined (v : Value) : bool :=
  match v with VUndef => true | _ => false end.

(** [m[k]] on an object used as a dictionary: a missing key reads
    [undefined]. *)
Definition prop (m : gmap string Value) (k : string) : Value :=
  default VUndef (m !! k).

End JS.

(** ** Grid: dense volumetric storage ([src/geometry/grid.ts]) *)

Module Grid.

(** The integer typed-array constructors a grid can be backed by
    ([Int32Array] is the default of the constructor). *)
Inductive DataCtorKind : Type :=
| Int8Array | Uint8Array | Int16Array | Uint16Array | Int32Array | Uint32Array.

Definition bits (c : DataCtorKind) : Z :=
  match c with
  | Int8Array | Uint8Array => 8%Z
  | Int16Array | Uint16Array => 16%Z
  | Int32Array | Uint32Array => 32%Z
  end.

Definition signed (c : DataCtorKind) : bool :=
  match c with
  | Int8Array | Int16Array | Int32Array => true
  | _ => false
  end.

(** What a typed array of kind [c] holds after [a[i] = v]: [v] modulo
    [2^bits], read back signed or unsigned. *)
Definition store (c : DataCtorKind) (v : Z) : Z :=
  let m := (2 ^ bits c)%Z in
  let u := (v mod m)%Z in
  if signed c && (m / 2 <=? u)%Z then (u - m)%Z else u.

Record Grid : Type := mkGrid {
  length : nat;
  width : nat;
  height : nat;
  DataCtor : DataCtorKind;
  elemSize : nat;
  data : list Z
}.

(** What a call returns to its caller: a method without a [return]
    statement returns [undefined]. *)
Inductive Returned : Type :=
| RetUndefined
| RetGrid (g : Grid).

(** [constructor]: [this.data = new DataCtor(length * width * height * elemSize)],
    a zero-filled typed array. *)
Definition new (length width height : nat) (DataCtor : DataCtorKind)
    (elemSize : nat) : Grid :=
  mkGrid length width height DataCtor elemSize
         (replicate (length * width * height * elemSize) 0%Z).

Definition index (this : Grid) (x y z : nat) : nat :=
  ((((x * width this) + y) * height this) + z) * elemSize this.

(** [set(x, y, z, ...values)]: [data[i + j] = arguments[3 + j]] for
    [j < elemSize].  A missing argument is [undefined], which an integer
    typed array stores as [0]; a write past the end of a typed array is
    dropped. *)
Fixpoint set_from (c : DataCtorKind) (d : list Z) (i j n : nat) (args : list Z)
    : list Z :=
  match n with
  | O => d
  | S n' =>
      set_from c (<[i + j := store c (nth j args 0%Z)]> d) i (S j) n' args
  end.

Definition set (this : Grid) (x y z : nat) (args : list Z) : Grid :=
  let i := index this x y z in
  mkGrid (length this) (width this) (height this) (DataCtor this)
         (elemSize this)
         (set_from (DataCtor this) (data this) i 0 (elemSize this) args).

(** [copy(grid) { this.data.set(grid.data) }]: [TypedArray.prototype.set]
    overwrites the prefix of [this.data] with the source and throws a
    [RangeError] ([None]) when the source is longer.  The method has no
    [return] statement. *)
Definition copy (this grid : Grid) : option (Grid * Returned) :=
  let src := data grid in
  if List.length src <=? List.length (data this) then
    Some (mkGrid (length this) (width this) (height this) (DataCtor this)
                 (elemSize this)
                 (map (store (DataCtor this)) src
                    ++ drop (List.length src) (data this)),
          RetUndefined)
  else None.

(** [clone() { return new Grid(...).copy(this) }]: the value returned is
    whatever [copy] returns. *)
Definition clone (this : Grid) : option Returned :=
  match copy (new (length this) (width this) (height this) (DataCtor this)
                  (elemSize this)) this with
  | Some (_, r) => Some r
  | None => None
  end.

(** A grid as the constructor and the accessors leave it: the backing
    array has one slot per value and every slot holds a value of the
    array's element type. *)
Definition wf (g : Grid) : Prop :=
  List.length (data g) = length g * width g * height g * elemSize g
  /\ Forall (fun v => store (DataCtor g) v = v) (data g).

(** *** Cell access through plain arrays *)

(** A plain JavaScript array of numbers: [None] is a hole or an
    [undefined] element. *)
Definition JsArray : Type := list (option Z).

(** [array[k] = v] on a plain array: a write past the end extends the
    array, leaving holes in between. *)
Definition array_write (array : JsArray) (k : nat) (v : option Z) : JsArray :=
  if k <? List.length array then <[k := v]> array
  else array ++ replicate (k - List.length array) None ++ [v].

(** The loop of [toArray]: [array[offset + j] = this.data[i + j]]; a read
    past the end of the typed array is [undefined]. *)
Fixpoint toArray_from (d : list Z) (array : JsArray) (i offset j n : nat)
    : JsArray :=
  match n with
  | O => array
  | S n' =>
      toArray_from d (array_write array (offset + j) (d !! (i + j)))
                   i offset (S j) n'
  end.

(** [toArray(x, y, z, array, offset)]: the array the loop wrote to, which
    is the caller's when one was passed; [array] defaults to [[]] and
    [offset] to [0].  The method itself returns nothing. *)
Definition toArray (this : Grid) (x y z : nat) (array : option JsArray)
    (offset : option nat) : JsArray :=
  toArray_from (data this) (default [] array) (index this x y z)
               (default 0 offset) 0 (elemSize this).

(** The loop of [fromArray]: [this.data[i + j] = array[offset + j]]; an
    [undefined] element is stored as [0]. *)
Fixpoint fromArray_from (c : DataCtorKind) (d : list Z) (array : JsArray)
    (i offset j n : nat) : list Z :=
  match n with
  | O => d
  | S n' =>
      fromArray_from c
        (<[i + j := store c (default 0%Z (mjoin (array !! (offset + j))))]> d)
        array i offset (S j) n'
  end.

(** [fromArray(x, y, z, array, offset)] *)
Definition fromArray (this : Grid) (x y z : nat) (array : JsArray)
    (offset : option nat) : Grid :=
  mkGrid (length this) (width this) (height this) (DataCtor this)
         (elemSize this)
         (fromArray_from (DataCtor this) (data this) array
                         (index this x y z) (default 0 offset) 0
                         (elemSize this)).

(** Coordinates that address a cell of the grid. *)
Definition in_bounds (g : Grid) (x y z : nat) : Prop :=
  x < length g /\ y < width g /\ z < height g.

End Grid.


(** ** three.js value objects (external library)

    Only the methods the modelled code calls.  A component is whatever the
    array it was read from held: a number, a string or [undefined]. *)

Module Three.

(** What a cell of a column, or a component of a vector, can hold. *)
Inductive Cell : Type :=
| CUndef
| CNum (x : float)
| CStr (s : string).

(** The ECMAScript conversions between numbers and strings, taken from the
    host. *)
Record Host : Type := mkHost {
  numberToString : float -> string;
  stringToNumber : string -> float
}.

Section Arithmetic.
Variable host : Host.

Definition toNumber (c : Cell) : float :=
  match c with
  | CUndef => nan
  | CNum x => x
  | CStr s => stringToNumber host s
  end.

Definition toString (c : Cell) : string :=
  match c with
  | CUndef => "undefined"
  | CNum x => numberToString host x
  | CStr s => s
  end.

(** [a + b]: concatenation as soon as one side is a string. *)
Definition plus (a b : Cell) : Cell :=
  match a, b with
  | CStr _, _ | _, CStr _ => CStr (toString a +:+ toString b)
  | _, _ => CNum (toNumber a + toNumber b)
  end.

(** [a * b] *)
Definition times (a b : Cell) : Cell :=
  CNum (toNumber a * toNumber b).

Record Vector3 : Type := mkVector3 { x : Cell; y : Cell; z : Cell }.
Record Color : Type := mkColor { r : Cell; g : Cell; b : Cell }.

(** [array[i]] where [i] is a number: [None] stands for an index that is
    [NaN]; a read outside the array is [undefined]. *)
Definition at_index (array : list Cell) (i : option nat) : Cell :=
  match i with
  | Some n => default CUndef (array !! n)
  | None => CUndef
  end.

Definition offset_add (i : option nat) (k : nat) : option nat :=
  match i with Some n => Some (n + k) | None => None end.

(** [new Vector3().fromArray(array, offset)] *)
Definition Vector3_fromArray (array : list Cell) (offset : option nat) : Vector3 :=
  mkVector3 (at_index array offset)
            (at_index array (offset_add offset 1))
            (at_index array (offset_add offset 2)).

(** [new Color().fromArray(array, offset)] *)
Definition Color_fromArray (array : list Cell) (offset : option nat) : Color :=
  mkColor (at_index array offset)
          (at_index array (offset_add offset 1))
          (at_index array (offset_add offset 2)).

(** [this.add(v)]: [this.x += v.x] and so on. *)
Definition add (this v : Vector3) : Vector3 :=
  mkVector3 (plus (x this) (x v)) (plus (y this) (y v)) (plus (z this) (z v)).

(** [this.addVectors(a, b)]: [this.x = a.x + b.x] and so on. *)
Definition addVectors (a b : Vector3) : Vector3 :=
  mkVector3 (plus (x a) (x b)) (plus (y a) (y b)) (plus (z a) (z b)).

(** [this.multiplyScalar(s)]: [this.x *= s] and so on. *)
Definition multiplyScalar (this : Vector3) (s : float) : Vector3 :=
  mkVector3 (times (x this) (CNum s)) (times (y this) (CNum s))
            (times (z this) (CNum s)).

End Arithmetic.

End Three.

(** ** Primitive: shape field schema (second part of [src/geometry/grid.ts]) *)

Module Primitive.
Import Three.

(** The field-kind tags ['v3'], ['c'], ['f'] and ['s'] of [fields]. *)
Inductive FieldKind : Type := K_v3 | K_c | K_f | K_s.

(** The concrete classes. *)
Inductive PrimitiveClass : Type :=
| SpherePrimitive | BoxPrimitive | OctahedronPrimitive | TetrahedronPrimitive
| CylinderPrimitive | ArrowPrimitive | ConePrimitive
| EllipsoidPrimitive | TorusPrimitive | TextPrimitive
| PointPrimitive | WidelinePrimitive.

Definition type (this : PrimitiveClass) : string :=
  match this with
  | SpherePrimitive => "sphere"
  | BoxPrimitive => "box"
  | OctahedronPrimitive => "octahedron"
  | TetrahedronPrimitive => "tetrahedron"
  | CylinderPrimitive => "cylinder"
  | ArrowPrimitive => "arrow"
  | ConePrimitive => "cone"
  | EllipsoidPrimitive => "ellipsoid"
  | TorusPrimitive => "torus"
  | TextPrimitive => "text"
  | PointPrimitive => "point"
  | WidelinePrimitive => "wideline"
  end.

(** [fields], in the order [Object.keys] enumerates them. *)
Definition fields (this : PrimitiveClass) : list (string * FieldKind) :=
  match this with
  | SpherePrimitive =>
      [("position", K_v3); ("color", K_c); ("radius", K_f)]
  | BoxPrimitive | OctahedronPrimitive | TetrahedronPrimitive =>
      [("position", K_v3); ("color", K_c); ("size", K_f); ("heightAxis", K_v3);
       ("depthAxis", K_v3)]
  | CylinderPrimitive | ArrowPrimitive | ConePrimitive =>
      [("position1", K_v3); ("position2", K_v3); ("color", K_c); ("radius", K_f)]
  | EllipsoidPrimitive | TorusPrimitive =>
      [("position", K_v3); ("color", K_c); ("radius", K_f); ("majorAxis", K_v3);
       ("minorAxis", K_v3)]
  | TextPrimitive =>
      [("position", K_v3); ("color", K_c); ("size", K_f); ("text", K_s)]
  | PointPrimitive =>
      [("position", K_v3); ("color", K_c)]
  | WidelinePrimitive =>
      [("position1", K_v3); ("position2", K_v3); ("color", K_c)]
  end.

(** [this.fields[name]] *)
Fixpoint field_kind (fs : list (string * FieldKind)) (name : string)
    : option FieldKind :=
  match fs with
  | [] => None
  | (n, k) :: fs' => if String.eqb n name then Some k else field_kind fs' name
  end.

(** [ch.toUpperCase()] on one character of a field name (ASCII). *)
Definition toUpperCase (ch : ascii) : ascii :=
  let n := nat_of_ascii ch in
  if (97 <=? n) && (n <=? 122) then ascii_of_nat (n - 32) else ch.

(** [getShapeKey(name)]: [this.type + name[0].toUpperCase() + name.substr(1)];
    [name[0]] of the empty string is [undefined] and the call throws. *)
Definition getShapeKey (this : PrimitiveClass) (name : string) : option string :=
  match name with
  | EmptyString => None
  | String ch rest => Some (type this +:+ String (toUpperCase ch) rest)
  end.

(** The [Shape] the primitives write to: its name, its columns and its
    bounding box.  [Box3] is external; the box is represented by the points
    it has been expanded by, oldest first. *)
Record Shape : Type := mkShape {
  name : string;
  _primitiveData : gmap string (list Cell);
  boundingBox : list Vector3
}.

(** A value of the [data] argument of [objectToShape]: a primitive, an
    array, an object with a [toArray] method (given by what it returns),
    or a plain [{x, y, z}] or [{r, g, b}] object. *)
Inductive DataValue : Type :=
| DPrim (v : Cell)
| DArray (elems : list Cell)
| DToArray (elems : list Cell)
| DXyz (x y z : Cell)
| DRgb (r g b : Cell).

Definition defined (v : Cell) : bool :=
  match v with CUndef => false | _ => true end.

(** [addElement(elm, array)].  [elm.toArray] on [undefined] throws, and so
    does [push.apply] on a number or a string; an object without [length]
    spreads to no argument at all. *)
Definition addElement (elm : DataValue) (array : list Cell) : option (list Cell) :=
  match elm with
  | DToArray l => Some (array ++ l)
  | DXyz x y z => if defined x then Some (array ++ [x; y; z]) else Some array
  | DRgb r g b => if defined r then Some (array ++ [r; g; b]) else Some array
  | DArray l => Some (array ++ l)
  | DPrim _ => None
  end.

(** The cell [data.push(value)] appends.  Columns hold primitives: an
    object pushed into a scalar column is outside the model. *)
Definition pushed (value : DataValue) : option Cell :=
  match value with
  | DPrim v => Some v
  | _ => None
  end.

(** [valueToShape(shape, name, value)]; [None] when the call throws (no
    column under the key, or [addElement] throws) and when an object is
    given for a scalar field, which the columns of the model cannot
    hold. *)
Definition valueToShape (this : PrimitiveClass) (shape : Shape) (name : string)
    (value : DataValue) : option Shape :=
  key ← getShapeKey this name;
  data ← _primitiveData shape !! key;
  data' ← match field_kind (fields this) name with
           | Some K_v3 | Some K_c => addElement value data
           | _ => v ← pushed value; Some (data ++ [v])
           end;
  Some (mkShape (Primitive.name shape) (<[key := data']> (_primitiveData shape))
                (boundingBox shape)).

(** [data[name]] on the argument of [objectToShape]. *)
Definition data_prop (data : gmap string DataValue) (name : string) : DataValue :=
  default (DPrim CUndef) (data !! name).

(** [tmpVec.fromArray(data.position)]: reads indices 0, 1 and 2 of the
    value, which are [undefined] on anything but an array; throws on
    [undefined]. *)
Definition point_of (value : DataValue) : option Vector3 :=
  match value with
  | DArray l => Some (Vector3_fromArray l (Some 0))
  | DPrim CUndef => None
  | _ => Some (mkVector3 CUndef CUndef CUndef)
  end.

Definition expandByPoint (box : list Vector3) (p : Vector3) : list Vector3 :=
  box ++ [p].

(** [expandBoundingBox(box, data)] of each class. *)
Definition expandBoundingBox (this : PrimitiveClass) (box : list Vector3)
    (data : gmap string DataValue) : option (list Vector3) :=
  match this with
  | CylinderPrimitive | ArrowPrimitive | ConePrimitive | WidelinePrimitive =>
      p1 ← point_of (data_prop data "position1");
      p2 ← point_of (data_prop data "position2");
      Some (expandByPoint (expandByPoint box p1) p2)
  | _ =>
      p ← point_of (data_prop data "position");
      Some (expandByPoint box p)
  end.

(** [objectToShape(shape, data)] *)
Definition objectToShape (this : PrimitiveClass) (shape : Shape)
    (data : gmap string DataValue) : option Shape :=
  shape1 ← foldl (fun acc '(name, _) =>
                     sh ← acc; valueToShape this sh name (data_prop data name))
                 (Some shape) (fields this);
  shape2 ← valueToShape this shape1 "name" (data_prop data "name");
  box ← expandBoundingBox this (boundingBox shape2) data;
  Some (mkShape (name shape2) (_primitiveData shape2) box).

(** What a property of the object built by [objectFromShape] holds. *)
Inductive ObjectValue : Type :=
| OShape (sh : Shape)
| OCell (v : Cell)
| OVector3 (v : Vector3)
| OColor (v : Color).

Definition times3 (pid : option nat) : option nat :=
  match pid with Some n => Some (3 * n) | None => None end.

(** [valueFromShape(shape, pid, name)]; [pid] is [None] when the caller
    passes [undefined], which makes [3 * pid] a [NaN]. *)
Definition valueFromShape (this : PrimitiveClass) (shape : Shape)
    (pid : option nat) (name : string) : option ObjectValue :=
  key ← getShapeKey this name;
  data ← _primitiveData shape !! key;
  match field_kind (fields this) name with
  | Some K_v3 => Some (OVector3 (Vector3_fromArray data (times3 pid)))
  | Some K_c => Some (OColor (Color_fromArray data (times3 pid)))
  | _ => Some (OCell (at_index data pid))
  end.

(** The text [`${pid}`]. *)
Definition pid_text (pid : option nat) : string :=
  match pid with Some n => pretty n | None => "undefined" end.

(** [objectFromShape(shape, pid)]: the object [{shape, name, ...fields}]. *)
Definition objectFromShape (this : PrimitiveClass) (shape : Shape)
    (pid : option nat) : option (gmap string ObjectValue) :=
  recorded ← valueFromShape this shape pid "name";
  let name :=
    match recorded with
    | OCell CUndef =>
        OCell (CStr (type this +:+ ": " +:+ pid_text pid +:+ " ("
                       +:+ Primitive.name shape +:+ ")"))
    | other => other
    end in
  foldl (fun acc '(fname, _) =>
           o ← acc; v ← valueFromShape this shape pid fname;
           Some (<[fname := v]> o))
        (Some (<["name" := name]> {["shape" := OShape shape]}))
        (fields this).

Section Position.
Variable host : Host.

(** [positionFromShape(shape, pid)] of each class: the cylinder and
    wideline families return [p1.add(p2).multiplyScalar(0.5)]. *)
Definition positionFromShape (this : PrimitiveClass) (shape : Shape)
    (pid : option nat) : option ObjectValue :=
  match this with
  | CylinderPrimitive | ArrowPrimitive | ConePrimitive | WidelinePrimitive =>
      p1 ← valueFromShape this shape pid "position1";
      p2 ← valueFromShape this shape pid "position2";
      match p1, p2 with
      | OVector3 p1, OVector3 p2 =>
          Some (OVector3 (multiplyScalar host (add host p1 p2) 0.5))
      | _, _ => None
      end
  | _ => valueFromShape this shape pid "position"
  end.

End Position.

(** *** Scenarios *)

(** A shape that holds [n] spheres: the four columns of the sphere kind
    exist and hold one row per sphere.  A fresh shape holds none. *)
Definition holds_spheres (n : nat) (sh : Shape) : Prop :=
  exists ps cs rs ns,
    _primitiveData sh !! "spherePosition" = Some ps /\ List.length ps = 3 * n
    /\ _primitiveData sh !! "sphereColor" = Some cs /\ List.length cs = 3 * n
    /\ _primitiveData sh !! "sphereRadius" = Some rs /\ List.length rs = n
    /\ _primitiveData sh !! "sphereName" = Some ns /\ List.length ns = n.

(** The [data] object [{position, color, radius}] of a sphere given by
    arrays. *)
Definition sphere_data (px py pz cr cg cb radius : Cell) : gmap string DataValue :=
  <["position" := DArray [px; py; pz]]>
    (<["color" := DArray [cr; cg; cb]]>
       (<["radius" := DPrim radius]> ∅)).

Definition fresh_shape : Shape :=
  mkShape "shape"
    (list_to_map
       [("spherePosition", []); ("sphereColor", []); ("sphereRadius", []);
        ("sphereName", []);
        ("cylinderPosition1", []); ("cylinderPosition2", []);
        ("cylinderColor", []); ("cylinderRadius", []); ("cylinderName", [])])
    [].

(** A shape with one cylinder from (0,0,0) to (2,0,0). *)
Definition one_cylinder : Shape :=
  default fresh_shape
    (objectToShape CylinderPrimitive fresh_shape
       (<["position1" := DArray [CNum 0; CNum 0; CNum 0]]>
          (<["position2" := DArray [CNum 2; CNum 0; CNum 0]]>
             (<["color" := DArray [CNum 1; CNum 1; CNum 1]]>
                (<["radius" := DPrim (CNum 1)]> ∅))))).

(** *** Vocabulary for the columns of a class *)

(** The names [objectToShape] writes a column for: the fields, then
    ['name']. *)
Definition column_names (this : PrimitiveClass) : list string :=
  map fst (fields this) ++ ["name"].

(** The key of a column, for a name that is not empty. *)
Definition key_of (this : PrimitiveClass) (fname : string) : string :=
  default "" (getShapeKey this fname).

(** How many cells one instance takes in a column: 3 for a vector or a
    colour, 1 otherwise. *)
Definition cell_width (kind : option FieldKind) : nat :=
  match kind with
  | Some K_v3 | Some K_c => 3
  | _ => 1
  end.

(** The cells [valueToShape] appends for a name, read off the [data]
    object; [None] when the call would throw. *)
Definition cells (this : PrimitiveClass) (data : gmap string DataValue)
    (fname : string) : option (list Cell) :=
  match field_kind (fields this) fname with
  | Some K_v3 | Some K_c => addElement (data_prop data fname) []
  | _ => v ← pushed (data_prop data fname); Some [v]
  end.

(** A shape that holds [n] instances of a class: every column of the class
    exists and holds [n] rows of the width of its kind. *)
Definition aligned (this : PrimitiveClass) (n : nat) (sh : Shape) : Prop :=
  forall fname, fname ∈ column_names this ->
    exists col,
      _primitiveData sh !! key_of this fname = Some col
      /\ List.length col = cell_width (field_kind (fields this) fname) * n.

(** A [data] object that gives every field of the class in the form its
    kind expects: three components for a vector or a colour, a primitive
    (or nothing) for the others and for the name. *)
Definition complete (this : PrimitiveClass) (data : gmap string DataValue)
    : Prop :=
  forall fname, fname ∈ column_names this ->
    exists l,
      cells this data fname = Some l
      /\ List.length l = cell_width (field_kind (fields this) fname).

(** What [valueFromShape] makes of the cells of one instance. *)
Definition as_value (kind : option FieldKind) (l : list Cell) : ObjectValue :=
  match kind with
  | Some K_v3 => OVector3 (Vector3_fromArray l (Some 0))
  | Some K_c => OColor (Color_fromArray l (Some 0))
  | _ => OCell (at_index l (Some 0))
  end.

(** One pass of the loop of [objectToShape]: the column of [fname] takes
    [data[fname]]; a throw ends the run. *)
Definition append_column (this : PrimitiveClass) (data : gmap string DataValue)
    (acc : option Shape) (fname : string) : option Shape :=
  sh ← acc; valueToShape this sh fname (data_prop data fname).

(** The classes whose position is the midpoint of two end points. *)
Definition two_ended (this : PrimitiveClass) : bool :=
  match this with
  | CylinderPrimitive | ArrowPrimitive | ConePrimitive | WidelinePrimitive =>
      true
  | _ => false
  end.

(** A host for the scenarios whose cells are all numbers: the conversions
    between numbers and strings are never called there. *)
Definition numeric_host : Host :=
  mkHost (fun _ => "NaN") (fun _ => nan).

(** The [data] object of a cylinder from (0,0,0) to (2,0,0). *)
Definition cylinder_data : gmap string DataValue :=
  <["position1" := DArray [CNum 0; CNum 0; CNum 0]]>
    (<["position2" := DArray [CNum 2; CNum 0; CNum 0]]>
       (<["color" := DArray [CNum 1; CNum 1; CNum 1]]>
          (<["radius" := DPrim (CNum 1)]> ∅))).

End Primitive.


(** ** Picker: pick-id resolution ([src/utils/picker.ts]) *)

Module Picker.
Import Three Primitive.

(** [Picker.getIndex(pid)]: [this.array ? this.array[pid] : pid].  The
    table is absent ([None]) when the constructor got no array; any array,
    the empty one included, is truthy.  The result is [None] when the read
    is [undefined]. *)
Definition getIndex (array : option (list nat)) (pid : nat) : option nat :=
  match array with
  | Some table => table !! pid
  | None => Some pid
  end.

(** *** Shape pickers *)

Record ShapePicker : Type := mkShapePicker {
  sp_array : option (list nat);
  shape : Shape;
  primitive : PrimitiveClass
}.

(** [constructor (shape) { super([]) }] *)
Definition ShapePicker_new (prim : PrimitiveClass) (shape : Shape) : ShapePicker :=
  mkShapePicker (Some []) shape prim.

Definition CylinderPicker := ShapePicker_new CylinderPrimitive.
Definition ArrowPicker := ShapePicker_new ArrowPrimitive.
Definition ConePicker := ShapePicker_new ConePrimitive.
Definition SpherePicker := ShapePicker_new SpherePrimitive.
Definition WidelinePicker := ShapePicker_new WidelinePrimitive.

Definition ShapePicker_getObject (this : ShapePicker) (pid : nat)
    : option (gmap string ObjectValue) :=
  objectFromShape (primitive this) (shape this) (getIndex (sp_array this) pid).

Definition ShapePicker_getPosition (host : Host) (this : ShapePicker) (pid : nat)
    : option ObjectValue :=
  positionFromShape host (primitive this) (shape this)
                    (getIndex (sp_array this) pid).

(** *** Bond pickers *)

(** Modelled from the spec: [BondStore], [Structure], [BondProxy] and
    [AtomProxy] are not among the sources.  A bond proxy resolves a bond
    index to its two endpoint atoms through the bond store, and an atom
    proxy's [positionToVector3()] is the stored position of the atom;
    reading past a store gives [undefined]. *)
Record BondStore : Type := mkBondStore {
  atomIndex1 : list nat;
  atomIndex2 : list nat
}.

Record Structure : Type := mkStructure {
  atomPositions : list Vector3;
  bondStore : BondStore
}.

Definition positionToVector3 (st : Structure) (atom : option nat) : Vector3 :=
  match atom with
  | Some i => default (mkVector3 CUndef CUndef CUndef) (atomPositions st !! i)
  | None => mkVector3 CUndef CUndef CUndef
  end.

Record BondProxy : Type := mkBondProxy {
  bp_structure : Structure;
  bp_index : option nat;
  bp_bondStore : BondStore
}.

Definition getBondProxy (st : Structure) (index : option nat) : BondProxy :=
  mkBondProxy st index (bondStore st).

Definition atom1 (b : BondProxy) : option nat :=
  i ← bp_index b; atomIndex1 (bp_bondStore b) !! i.

Definition atom2 (b : BondProxy) : option nat :=
  i ← bp_index b; atomIndex2 (bp_bondStore b) !! i.

Record BondPicker : Type := mkBondPicker {
  b_array : option (list nat);
  b_structure : Structure;
  b_bondStore : BondStore
}.

(** [this.bondStore = bondStore || structure.bondStore] *)
Definition BondPicker_new (array : option (list nat)) (structure : Structure)
    (bondStore : option BondStore) : BondPicker :=
  mkBondPicker array structure
               (default (Picker.bondStore structure) bondStore).

Definition BondPicker_getObject (this : BondPicker) (pid : nat) : BondProxy :=
  let bp := getBondProxy (b_structure this) (getIndex (b_array this) pid) in
  mkBondProxy (bp_structure bp) (bp_index bp) (b_bondStore this).

(** [new Vector3().copy(b.atom1.positionToVector3())
       .add(b.atom2.positionToVector3()).multiplyScalar(0.5)] *)
Definition BondPicker_getPosition (host : Host) (this : BondPicker) (pid : nat)
    : Vector3 :=
  let b := BondPicker_getObject this pid in
  multiplyScalar host
    (add host (positionToVector3 (bp_structure b) (atom1 b))
              (positionToVector3 (bp_structure b) (atom2 b)))
    0.5.

(** *** Contact pickers *)

(** [this.contacts]: [features.centers.{x,y,z}], [features.atomSets] and
    [contactStore.{index1,index2,type}]. *)
Record Contacts : Type := mkContacts {
  centers_x : list Cell;
  centers_y : list Cell;
  centers_z : list Cell;
  atomSets : list (list nat);
  index1 : list nat;
  index2 : list nat;
  type : list Cell
}.

Record ContactPicker : Type := mkContactPicker {
  c_array : option (list nat);
  contacts : Contacts;
  c_structure : Structure
}.

(** [new Vector3(x, y, z)]: [this.x = x || 0] and so on. *)
Definition orZero (v : Cell) : Cell :=
  match v with
  | CUndef => CNum 0
  | CNum x => if PrimFloat.eqb x 0 || PrimFloat.is_nan x then CNum 0 else v
  | CStr s => if String.eqb s "" then CNum 0 else v
  end.

Definition Vector3_new (x y z : Cell) : Vector3 :=
  mkVector3 (orZero x) (orZero y) (orZero z).

(** The object [ContactPicker.getObject] returns; [contactTypeName] is
    external, so the object keeps the numeric code it is applied to. *)
Record ContactObject : Type := mkContactObject {
  center1 : Vector3;
  center2 : Vector3;
  contact_atom1 : option nat;
  contact_atom2 : option nat;
  type_code : Cell
}.

(** [getObject(pid)]; [atomSets[k][0]] throws when [atomSets[k]] is
    [undefined]. *)
Definition ContactPicker_getObject (this : ContactPicker) (pid : nat)
    : option ContactObject :=
  let idx := getIndex (c_array this) pid in
  let cs := contacts this in
  let k := i ← idx; index1 cs !! i in
  let l := i ← idx; index2 cs !! i in
  sk ← (i ← k; atomSets cs !! i);
  sl ← (i ← l; atomSets cs !! i);
  Some (mkContactObject
          (Vector3_new (at_index (centers_x cs) k) (at_index (centers_y cs) k)
                       (at_index (centers_z cs) k))
          (Vector3_new (at_index (centers_x cs) l) (at_index (centers_y cs) l)
                       (at_index (centers_z cs) l))
          (sk !! 0) (sl !! 0)
          (at_index (type cs) idx)).

(** [new Vector3().addVectors(center1, center2).multiplyScalar(0.5)] *)
Definition ContactPicker_getPosition (host : Host) (this : ContactPicker)
    (pid : nat) : option Vector3 :=
  o ← ContactPicker_getObject this pid;
  Some (multiplyScalar host (addVectors host (center1 o) (center2 o)) 0.5).

(** *** Scenarios *)

(** Two atoms at (0,0,0) and (2,0,0) joined by one bond. *)
Definition two_atoms : Structure :=
  mkStructure [mkVector3 (CNum 0) (CNum 0) (CNum 0);
               mkVector3 (CNum 2) (CNum 0) (CNum 0)]
              (mkBondStore [0] [1]).

(** One contact between two features centred at (0,0,0) and (2,0,0). *)
Definition one_contact : Contacts :=
  mkContacts [CNum 0; CNum 2] [CNum 0; CNum 0] [CNum 0; CNum 0]
             [[0]; [1]] [0] [1] [CNum 0].

(** The midpoint as the code computes it: the sum, then the product by
    [0.5], in double precision. *)
Definition midpoint (host : Host) (p q : Vector3) : Vector3 :=
  multiplyScalar host (add host p q) 0.5.

(** Whether the first component of a returned position is the number 1. *)
Definition first_is_one (o : option ObjectValue) : bool :=
  match o with
  | Some (OVector3 (mkVector3 (CNum x) _ _)) => PrimFloat.eqb x 1
  | _ => false
  end.

End Picker.


(** ** Representation: parameter and lifecycle engine
    ([src/representation/representation.ts])

    The class is abstract: [tasks], [queue] and [bufferList] are taken to
    have been created by the constructor of the concrete class, and
    [prepare] is the optional hook such a class defines.  The timing calls
    under [if (Debug)] are left out, and so is the value a method returns
    ([this] or [undefined]), which no caller in the class reads. *)

Module Representation.
Import JS.

(** *** Collaborators *)

(** Modelled from the spec: [Counter] ([src/utils/counter.js] is not among
    the sources) offers [increment()], [decrement()], [change(delta)] and
    [dispose()] and tracks the outstanding work as a count. *)
Module Counter.
Record Counter : Type := mkCounter { count : Z; disposed : bool }.
Definition change (delta : Z) (c : Counter) : Counter :=
  mkCounter (count c + delta) (disposed c).
Definition increment : Counter -> Counter := change 1.
Definition decrement : Counter -> Counter := change (-1).
Definition dispose (c : Counter) : Counter := mkCounter (count c) true.
End Counter.

(** Modelled from the spec: [Queue] ([src/utils/queue.js] is not among the
    sources) offers [push(item)], [length()] and [kill()]; it holds the jobs
    that are queued and have not started, [length()] counts them and
    [kill()] cancels them.  An item is what [build] pushes: a [what] object,
    or [false] ([None]). *)
Module Queue.
Definition Queue : Type := list (option (gmap string Value)).
Definition push (item : option (gmap string Value)) (q : Queue) : Queue :=
  q ++ [item].
Definition length (q : Queue) : nat := List.length q.
Definition kill (q : Queue) : Queue := [].
End Queue.

(** Modelled from the spec: a [Buffer] exposes [setVisibility(bool)],
    [setParameters(partialParams)] and [dispose()].  A buffer is known by
    an identifier and records what it was last told. *)
Module Buffer.
Record Buffer : Type := mkBuffer {
  id : nat;
  visible : Value;
  params : gmap string Value
}.
Definition setVisibility (value : Value) (b : Buffer) : Buffer :=
  mkBuffer (id b) value (params b).
Definition setParameters (bufferParams : gmap string Value) (b : Buffer) : Buffer :=
  mkBuffer (id b) (visible b) (bufferParams ∪ params b).
End Buffer.

(** The calls made on the viewer, on the buffers that leave the list, on
    the callback handed to [make], and on the hooks a concrete class
    overrides ([create], [attach], [prepare]), in the order they happen. *)
Inductive Call : Type :=
| RequestRender
| ViewerRemove (buffer : nat)
| BufferDispose (buffer : nat)
| Create
| Attach
| Prepare
| Callback.

(** *** Parameter metadata *)

Inductive BufferSpec : Type :=
| BufferNone
| BufferTrue
| BufferAlias (alias : string).

Inductive RebuildSpec : Type :=
| RebuildNone
| RebuildTrue
| RebuildImpostor.

(** A metadata literal [{type, min, max, int, float, buffer, update,
    rebuild}]; [type], [min] and [max] are never read by this class. *)
Module Meta.
Record Meta : Type := mkMeta {
  int : bool;
  float : bool;
  buffer : BufferSpec;
  update : option string;
  rebuild : RebuildSpec
}.
End Meta.

(** An entry of [this.parameters]: [init] stores plain values under some
    names and metadata literals under others. *)
Inductive ParamEntry : Type :=
| PValue (v : Value)
| PMeta (m : Meta.Meta).

(** The content of a three.js value object on the heap. *)
Definition Obj : Type := list PrimFloat.float.

(** What the class takes from its environment: the [ExtensionFragDepth]
    global, the names [Object.keys(ColormakerRegistry.getSchemes())]
    returns, [String.prototype.toLowerCase], [new Color(value).getHex()],
    the built-ins [parseInt] and [parseFloat], and the [equals], [copy]
    and [set] methods of three.js value objects. *)
Record Host : Type := mkHost {
  ExtensionFragDepth : bool;
  schemes : list string;
  toLowerCase : string -> string;
  Color_getHex : gmap nat Obj -> Value -> PrimFloat.float;
  parseInt : Value -> PrimFloat.float;
  parseFloat : Value -> PrimFloat.float;
  equals : Obj -> Obj -> bool;
  copy : Obj -> Obj -> Obj;
  set : Obj -> Value -> Obj
}.

(** *** State *)

Record LazyProps : Type := mkLazyProps {
  lp_build : bool;
  lp_bufferParams : gmap string Value;
  lp_what : gmap string Value
}.

(** A representation together with the objects it can reach.
    [self] holds the own properties the code reads and writes as
    [this[name]] ([lazy], [visible], [quality], [opacity],
    [disableImpostor], ...); parameter names are assumed distinct from the
    structural fields below.  [prepare] tells whether the concrete class
    defines the asynchronous preparation step, and [pending] holds the
    continuations handed to it that it has not called yet, each with the
    [updateWhat] it closes over and whether it closes over a callback.
    An [updateWhat] argument is a [what] object ([Some]) or is absent or
    [false] ([None]). *)
Record Representation : Type := mkRepresentation {
  parameters : gmap string ParamEntry;
  self : gmap string Value;
  lazyProps : LazyProps;
  tasks : Counter.Counter;
  queue : Queue.Queue;
  bufferList : list Buffer.Buffer;
  disposed : bool;
  prepare : bool;
  pending : list (option (gmap string Value) * bool);
  heap : gmap nat Obj;
  calls : list Call
}.

Definition with_parameters (f : gmap string ParamEntry -> gmap string ParamEntry)
    (r : Representation) : Representation :=
  mkRepresentation (f (parameters r)) (self r) (lazyProps r) (tasks r) (queue r)
    (bufferList r) (disposed r) (prepare r) (pending r) (heap r) (calls r).

Definition with_self (f : gmap string Value -> gmap string Value)
    (r : Representation) : Representation :=
  mkRepresentation (parameters r) (f (self r)) (lazyProps r) (tasks r) (queue r)
    (bufferList r) (disposed r) (prepare r) (pending r) (heap r) (calls r).

Definition with_lazyProps (l : LazyProps) (r : Representation) : Representation :=
  mkRepresentation (parameters r) (self r) l (tasks r) (queue r)
    (bufferList r) (disposed r) (prepare r) (pending r) (heap r) (calls r).

Definition with_tasks (f : Counter.Counter -> Counter.Counter)
    (r : Representation) : Representation :=
  mkRepresentation (parameters r) (self r) (lazyProps r) (f (tasks r)) (queue r)
    (bufferList r) (disposed r) (prepare r) (pending r) (heap r) (calls r).

Definition with_queue (f : Queue.Queue -> Queue.Queue)
    (r : Representation) : Representation :=
  mkRepresentation (parameters r) (self r) (lazyProps r) (tasks r) (f (queue r))
    (bufferList r) (disposed r) (prepare r) (pending r) (heap r) (calls r).

Definition with_bufferList (l : list Buffer.Buffer)
    (r : Representation) : Representation :=
  mkRepresentation (parameters r) (self r) (lazyProps r) (tasks r) (queue r)
    l (disposed r) (prepare r) (pending r) (heap r) (calls r).

Definition with_disposed (d : bool) (r : Representation) : Representation :=
  mkRepresentation (parameters r) (self r) (lazyProps r) (tasks r) (queue r)
    (bufferList r) d (prepare r) (pending r) (heap r) (calls r).

Definition with_pending (l : list (option (gmap string Value) * bool))
    (r : Representation) : Representation :=
  mkRepresentation (parameters r) (self r) (lazyProps r) (tasks r) (queue r)
    (bufferList r) (disposed r) (prepare r) l (heap r) (calls r).

Definition with_heap (h : gmap nat Obj) (r : Representation) : Representation :=
  mkRepresentation (parameters r) (self r) (lazyProps r) (tasks r) (queue r)
    (bufferList r) (disposed r) (prepare r) (pending r) h (calls r).

Definition called (cs : list Call) (r : Representation) : Representation :=
  mkRepresentation (parameters r) (self r) (lazyProps r) (tasks r) (queue r)
    (bufferList r) (disposed r) (prepare r) (pending r) (heap r) (calls r ++ cs).

(** [this[name]] *)
Definition this_prop (r : Representation) (name : string) : Value :=
  prop (self r) name.

(** [this.parameters[name] === undefined] *)
Definition tp_undefined (e : option ParamEntry) : bool :=
  match e with
  | None | Some (PValue VUndef) => true
  | _ => false
  end.

(** Truthiness of [this.parameters[name]]. *)
Definition tp_truthy (r : Representation) (name : string) : bool :=
  match parameters r !! name with
  | None => false
  | Some (PValue v) => truthy v
  | Some (PMeta _) => true
  end.

(** [tp[name].int] and the like: [undefined] on anything but a metadata
    literal. *)
Definition meta_of (e : option ParamEntry) : Meta.Meta :=
  match e with
  | Some (PMeta m) => m
  | _ => Meta.mkMeta false false BufferNone None RebuildNone
  end.

(** [Object.keys(o).length] as a condition. *)
Definition nonempty (o : gmap string Value) : bool :=
  negb (Nat.eqb (size o) 0).

(** An object whose keys are enumerated by [for ... in]: the keys in
    insertion order with their values. *)
Definition Params : Type := list (string * Value).

Fixpoint get (p : Params) (name : string) : Value :=
  match p with
  | [] => VUndef
  | (k, v) :: p' => if String.eqb k name then v else get p' name
  end.

(** [p[name] = v]: in place when the key exists, appended otherwise. *)
Fixpoint put (p : Params) (name : string) (v : Value) : Params :=
  match p with
  | [] => [(name, v)]
  | (k, w) :: p' =>
      if String.eqb k name then (k, v) :: p' else (k, w) :: put p' name v
  end.

(** *** Methods that call no other method *)

(** [clear()] *)
Definition clear (r : Representation) : Representation :=
  called [RequestRender]
    (with_bufferList []
       (called (flat_map (fun b => [ViewerRemove (Buffer.id b);
                                    BufferDispose (Buffer.id b)])
                         (bufferList r)) r)).

(** [create()]: the body is empty in this class. *)
Definition create (r : Representation) : Representation :=
  called [Create] r.

(** [dispose()] *)
Definition dispose (r : Representation) : Representation :=
  clear (with_tasks Counter.dispose
           (with_queue Queue.kill (with_disposed true r))).

Section WithHost.
Variable host : Host.

(** [setColor(value, p)] with a target [p]: the target after the call. *)
Definition setColor_target (h : gmap nat Obj) (value : Value) (p : Params)
    : Params :=
  let literal :=
    put (put p "colorScheme" (VStr "uniform")) "colorValue"
        (VNum (Color_getHex host h value)) in
  match value with
  | VStr str =>
      if existsb (String.eqb (toLowerCase host str)) (schemes host)
      then put p "colorScheme" value
      else literal
  | VUndef => p
  | _ => literal
  end.

(** Modelled from the spec: [defaults] ([src/utils] is not among the
    sources) fills in the default when the value is absent. *)
Definition defaults (value default : Value) : Value :=
  if is_undefined value then default else value.

(** [new Vector3()] and [new Matrix4()]: a fresh object on the heap. *)
Definition allocate (o : Obj) (r : Representation) : nat * Representation :=
  let l := fresh (dom (heap r)) in
  (l, with_heap (<[l := o]> (heap r)) r).

Definition Vector3_zero : Obj := [0; 0; 0]%float.
Definition Matrix4_identity : Obj :=
  [1; 0; 0; 0; 0; 1; 0; 0; 0; 0; 1; 0; 0; 0; 0; 1]%float.

(** The metadata literals [init] installs. *)
Definition sphereDetail_meta : Meta.Meta :=
  Meta.mkMeta false false BufferNone None RebuildImpostor.
Definition radialSegments_meta : Meta.Meta :=
  Meta.mkMeta false false BufferNone None RebuildImpostor.
Definition openEnded_meta : Meta.Meta :=
  Meta.mkMeta false false BufferTrue None RebuildImpostor.
Definition disableImpostor_meta : Meta.Meta :=
  Meta.mkMeta false false BufferNone None RebuildTrue.

(** [this.parameters[name] = defaults(p[name], d)] *)
Definition default_parameter (p : Params) (name : string) (d : Value)
    (r : Representation) : Representation :=
  with_parameters (insert name (PValue (defaults (get p name) d))) r.

(** [if (tp[name]) tp[name] = { ... }] *)
Definition declare (name : string) (m : Meta.Meta) (r : Representation)
    : Representation :=
  if tp_truthy r name then with_parameters (insert name (PMeta m)) r else r.

(** [if (tp[name]) this[name] = v] *)
Definition assign_if_declared (name : string) (v : Value) (r : Representation)
    : Representation :=
  if tp_truthy r name then with_self (insert name v) r else r.

(** [init(params)] *)
Definition init (params : Params) (r : Representation) : Representation :=
  let p := params in
  let r := default_parameter p "clipNear" (VNum 0) r in
  let r := default_parameter p "clipRadius" (VNum 0) r in
  let '(center, r) := allocate Vector3_zero r in
  let r := default_parameter p "clipCenter" (VObj center) r in
  let r := default_parameter p "flatShaded" (VBool false) r in
  let r := default_parameter p "side" (VStr "double") r in
  let r := default_parameter p "opacity" (VNum 1) r in
  let r := default_parameter p "depthWrite" (VBool true) r in
  let r := default_parameter p "wireframe" (VBool false) r in
  let p := setColor_target (heap r) (get p "color") p in
  let r := default_parameter p "colorScheme" (VStr "uniform") r in
  let r := default_parameter p "scale" (VStr "") r in
  let r := default_parameter p "reverse" (VBool false) r in
  let r := default_parameter p "value" (VNum 9474192) r in
  let r := default_parameter p "domain" VUndef r in
  let r := default_parameter p "mode" (VStr "hcl") r in
  let r := default_parameter p "visible" (VBool true) r in
  let r := default_parameter p "quality" VUndef r in
  let r := default_parameter p "roughness" (VNum 0x1.999999999999ap-2) r in
  let r := default_parameter p "metalness" (VNum 0) r in
  let r := default_parameter p "diffuse" (VNum 16777215) r in
  let r := default_parameter p "diffuseInterior" (VBool false) r in
  let r := default_parameter p "useInteriorColor" (VBool false) r in
  let r := default_parameter p "interiorColor" (VNum 2236962) r in
  let r := default_parameter p "interiorDarkening" (VNum 0) r in
  let r := default_parameter p "lazy" (VBool false) r in
  let r := with_lazyProps (mkLazyProps false ∅ ∅) r in
  let '(matrix, r) := allocate Matrix4_identity r in
  let r := default_parameter p "matrix" (VObj matrix) r in
  let r := default_parameter p "disablePicking" (VBool false) r in
  let r := declare "sphereDetail" sphereDetail_meta r in
  let r := declare "radialSegments" radialSegments_meta r in
  let r := declare "openEnded" openEnded_meta r in
  let r := declare "disableImpostor" disableImpostor_meta r in
  let quality := get p "quality" in
  let r :=
    if strict_eq quality (VStr "low") then
      assign_if_declared "radialSegments" (VNum 5)
        (assign_if_declared "sphereDetail" (VNum 0) r)
    else if strict_eq quality (VStr "medium") then
      assign_if_declared "radialSegments" (VNum 10)
        (assign_if_declared "sphereDetail" (VNum 1) r)
    else if strict_eq quality (VStr "high") then
      assign_if_declared "radialSegments" (VNum 20)
        (assign_if_declared "sphereDetail" (VNum 2) r)
    else
      assign_if_declared "radialSegments"
        (defaults (get p "radialSegments") (VNum 10))
        (assign_if_declared "sphereDetail"
           (defaults (get p "sphereDetail") (VNum 1)) r) in
  let r := assign_if_declared "openEnded"
             (defaults (get p "openEnded") (VBool true)) r in
  assign_if_declared "disableImpostor"
    (defaults (get p "disableImpostor") (VBool false)) r.

(** *** The mutually recursive methods

    [build], [make], [attach], [setVisibility], [updateParameters] and
    [update] call each other; every cycle goes through [build].  They are
    first written against the [build] they call, then [build] is closed
    over a bound on the depth of nested calls ([None] when it is
    exhausted). *)

Section Open.
Variable build_rec :
  option (gmap string Value) -> Representation -> option Representation.

(** [update(what) { this.build(what) }] *)
Definition update_open (what : gmap string Value) (r : Representation)
    : option Representation :=
  build_rec (Some what) r.

(** [updateParameters(bufferParams, what)] *)
Definition updateParameters_open (bufferParams what : gmap string Value)
    (r : Representation) : option Representation :=
  if truthy (this_prop r "lazy")
     && (negb (truthy (this_prop r "visible"))
         || negb (truthy (this_prop r "opacity")))
     && is_undefined (prop bufferParams "opacity")
  then
    Some (with_lazyProps
            (mkLazyProps (lp_build (lazyProps r))
                         (bufferParams ∪ lp_bufferParams (lazyProps r))
                         (what ∪ lp_what (lazyProps r))) r)
  else
    let r1 := with_bufferList
                (map (Buffer.setParameters bufferParams) (bufferList r)) r in
    r2 ← (if nonempty what then update_open what r1 else Some r1);
    Some (called [RequestRender] r2).

(** The end of [setVisibility]: the [forEach] over [bufferList] and the
    render request. *)
Definition propagate (value noRenderRequest : Value) (r : Representation)
    : Representation :=
  let r1 := with_bufferList
              (map (Buffer.setVisibility value) (bufferList r)) r in
  if truthy noRenderRequest then r1 else called [RequestRender] r1.

(** [setVisibility(value, noRenderRequest)] *)
Definition setVisibility_open (value noRenderRequest : Value)
    (r : Representation) : option Representation :=
  let r0 := with_self (insert "visible" value) r in
  let finish := propagate value noRenderRequest in
  if truthy (this_prop r0 "visible") && tp_truthy r0 "opacity" then
    let lazyProps := lazyProps r0 in
    let bufferParams := lp_bufferParams lazyProps in
    let what := lp_what lazyProps in
    if lp_build lazyProps then
      build_rec None
        (with_lazyProps (mkLazyProps false bufferParams what) r0)
    else if nonempty bufferParams || nonempty what then
      r1 ← updateParameters_open bufferParams what
             (with_lazyProps (mkLazyProps (lp_build lazyProps) ∅ ∅) r0);
      Some (finish r1)
    else Some (finish r0)
  else Some (finish r0).

(** [attach(callback)] *)
Definition attach_open (callback : Representation -> Representation)
    (r : Representation) : option Representation :=
  r1 ← setVisibility_open (this_prop r "visible") VUndef (called [Attach] r);
  Some (callback r1).

(** [if (callback) callback()] *)
Definition invoke (callback : bool) (r : Representation) : Representation :=
  if callback then called [Callback] r else r.

(** The closure [_make] of [make(updateWhat, callback)]. *)
Definition _make_open (updateWhat : option (gmap string Value))
    (callback : bool) (r : Representation) : option Representation :=
  match updateWhat with
  | Some what =>
      r1 ← update_open what r;
      Some (invoke callback
              (with_tasks Counter.decrement (called [RequestRender] r1)))
  | None =>
      let r1 := create (clear r) in
      if negb (disposed r1) then
        attach_open (fun r => invoke callback (with_tasks Counter.decrement r))
                    r1
      else Some r1
  end.

(** [make(updateWhat, callback)]: with a preparation step the closure is
    handed to [this.prepare]. *)
Definition make_open (updateWhat : option (gmap string Value))
    (callback : bool) (r : Representation) : option Representation :=
  if prepare r then
    Some (with_pending (pending r ++ [(updateWhat, callback)])
                       (called [Prepare] r))
  else _make_open updateWhat callback r.

(** [build(updateWhat)] *)
Definition build_open (updateWhat : option (gmap string Value))
    (r : Representation) : option Representation :=
  if tp_truthy r "lazy"
     && (negb (truthy (this_prop r "visible")) || negb (tp_truthy r "opacity"))
  then
    Some (with_lazyProps
            (mkLazyProps true (lp_bufferParams (lazyProps r))
                         (lp_what (lazyProps r))) r)
  else if negb (prepare r) then
    make_open None false (with_tasks Counter.increment r)
  else
    let r1 :=
      if (0 <? Queue.length (queue r))%nat then
        with_queue Queue.kill
          (with_tasks (Counter.change (1 - Z.of_nat (Queue.length (queue r)))) r)
      else with_tasks Counter.increment r in
    Some (with_queue (Queue.push updateWhat) r1).

(** The variables the loop of [setParameters] updates: the [p] object, the
    representation, and the locals [bufferParams], [what] and [rebuild]. *)
Record Loop : Type := mkLoop {
  l_p : Params;
  l_this : Representation;
  l_bufferParams : gmap string Value;
  l_what : gmap string Value;
  l_rebuild : bool
}.

(** [p[name].equals(this[name])], reached only with [p[name] === this[name]]. *)
Definition equals_method (h : gmap nat Obj) (a b : Value) : bool :=
  match a, b with
  | VObj la, VObj lb =>
      equals host (default [] (h !! la)) (default [] (h !! lb))
  | _, _ => false
  end.

(** Whether [v.equals] is defined. *)
Definition has_equals (v : Value) : bool :=
  match v with VObj _ => true | _ => false end.

(** The three-way commit of a new value: [this[name].copy(p[name])],
    [this[name].set(p[name])] or [this[name] = p[name]]. *)
Definition commit (name : string) (v : Value) (r : Representation)
    : Representation :=
  match this_prop r name, v with
  | VObj lt, VObj lp =>
      with_heap (<[lt := copy host (default [] (heap r !! lt))
                                   (default [] (heap r !! lp))]> (heap r)) r
  | VObj lt, _ =>
      with_heap (<[lt := set host (default [] (heap r !! lt)) v]> (heap r)) r
  | _, _ => with_self (insert name v) r
  end.

(** One turn of [for (let name in p)]. *)
Definition loop_body (st : Loop) (name : string) : Loop :=
  let p := l_p st in
  let r := l_this st in
  if is_undefined (get p name) then st else
  if tp_undefined (parameters r !! name) then st else
  let m := meta_of (parameters r !! name) in
  let p := if Meta.int m then put p name (VNum (parseInt host (get p name)))
           else p in
  let p := if Meta.float m then put p name (VNum (parseFloat host (get p name)))
           else p in
  let v := get p name in
  if strict_eq v (this_prop r name)
     && (negb (has_equals v) || equals_method (heap r) v (this_prop r name))
  then mkLoop p r (l_bufferParams st) (l_what st) (l_rebuild st)
  else
    let r := commit name v r in
    let bufferParams :=
      match Meta.buffer m with
      | BufferNone => l_bufferParams st
      | BufferTrue => <[name := v]> (l_bufferParams st)
      | BufferAlias alias =>
          if String.eqb alias "" then l_bufferParams st
          else <[alias := v]> (l_bufferParams st)
      end in
    let what :=
      match Meta.update m with
      | Some attribute =>
          if String.eqb attribute "" then l_what st
          else <[attribute := VBool true]> (l_what st)
      | None => l_what st
      end in
    let rebuild :=
      match Meta.rebuild m with
      | RebuildNone => l_rebuild st
      | RebuildTrue => true
      | RebuildImpostor =>
          if ExtensionFragDepth host && negb (truthy (this_prop r "disableImpostor"))
          then l_rebuild st else true
      end in
    mkLoop p r bufferParams what rebuild.

(** The state of the locals when the loop of [setParameters] starts: the
    special case on opacity, then [this.setColor(p.color, p)]. *)
Definition loop_entry (params : Params) (what : gmap string Value)
    (rebuild : bool) (r : Representation) : Loop :=
  let lazyProps := lazyProps r in
  let st :=
    if negb (tp_truthy r "opacity") && negb (is_undefined (get params "opacity"))
    then
      if lp_build lazyProps then
        mkLoop params
               (with_lazyProps (mkLazyProps false (lp_bufferParams lazyProps)
                                            (lp_what lazyProps)) r)
               ∅ what true
      else
        mkLoop params
               (with_lazyProps (mkLazyProps (lp_build lazyProps) ∅ ∅) r)
               (lp_bufferParams lazyProps) (lp_what lazyProps ∪ what) rebuild
    else mkLoop params r ∅ what rebuild in
  mkLoop (setColor_target (heap r) (get params "color") (l_p st))
         (l_this st) (l_bufferParams st) (l_what st) (l_rebuild st).

(** The loop itself, over the keys of [p] in enumeration order. *)
Definition loop (st : Loop) : Loop :=
  foldl loop_body st (map fst (l_p st)).

(** [setParameters(params, what, rebuild)] *)
Definition setParameters_open (params : Params) (what : gmap string Value)
    (rebuild : bool) (r : Representation) : option Representation :=
  let st := loop (loop_entry params what rebuild r) in
  if l_rebuild st then build_rec None (l_this st)
  else updateParameters_open (l_bufferParams st) (l_what st) (l_this st).

End Open.

Fixpoint build (depth : nat) (updateWhat : option (gmap string Value))
    (r : Representation) : option Representation :=
  match depth with
  | O => None
  | S depth' => build_open (build depth') updateWhat r
  end.

Definition update (depth : nat) := update_open (build depth).
Definition updateParameters (depth : nat) := updateParameters_open (build depth).
Definition setVisibility (depth : nat) := setVisibility_open (build depth).
Definition attach (depth : nat) := attach_open (build depth).
Definition _make (depth : nat) := _make_open (build depth).
Definition make (depth : nat) := make_open (build depth).

Definition setParameters (depth : nat) := setParameters_open (build depth).

(** [setColor(value, p)]: with a target the target is updated and the
    representation is left alone; without one the change goes through
    [setParameters]. *)
Definition setColor (depth : nat) (value : Value) (p : option Params)
    (r : Representation) : option (Representation * option Params) :=
  match p with
  | Some target => Some (r, Some (setColor_target (heap r) value target))
  | None =>
      match value with
      | VUndef => Some (r, None)
      | _ =>
          r' ← setParameters depth (setColor_target (heap r) value []) ∅ false r;
          Some (r', None)
      end
  end.

(** The preparation step calls the continuation it was handed first. *)
Definition resume (depth : nat) (r : Representation) : option Representation :=
  match pending r with
  | [] => Some r
  | (updateWhat, callback) :: rest =>
      _make depth updateWhat callback (with_pending rest r)
  end.

End WithHost.

(** *** Scenarios and vocabulary of the properties *)

(** Nothing is deferred: no build and no parameter update. *)
Definition quiet (r : Representation) : Prop :=
  lp_build (lazyProps r) = false
  /\ nonempty (lp_bufferParams (lazyProps r)) = false
  /\ nonempty (lp_what (lazyProps r)) = false.

(** [build] defers: the representation is lazy and invisible or fully
    transparent. *)
Definition defers (r : Representation) : bool :=
  tp_truthy r "lazy"
  && (negb (truthy (this_prop r "visible")) || negb (tp_truthy r "opacity")).

(** Visible, not fully transparent, and with no build deferred. *)
Definition awake (r : Representation) : Prop :=
  truthy (this_prop r "visible") = true
  /\ tp_truthy r "opacity" = true
  /\ lp_build (lazyProps r) = false.

#[global] Instance Call_eq_dec : EqDecision Call.
Proof. solve_decision. Defined.

(** How many times a call occurs in the trace. *)
Definition occurrences (c : Call) (r : Representation) : nat :=
  List.length (filter (fun c' => c' = c) (calls r)).

(** [build(uw1); build(uw2); ...], one call after the other. *)
Fixpoint builds (depth : nat) (uws : list (option (gmap string Value)))
    (r : Representation) : option Representation :=
  match uws with
  | [] => Some r
  | uw :: rest => r' ← build depth uw r; builds depth rest r'
  end.

(** Whether [setColor] takes its value for the name of a registered
    scheme: a string whose lower-case form is among the registered names. *)
Definition names_scheme (host : Host) (value : Value) : bool :=
  match value with
  | VStr str => existsb (String.eqb (toLowerCase host str)) (schemes host)
  | _ => false
  end.

(** Whether the loop of [setParameters] takes [v] for a change of the
    current value [cur]: the negation of its test for no value change. *)
Definition changed (host : Host) (h : gmap nat Obj) (v cur : Value) : bool :=
  negb (strict_eq v cur
        && (negb (has_equals v) || equals_method host h v cur)).

(** The value the loop compares and commits: [p[name]] after the [int] and
    [float] coercions of the metadata. *)
Definition coerced (host : Host) (m : Meta.Meta) (v : Value) : Value :=
  let v := if Meta.int m then VNum (parseInt host v) else v in
  if Meta.float m then VNum (parseFloat host v) else v.

(** Whether a changed parameter with metadata [m] escalates to a rebuild,
    given the [disableImpostor] property at that point. *)
Definition escalates (host : Host) (m : Meta.Meta) (disableImpostor : Value)
    : bool :=
  match Meta.rebuild m with
  | RebuildNone => false
  | RebuildTrue => true
  | RebuildImpostor =>
      negb (ExtensionFragDepth host && negb (truthy disableImpostor))
  end.

(** The parameters one changed value stages for the buffers and the
    attributes it marks, after those staged and marked before. *)
Definition staged (m : Meta.Meta) (name : string) (v : Value)
    (bufferParams : gmap string Value) : gmap string Value :=
  match Meta.buffer m with
  | BufferNone => bufferParams
  | BufferTrue => <[name := v]> bufferParams
  | BufferAlias alias =>
      if String.eqb alias "" then bufferParams else <[alias := v]> bufferParams
  end.

Definition marked (m : Meta.Meta) (what : gmap string Value)
    : gmap string Value :=
  match Meta.update m with
  | Some attribute =>
      if String.eqb attribute "" then what else <[attribute := VBool true]> what
  | None => what
  end.

(** The trace of [r'] continues the trace of [r]. *)
Definition grows (r r' : Representation) : Prop :=
  exists rest, calls r' = calls r ++ rest.

(** The calls [clear()] makes for the buffers it drops. *)
Definition removals (bs : list Buffer.Buffer) : list Call :=
  flat_map (fun b => [ViewerRemove (Buffer.id b); BufferDispose (Buffer.id b)])
           bs.

(** The specification's reading of the ['impostor'] marker, for a call
    [setParameters({name: v})]: the escalation to a rebuild is suppressed
    exactly when impostor rendering is unavailable or disabled. *)
Definition suppressed_when_unavailable (host : Host) (r : Representation)
    (name : string) (v : Value) : Prop :=
  l_rebuild (loop host (loop_entry host [(name, v)] ∅ false r)) = false
  <-> (ExtensionFragDepth host = false
       \/ truthy (this_prop r "disableImpostor") = true).

(** The specification's reading of [setVisibility]: whenever the call
    returns, every owned buffer has the value and, unless suppressed, the
    last thing asked of the viewer is a render. *)
Definition always_propagates (d : nat) (value noRenderRequest : Value)
    (r : Representation) : Prop :=
  forall r',
    setVisibility d value noRenderRequest r = Some r' ->
    Forall (fun b => Buffer.visible b = value) (bufferList r')
    /\ (truthy noRenderRequest = false ->
        exists cs, calls r' = cs ++ [RequestRender]).

(** Lower case on the letters of ASCII. *)
Definition ascii_lower (ch : ascii) : ascii :=
  let n := nat_of_ascii ch in
  if (65 <=? n) && (n <=? 90) then ascii_of_nat (n + 32) else ch.

Fixpoint ascii_toLowerCase (str : string) : string :=
  match str with
  | EmptyString => EmptyString
  | String ch rest => String (ascii_lower ch) (ascii_toLowerCase rest)
  end.

(** A host for the scenarios: fragment-depth extension present, three
    registered schemes, lower case on ASCII, colours resolved for numbers
    and for ['red'] only, numbers parsed from numbers only, and value
    objects compared and copied component by component. *)
Definition scenario_host : Host :=
  mkHost true ["uniform"; "element"; "chainid"] ascii_toLowerCase
         (fun _ v => match v with
                     | VNum x => x
                     | VStr "red" => 16711680%float
                     | _ => 0%float
                     end)
         (fun v => match v with VNum x => x | _ => nan end)
         (fun v => match v with VNum x => x | _ => nan end)
         (fun a b => bool_decide (List.length a = List.length b)
                     && forallb (fun '(x, y) => PrimFloat.eqb x y) (zip a b))
         (fun _ b => b)
         (fun a _ => a).

(** The same host without the fragment-depth extension: impostor
    rendering is unavailable. *)
Definition scenario_host_no_impostor : Host :=
  mkHost false (schemes scenario_host) (toLowerCase scenario_host)
         (Color_getHex scenario_host)
         (parseInt scenario_host) (parseFloat scenario_host)
         (equals scenario_host) (copy scenario_host) (set scenario_host).

(** A representation with nothing in it. *)
Definition blank : Representation :=
  mkRepresentation ∅ ∅ (mkLazyProps false ∅ ∅) (Counter.mkCounter 0 false) []
                   [] false false [] ∅ [].

(** A lazy, hidden, opaque representation that owns one buffer. *)
Definition lazy_hidden : Representation :=
  mkRepresentation
    (<["lazy" := PValue (VBool true)]> (<["opacity" := PValue (VNum 1)]> ∅))
    (<["visible" := VBool false]> ∅)
    (mkLazyProps false ∅ ∅) (Counter.mkCounter 0 false) []
    [Buffer.mkBuffer 7 (VBool false) ∅] false false [] ∅ [].

(** A visible representation whose [clipCenter] is a buffer parameter that
    also marks the position attribute and asks for a rebuild; the current
    value is the vector at address 1, and the vector at address 2 has the
    same components. *)
Definition with_clipCenter : Representation :=
  mkRepresentation
    (<["clipCenter" := PMeta (Meta.mkMeta false false BufferTrue
                                          (Some "position") RebuildTrue)]>
       (<["opacity" := PValue (VNum 1)]> ∅))
    (<["clipCenter" := VObj 1]> (<["visible" := VBool true]> ∅))
    (mkLazyProps false ∅ ∅) (Counter.mkCounter 0 false) []
    [Buffer.mkBuffer 7 (VBool true) ∅] false false []
    (<[1 := [0; 0; 0]%float]> (<[2 := [0; 0; 0]%float]> ∅)) [].

(** A visible representation as [init] leaves one that declares
    [sphereDetail], with impostor rendering enabled. *)
Definition with_sphereDetail : Representation :=
  mkRepresentation
    (<["sphereDetail" := PMeta sphereDetail_meta]>
       (<["opacity" := PValue (VNum 1)]> ∅))
    (<["sphereDetail" := VNum 1]>
       (<["disableImpostor" := VBool false]> (<["visible" := VBool true]> ∅)))
    (mkLazyProps false ∅ ∅) (Counter.mkCounter 0 false) []
    [Buffer.mkBuffer 7 (VBool true) ∅] false false [] ∅ [].

(** A hidden representation of a class with a preparation step, with a
    build deferred and one buffer that is still hidden. *)
Definition hidden_with_deferred_build : Representation :=
  mkRepresentation
    (<["lazy" := PValue (VBool true)]> (<["opacity" := PValue (VNum 1)]> ∅))
    (<["visible" := VBool false]> ∅)
    (mkLazyProps true ∅ ∅) (Counter.mkCounter 0 false) []
    [Buffer.mkBuffer 7 (VBool false) ∅] false true [] ∅ [].

(** An idle, visible representation of a class with a preparation step. *)
Definition prepared : Representation :=
  mkRepresentation
    (<["opacity" := PValue (VNum 1)]> ∅)
    (<["visible" := VBool true]> ∅)
    (mkLazyProps false ∅ ∅) (Counter.mkCounter 0 false) []
    [Buffer.mkBuffer 7 (VBool true) ∅] false true [] ∅ [].

(** *** Vocabulary: what a call leaves alone *)

(** The parameter table, the heap, the [disposed] flag, the preparation
    step and the continuations it holds are the same, and every property
    [this[name]] reads the same. *)
Definition kept (r r' : Representation) : Prop :=
  parameters r' = parameters r
  /\ heap r' = heap r
  /\ disposed r' = disposed r
  /\ prepare r' = prepare r
  /\ pending r' = pending r
  /\ forall name, this_prop r' name = this_prop r name.

(** The tasks counted that are not jobs waiting in the queue. *)
Definition outstanding (r : Representation) : Z :=
  (Counter.count (tasks r) - Z.of_nat (Queue.length (queue r)))%Z.

(** [kept], and no change of the outstanding tasks unless the
    representation is disposed and builds synchronously. *)
Definition steady (r r' : Representation) : Prop :=
  kept r r'
  /\ (prepare r = true \/ disposed r = false ->
      outstanding r' = outstanding r).

(** [getParameters()]: [lazy], [visible] and [quality], then [this[name]]
    for every key of [this.parameters]; no entry of the table is [null]
    in this model, so the test on [null] always passes. *)
Definition getParameters (r : Representation) : gmap string Value :=
  let params :=
    <["quality" := this_prop r "quality"]>
      (<["visible" := this_prop r "visible"]>
         (<["lazy" := this_prop r "lazy"]> ∅)) in
  map_fold (fun name _ params => <[name := this_prop r name]> params)
           params (parameters r).

(** A representation as the constructor of a class that declares
    [sphereDetail] and [radialSegments] leaves it, before [init]. *)
Definition detailed : Representation :=
  mkRepresentation
    (<["sphereDetail" := PValue (VBool true)]>
       (<["radialSegments" := PValue (VBool true)]> ∅))
    ∅ (mkLazyProps false ∅ ∅) (Counter.mkCounter 0 false) [] [] false false
    [] ∅ [].

(** The specification's reading of the deferred build: whenever [build()]
    was deferred and [setVisibility(true)] follows, construction has run
    exactly once more. *)
Definition builds_exactly_once (d : nat) (r : Representation) : Prop :=
  forall deferred r',
    build d None r = Some deferred ->
    setVisibility d (VBool true) VUndef deferred = Some r' ->
    occurrences Create r' = occurrences Create r + 1.

(** A lazy, hidden representation on which an update of the position
    attribute is deferred, as [updateParameters({}, {position: true})]
    leaves it when [this.lazy] and [this.opacity] are set. *)
Definition lazy_hidden_with_update : Representation :=
  with_lazyProps (mkLazyProps false ∅ {["position" := VBool true]})
    (with_self (insert "opacity" (VNum 1))
       (with_self (insert "lazy" (VBool true)) lazy_hidden)).

(** [with_clipCenter] when the vector at address 2 is (1, 0, 0). *)
Definition clipCenter_moved : Representation :=
  with_heap (<[2 := [1; 0; 0]%float]> (heap with_clipCenter)) with_clipCenter.

End Representation.


(** * Properties *)

(** ** Grid *)

Module GridSpec.
Import Grid.

Lemma store_zero (ctor : DataCtorKind) : store ctor 0 = 0%Z.
Proof. destruct ctor; reflexivity. Qed.

(** The constructor builds a well-formed grid. *)
Lemma new_wf (l w h : nat) (ctor : DataCtorKind) (e : nat) :
  wf (new l w h ctor e).
Proof.
  split; simpl.
  - apply length_replicate.
  - apply Forall_replicate, store_zero.
Qed.

(** Inside [clone], the copy into the fresh grid does duplicate the
    original cell for cell; the duplicate is the receiver of [copy]. *)
Lemma copy_into_new_duplicates (g : Grid) :
  wf g ->
  copy (new (length g) (width g) (height g) (DataCtor g) (elemSize g)) g
  = Some (g, RetUndefined).
Proof.
  intros [Hlen Hall]. unfold copy, new; simpl.
  rewrite length_replicate, Hlen, Nat.leb_refl.
  rewrite drop_ge by (rewrite length_replicate; lia).
  rewrite app_nil_r.
  assert (Hmap : map (store (DataCtor g)) (data g) = data g).
  { clear Hlen. induction Hall as [|v vs Hv _ IH]; simpl; [done|].
    by rewrite Hv, IH. }
  rewrite Hmap. by destruct g.
Qed.

(** [copy] never returns a grid. *)
Lemma copy_returns_undefined (this grid this' : Grid) (ret : Returned) :
  copy this grid = Some (this', ret) -> ret = RetUndefined.
Proof. unfold copy. case_match; congruence. Qed.

(** C8, as the code has it: [clone()] hands back what [copy] returns, and
    [copy] has no [return] statement, so the caller of [clone()] receives
    [undefined] (or the [RangeError] of [TypedArray.set]) and never the
    duplicate grid. *)
Theorem clone_returns_no_grid (g : Grid) :
  clone g = None \/ clone g = Some RetUndefined.
Proof.
  unfold clone.
  destruct (copy _ g) as [[g' ret]|] eqn:Hcopy; [right|by left].
  by rewrite (copy_returns_undefined _ _ _ _ Hcopy).
Qed.

(** On every grid the constructor or the accessors produced, the duplicate
    is built and dropped: the result is [undefined]. *)
Lemma clone_wf_undefined (g : Grid) : wf g -> clone g = Some RetUndefined.
Proof. intros Hwf. unfold clone. by rewrite copy_into_new_duplicates. Qed.

Example clone_2_3_4 :
  clone (set (new 2 3 4 Int32Array 1) 1 2 3 [42%Z]) = Some RetUndefined.
Proof. reflexivity. Qed.

(** The addressing scenario of the specification. *)
Example index_1_2_3 : index (new 2 3 4 Int32Array 1) 1 2 3 = 23.
Proof. reflexivity. Qed.

Example set_then_read :
  data (set (new 2 3 4 Int32Array 1) 1 2 3 [42%Z]) !! 23 = Some 42%Z.
Proof. reflexivity. Qed.

End GridSpec.


(** ** Primitive *)

Module PrimitiveSpec.
Import Three Primitive.

Lemma fresh_shape_holds_no_sphere : holds_spheres 0 fresh_shape.
Proof. exists [], [], [], []. by repeat split. Qed.

Lemma at_index_app_length (l k : list Cell) (n i : nat) :
  List.length l = n -> at_index (l ++ k) (Some (n + i)) = at_index k (Some i).
Proof.
  intros <-. unfold at_index. rewrite lookup_app_r by lia.
  by replace (List.length l + i - List.length l) with i by lia.
Qed.

(** Reading a triple back at the offset it was appended at. *)
Lemma Vector3_fromArray_app (l : list Cell) (n : nat) (a b c : Cell) :
  List.length l = 3 * n ->
  Vector3_fromArray (l ++ [a; b; c]) (times3 (Some n)) = mkVector3 a b c.
Proof.
  intros Hl. unfold Vector3_fromArray, times3, offset_add.
  rewrite <- (Nat.add_0_r (3 * n)) at 1.
  by rewrite !(at_index_app_length l _ (3 * n)).
Qed.

Lemma Color_fromArray_app (l : list Cell) (n : nat) (a b c : Cell) :
  List.length l = 3 * n ->
  Color_fromArray (l ++ [a; b; c]) (times3 (Some n)) = mkColor a b c.
Proof.
  intros Hl. unfold Color_fromArray, times3, offset_add.
  rewrite <- (Nat.add_0_r (3 * n)) at 1.
  by rewrite !(at_index_app_length l _ (3 * n)).
Qed.

Lemma at_index_snoc (l : list Cell) (n : nat) (a : Cell) :
  List.length l = n -> at_index (l ++ [a]) (Some n) = a.
Proof.
  intros Hl. rewrite <- (Nat.add_0_r n).
  by rewrite (at_index_app_length l _ n).
Qed.

Lemma valueToShape_triple (this : PrimitiveClass) (sh : Shape)
    (fname key : string) (column elems : list Cell) :
  getShapeKey this fname = Some key ->
  _primitiveData sh !! key = Some column ->
  (field_kind (fields this) fname = Some K_v3
   \/ field_kind (fields this) fname = Some K_c) ->
  valueToShape this sh fname (DArray elems)
  = Some (mkShape (name sh) (<[key := column ++ elems]> (_primitiveData sh))
                  (boundingBox sh)).
Proof.
  intros Hkey Hcol Hkind. unfold valueToShape.
  rewrite Hkey; simpl. rewrite Hcol; simpl.
  by destruct Hkind as [-> | ->].
Qed.

Lemma valueToShape_scalar (this : PrimitiveClass) (sh : Shape)
    (fname key : string) (column : list Cell) (v : Cell) :
  getShapeKey this fname = Some key ->
  _primitiveData sh !! key = Some column ->
  field_kind (fields this) fname <> Some K_v3 ->
  field_kind (fields this) fname <> Some K_c ->
  valueToShape this sh fname (DPrim v)
  = Some (mkShape (name sh) (<[key := column ++ [v]]> (_primitiveData sh))
                  (boundingBox sh)).
Proof.
  intros Hkey Hcol Hv3 Hc. unfold valueToShape.
  rewrite Hkey; simpl. rewrite Hcol; simpl.
  by destruct (field_kind _ _) as [[]|].
Qed.

Lemma valueFromShape_column (this : PrimitiveClass) (sh : Shape)
    (pid : option nat) (fname key : string) (column : list Cell) :
  getShapeKey this fname = Some key ->
  _primitiveData sh !! key = Some column ->
  valueFromShape this sh pid fname
  = Some (match field_kind (fields this) fname with
          | Some K_v3 => OVector3 (Vector3_fromArray column (times3 pid))
          | Some K_c => OColor (Color_fromArray column (times3 pid))
          | _ => OCell (at_index column pid)
          end).
Proof.
  intros Hkey Hcol. unfold valueFromShape.
  rewrite Hkey; simpl. rewrite Hcol; simpl.
  by destruct (field_kind _ _) as [[]|].
Qed.

(** C9: on a shape that holds [n] spheres (a fresh one holds none),
    [objectToShape] appends a sphere and [objectFromShape] at that
    instance's pid, [n], gives back its position, colour and radius by
    value, under the synthesized name. *)
Theorem sphere_round_trip (sh : Shape) (n : nat) (px py pz cr cg cb radius : Cell) :
  holds_spheres n sh ->
  exists sh' o,
    objectToShape SpherePrimitive sh (sphere_data px py pz cr cg cb radius)
    = Some sh'
    /\ objectFromShape SpherePrimitive sh' (Some n) = Some o
    /\ o !! "position" = Some (OVector3 (mkVector3 px py pz))
    /\ o !! "color" = Some (OColor (mkColor cr cg cb))
    /\ o !! "radius" = Some (OCell radius)
    /\ holds_spheres (S n) sh'.
Proof.
  intros (ps & cs & rs & ns & Hps & Lps & Hcs & Lcs & Hrs & Lrs & Hns & Lns).
  set (data := sphere_data px py pz cr cg cb radius).
  assert (Dp : data_prop data "position" = DArray [px; py; pz]) by reflexivity.
  assert (Dc : data_prop data "color" = DArray [cr; cg; cb]) by reflexivity.
  assert (Dr : data_prop data "radius" = DPrim radius) by reflexivity.
  assert (Dn : data_prop data "name" = DPrim CUndef) by reflexivity.
  unfold objectToShape, expandBoundingBox. cbn [fields foldl].
  rewrite Dp, Dc, Dr, Dn. cbn [mbind option_bind point_of].
  erewrite (valueToShape_triple _ sh "position" "spherePosition" ps);
    [|reflexivity|done|by left].
  cbn [mbind option_bind].
  erewrite (valueToShape_triple _ _ "color" "sphereColor" cs);
    [|reflexivity|by simplify_map_eq|by right].
  cbn [mbind option_bind].
  erewrite (valueToShape_scalar _ _ "radius" "sphereRadius" rs);
    [|reflexivity|by simplify_map_eq|done|done].
  cbn [mbind option_bind].
  erewrite (valueToShape_scalar _ _ "name" "sphereName" ns);
    [|reflexivity|by simplify_map_eq|done|done].
  cbn [mbind option_bind name _primitiveData boundingBox].
  eexists _, _. split; [reflexivity|].
  unfold objectFromShape. cbn [fields foldl].
  erewrite (valueFromShape_column _ _ _ "name" "sphereName");
    [|reflexivity|by simplify_map_eq].
  erewrite (valueFromShape_column _ _ _ "position" "spherePosition");
    [|reflexivity|by simplify_map_eq].
  erewrite (valueFromShape_column _ _ _ "color" "sphereColor");
    [|reflexivity|by simplify_map_eq].
  erewrite (valueFromShape_column _ _ _ "radius" "sphereRadius");
    [|reflexivity|by simplify_map_eq].
  change (field_kind (fields SpherePrimitive) "name") with (@None FieldKind).
  change (field_kind (fields SpherePrimitive) "position") with (Some K_v3).
  change (field_kind (fields SpherePrimitive) "color") with (Some K_c).
  change (field_kind (fields SpherePrimitive) "radius") with (Some K_f).
  cbn [mbind option_bind].
  rewrite Vector3_fromArray_app, Color_fromArray_app by done.
  rewrite !at_index_snoc by done.
  split; [reflexivity|].
  repeat split; [by simplify_map_eq..|].
  exists (ps ++ [px; py; pz]), (cs ++ [cr; cg; cb]), (rs ++ [radius]),
         (ns ++ [CUndef]).
  cbn [_primitiveData].
  repeat split; try (by simplify_map_eq); rewrite length_app; simpl; lia.
Qed.

(** The scenario of the specification: a fresh shape and the sphere
    [{position: [1,2,3], color: [0,1,0], radius: 2}], read back at pid 0. *)
Lemma sphere_round_trip_fresh :
  holds_spheres 0 fresh_shape
  /\ exists sh' o,
       objectToShape SpherePrimitive fresh_shape
         (sphere_data (CNum 1) (CNum 2) (CNum 3) (CNum 0) (CNum 1) (CNum 0)
                      (CNum 2))
       = Some sh'
       /\ objectFromShape SpherePrimitive sh' (Some 0) = Some o
       /\ o !! "position" = Some (OVector3 (mkVector3 (CNum 1) (CNum 2) (CNum 3)))
       /\ o !! "color" = Some (OColor (mkColor (CNum 0) (CNum 1) (CNum 0)))
       /\ o !! "radius" = Some (OCell (CNum 2))
       /\ holds_spheres 1 sh'.
Proof.
  split; [exact fresh_shape_holds_no_sphere|].
  exact (sphere_round_trip fresh_shape 0 (CNum 1) (CNum 2) (CNum 3) (CNum 0)
           (CNum 1) (CNum 0) (CNum 2) fresh_shape_holds_no_sphere).
Defined.

(** The name is synthesized when none was recorded. *)
Example sphere_default_name :
  (sh ← objectToShape SpherePrimitive fresh_shape
          (sphere_data (CNum 1) (CNum 2) (CNum 3) (CNum 0) (CNum 1) (CNum 0)
                       (CNum 2));
   o ← objectFromShape SpherePrimitive sh (Some 0);
   o !! "name")
  = Some (OCell (CStr "sphere: 0 (shape)")).
Proof. vm_compute. reflexivity. Qed.

End PrimitiveSpec.


(** ** Picker *)

Module PickerSpec.
Import Three Primitive Picker.

Lemma midpoint_numbers (host : Host) (a b c d e f : float) :
  midpoint host (mkVector3 (CNum a) (CNum b) (CNum c))
                (mkVector3 (CNum d) (CNum e) (CNum f))
  = mkVector3 (CNum ((a + d) * 0.5)) (CNum ((b + e) * 0.5))
              (CNum ((c + f) * 0.5)).
Proof. reflexivity. Qed.

(** A bond picker returns the midpoint of the positions of the two atoms
    of the bond the pid resolves to. *)
Lemma BondPicker_midpoint (host : Host) (array : option (list nat))
    (st : Structure) (bs : option BondStore) (pid i a1 a2 : nat)
    (p1 p2 : Vector3) :
  getIndex array pid = Some i ->
  atomIndex1 (default (bondStore st) bs) !! i = Some a1 ->
  atomIndex2 (default (bondStore st) bs) !! i = Some a2 ->
  atomPositions st !! a1 = Some p1 ->
  atomPositions st !! a2 = Some p2 ->
  BondPicker_getPosition host (BondPicker_new array st bs) pid
  = midpoint host p1 p2.
Proof.
  intros Hi H1 H2 Hp1 Hp2.
  unfold BondPicker_getPosition, BondPicker_getObject, BondPicker_new,
    getBondProxy, atom1, atom2, positionToVector3; simpl.
  rewrite Hi; simpl. rewrite H1, H2, Hp1, Hp2. reflexivity.
Qed.

Example BondPicker_scenario (host : Host) :
  BondPicker_getPosition host (BondPicker_new None two_atoms None) 0
  = mkVector3 (CNum 1) (CNum 0) (CNum 0).
Proof. reflexivity. Qed.

(** A contact picker returns the midpoint of the two centers of the object
    it resolves the pid to. *)
Lemma ContactPicker_midpoint (host : Host) (this : ContactPicker) (pid : nat)
    (o : ContactObject) :
  ContactPicker_getObject this pid = Some o ->
  ContactPicker_getPosition host this pid
  = Some (multiplyScalar host (addVectors host (center1 o) (center2 o)) 0.5).
Proof. intros Ho. unfold ContactPicker_getPosition. by rewrite Ho. Qed.

Example ContactPicker_scenario (host : Host) :
  ContactPicker_getPosition host (mkContactPicker None one_contact two_atoms) 0
  = Some (mkVector3 (CNum 1) (CNum 0) (CNum 0)).
Proof. reflexivity. Qed.

(** The cylinder primitive itself returns the midpoint when it is given
    the index of the instance. *)
Example CylinderPrimitive_scenario (host : Host) :
  positionFromShape host CylinderPrimitive one_cylinder (Some 0)
  = Some (OVector3 (mkVector3 (CNum 1) (CNum 0) (CNum 0))).
Proof. vm_compute. reflexivity. Qed.

(** Every shape picker is built with the empty array as its table, which
    is truthy, so [getIndex] reads the table and finds nothing. *)
Lemma ShapePicker_getIndex_undefined (prim : PrimitiveClass) (sh : Shape)
    (pid : nat) :
  getIndex (sp_array (ShapePicker_new prim sh)) pid = None.
Proof. reflexivity. Qed.

(** C10, as the code has it: for the cylinder of the scenario, from
    (0,0,0) to (2,0,0), [CylinderPicker._getPosition(0)] is
    (NaN, NaN, NaN) and not the midpoint (1,0,0), because the index it
    hands to the primitive is [undefined]. *)
Theorem CylinderPicker_getPosition_not_midpoint (host : Host) :
  ShapePicker_getPosition host (CylinderPicker one_cylinder) 0
  = Some (OVector3 (mkVector3 (CNum nan) (CNum nan) (CNum nan)))
  /\ ShapePicker_getPosition host (CylinderPicker one_cylinder) 0
     <> Some (OVector3 (mkVector3 (CNum 1) (CNum 0) (CNum 0))).
Proof.
  assert (E : ShapePicker_getPosition host (CylinderPicker one_cylinder) 0
              = Some (OVector3 (mkVector3 (CNum nan) (CNum nan) (CNum nan))))
    by (vm_compute; reflexivity).
  split; [exact E|].
  rewrite E. intros H. apply (f_equal first_is_one) in H.
  cbv in H. discriminate H.
Qed.

(** The same on any shape with cylinder columns and for any pid. *)
Lemma CylinderPicker_getPosition_nan (host : Host) (sh : Shape) (pid : nat)
    (c1 c2 : list Cell) :
  _primitiveData sh !! "cylinderPosition1" = Some c1 ->
  _primitiveData sh !! "cylinderPosition2" = Some c2 ->
  ShapePicker_getPosition host (CylinderPicker sh) pid
  = Some (OVector3 (mkVector3 (CNum nan) (CNum nan) (CNum nan))).
Proof.
  intros H1 H2. unfold ShapePicker_getPosition, CylinderPicker.
  rewrite ShapePicker_getIndex_undefined. cbn [primitive shape ShapePicker_new].
  unfold positionFromShape.
  erewrite (PrimitiveSpec.valueFromShape_column _ _ _ "position1");
    [|reflexivity|exact H1].
  erewrite (PrimitiveSpec.valueFromShape_column _ _ _ "position2");
    [|reflexivity|exact H2].
  reflexivity.
Qed.

End PickerSpec.


(** ** Representation *)

Module RepresentationSpec.
Import JS Representation.

(** *** The bound on nested calls *)

(** One version of [build] is at least as defined as another. *)
Definition extends
    (f g : option (gmap string Value) -> Representation -> option Representation)
    : Prop :=
  forall uw r r', f uw r = Some r' -> g uw r = Some r'.

Section Monotone.
Variables f g :
  option (gmap string Value) -> Representation -> option Representation.
Hypothesis Hfg : extends f g.

Lemma updateParameters_open_extends bp what r r' :
  updateParameters_open f bp what r = Some r' ->
  updateParameters_open g bp what r = Some r'.
Proof.
  unfold updateParameters_open, update_open. intros H.
  repeat case_match; simplify_option_eq; done.
Qed.

Lemma setVisibility_open_extends v nrr r r' :
  setVisibility_open f v nrr r = Some r' ->
  setVisibility_open g v nrr r = Some r'.
Proof.
  unfold setVisibility_open. intros H.
  destruct (_ && _); [|done].
  destruct (lp_build _); [by apply Hfg|].
  destruct (_ || _); [|done].
  destruct (updateParameters_open f _ _ _) as [r1|] eqn:E; [|done].
  by rewrite (updateParameters_open_extends _ _ _ _ E).
Qed.

Lemma attach_open_extends k r r' :
  attach_open f k r = Some r' -> attach_open g k r = Some r'.
Proof.
  unfold attach_open. intros H.
  destruct (setVisibility_open f _ _ _) as [r1|] eqn:E; [|done].
  by rewrite (setVisibility_open_extends _ _ _ _ E).
Qed.

Lemma _make_open_extends uw cb r r' :
  _make_open f uw cb r = Some r' -> _make_open g uw cb r = Some r'.
Proof.
  unfold _make_open, update_open. intros H.
  destruct uw as [what|].
  - destruct (f _ _) as [r1|] eqn:E; [|done].
    by rewrite (Hfg _ _ _ E).
  - destruct (negb _); [|done]. by apply attach_open_extends.
Qed.

Lemma make_open_extends uw cb r r' :
  make_open f uw cb r = Some r' -> make_open g uw cb r = Some r'.
Proof.
  unfold make_open. destruct (prepare r); [done|]. apply _make_open_extends.
Qed.

Lemma build_open_extends uw r r' :
  build_open f uw r = Some r' -> build_open g uw r = Some r'.
Proof.
  unfold build_open. destruct (_ && _); [done|].
  destruct (negb _); [|done]. apply make_open_extends.
Qed.

End Monotone.

Lemma build_S (d : nat) : extends (build d) (build (S d)).
Proof.
  induction d as [|d IH]; intros uw r r'; [done|].
  change (build (S (S d))) with (build_open (build (S d))).
  change (build (S d)) with (build_open (build d)) at 1.
  by apply build_open_extends.
Qed.

(** A deeper bound never changes a result. *)
Lemma build_mono (d d' : nat) : d <= d' -> extends (build d) (build d').
Proof.
  induction 1 as [|d' _ IH]; [by intros ???|].
  intros uw r r' H. by apply build_S, IH.
Qed.

Lemma setVisibility_mono (d d' : nat) v nrr r r' :
  d <= d' -> setVisibility d v nrr r = Some r' ->
  setVisibility d' v nrr r = Some r'.
Proof. intros Hd. by apply setVisibility_open_extends, build_mono. Qed.

Lemma _make_mono (d d' : nat) uw cb r r' :
  d <= d' -> _make d uw cb r = Some r' -> _make d' uw cb r = Some r'.
Proof. intros Hd. by apply _make_open_extends, build_mono. Qed.

(** *** Every call returns *)

Section Total.
Variable f :
  option (gmap string Value) -> Representation -> option Representation.

Lemma setVisibility_open_quiet v nrr r :
  quiet r ->
  setVisibility_open f v nrr r
  = Some (propagate v nrr (with_self (insert "visible" v) r)).
Proof.
  intros (Hb & Hp & Hw). unfold setVisibility_open. cbn [lazyProps with_self].
  rewrite Hb, Hp, Hw. by destruct (_ && _).
Qed.

Lemma updateParameters_open_returns bp what r :
  (forall uw r1, lazyProps r1 = lazyProps r -> is_Some (f uw r1)) ->
  is_Some (updateParameters_open f bp what r).
Proof.
  intros Hf. unfold updateParameters_open, update_open.
  destruct (_ && _ && _); [by eexists|].
  destruct (nonempty what); [|by eexists].
  destruct (Hf (Some what)
              (with_bufferList (map (Buffer.setParameters bp) (bufferList r)) r))
    as [r2 ->]; [done|by eexists].
Qed.

Lemma setVisibility_open_returns v nrr r :
  (forall uw r1, lp_build (lazyProps r1) = false ->
                 (lp_build (lazyProps r) = false -> quiet r1) ->
                 is_Some (f uw r1)) ->
  is_Some (setVisibility_open f v nrr r).
Proof.
  intros Hf. unfold setVisibility_open. cbn [lazyProps with_self].
  destruct (_ && _); [|by eexists].
  destruct (lp_build (lazyProps r)) eqn:Hb.
  - apply Hf; [done|]. done.
  - destruct (_ || _); [|by eexists].
    destruct (updateParameters_open_returns (lp_bufferParams (lazyProps r))
                (lp_what (lazyProps r))
                (with_lazyProps (mkLazyProps false ∅ ∅)
                                (with_self (insert "visible" v) r)))
      as [r1 ->]; [|by eexists].
    intros uw r1 Hl. apply Hf; [by rewrite Hl|].
    intros _. unfold quiet. by rewrite Hl.
Qed.

Lemma build_open_returns uw r :
  (forall v nrr r1, lazyProps r1 = lazyProps r ->
                    is_Some (setVisibility_open f v nrr r1)) ->
  is_Some (build_open f uw r).
Proof.
  intros Hs. unfold build_open.
  destruct (_ && _); [by eexists|].
  destruct (negb (prepare r)) eqn:Hp; [|by eexists].
  apply negb_true_iff in Hp.
  unfold make_open. cbn [prepare with_tasks]. rewrite Hp.
  unfold _make_open. destruct (negb _); [|by eexists].
  unfold attach_open.
  match goal with
  | |- is_Some (setVisibility_open f ?v ?n ?r1 ≫= _) =>
      destruct (Hs v n r1) as [r2 ->]; [done|by eexists]
  end.
Qed.

End Total.

Lemma build_1_quiet uw r : quiet r -> is_Some (build 1 uw r).
Proof.
  intros Hq. apply build_open_returns. intros v nrr r1 Hl.
  rewrite setVisibility_open_quiet; [by eexists|].
  unfold quiet. by rewrite Hl.
Qed.

Lemma build_2_no_deferred_build uw r :
  lp_build (lazyProps r) = false -> is_Some (build 2 uw r).
Proof.
  intros Hb. apply build_open_returns. intros v nrr r1 Hl.
  apply setVisibility_open_returns. intros uw' r2 _ Hq.
  apply build_1_quiet, Hq. by rewrite Hl.
Qed.

(** A bound of three nested calls is enough for [build] in every state. *)
Lemma build_3_returns uw r : is_Some (build 3 uw r).
Proof.
  apply build_open_returns. intros v nrr r1 _.
  apply setVisibility_open_returns. intros uw' r2 Hb _.
  by apply build_2_no_deferred_build.
Qed.

Lemma build_returns (d : nat) uw r : is_Some (build (3 + d) uw r).
Proof.
  destruct (build_3_returns uw r) as [r' H]. exists r'.
  apply (build_mono 3); [lia|done].
Qed.

Lemma setVisibility_returns (d : nat) v nrr r :
  is_Some (setVisibility (2 + d) v nrr r).
Proof.
  apply setVisibility_open_returns. intros uw r1 Hb _.
  destruct (build_2_no_deferred_build uw r1 Hb) as [r' H]. exists r'.
  apply (build_mono 2); [lia|done].
Qed.

(** *** Lazy deferral *)

Lemma build_defers (d : nat) uw r :
  defers r = true ->
  build (S d) uw r
  = Some (with_lazyProps
            (mkLazyProps true (lp_bufferParams (lazyProps r))
                         (lp_what (lazyProps r))) r).
Proof. unfold defers. intros H. cbn [build]. unfold build_open. by rewrite H. Qed.

Lemma awake_not_defers r : awake r -> defers r = false.
Proof.
  intros (Hv & Ho & _). unfold defers. rewrite Hv, Ho.
  by destruct (tp_truthy r "lazy").
Qed.

Lemma awake_same r r' :
  self r' = self r -> parameters r' = parameters r ->
  lazyProps r' = lazyProps r -> awake r -> awake r'.
Proof.
  unfold awake, this_prop, tp_truthy. by intros -> -> ->.
Qed.

Lemma propagate_awake v nrr r : awake r -> awake (propagate v nrr r).
Proof. apply awake_same; unfold propagate; by destruct (truthy nrr). Qed.

(** What the methods leave alone when they run on an awake
    representation: it stays awake, so no build gets deferred again. *)
Section Awake.
Variable f :
  option (gmap string Value) -> Representation -> option Representation.
Hypothesis Hf : forall uw r r', f uw r = Some r' -> awake r -> awake r'.

Lemma updateParameters_open_awake bp what r r' :
  updateParameters_open f bp what r = Some r' -> awake r -> awake r'.
Proof.
  unfold updateParameters_open, update_open. intros H Ha.
  destruct (_ && _ && _); [by simplify_eq|].
  destruct (nonempty what); simplify_option_eq; [|done].
  match goal with H : f _ _ = Some _ |- _ => by apply Hf in H end.
Qed.

Lemma setVisibility_open_awake v r r' nrr :
  setVisibility_open f v nrr r = Some r' ->
  truthy v = true -> awake r -> awake r'.
Proof.
  unfold setVisibility_open. intros H Hv (_ & Ho & Hb).
  assert (Ha : forall l,
             awake (with_lazyProps l (with_self (insert "visible" v) r))
             <-> lp_build l = false).
  { intros l. unfold awake, this_prop, prop, tp_truthy; cbn.
    rewrite lookup_insert_eq. cbn. rewrite Hv. tauto. }
  assert (Ha' : awake (with_self (insert "visible" v) r)).
  { unfold awake, this_prop, prop, tp_truthy; cbn.
    rewrite lookup_insert_eq. by repeat split. }
  cbn [lazyProps with_self] in H. rewrite Hb in H.
  destruct (_ && _); [|injection H as <-; by apply propagate_awake].
  destruct (_ || _); [|injection H as <-; by apply propagate_awake].
  destruct (updateParameters_open f _ _ _) as [r1|] eqn:E; [|done].
  apply updateParameters_open_awake in E; [|by apply Ha].
  injection H as <-. by apply propagate_awake.
Qed.

Lemma attach_open_awake k r r' :
  (forall x, awake x -> awake (k x)) ->
  attach_open f k r = Some r' -> awake r -> awake r'.
Proof.
  intros Hk H Ha. unfold attach_open in H.
  destruct (setVisibility_open f _ _ _) as [r1|] eqn:E; [|done].
  injection H as <-. apply Hk.
  apply (setVisibility_open_awake _ _ _ _ E); [apply Ha|].
  revert Ha. apply awake_same; reflexivity.
Qed.

Lemma done_awake cb r :
  awake r -> awake (invoke cb (with_tasks Counter.decrement r)).
Proof. apply awake_same; by destruct cb. Qed.

Lemma _make_open_awake cb r r' :
  _make_open f None cb r = Some r' -> awake r -> awake r'.
Proof.
  intros H Ha. unfold _make_open in H.
  assert (Hc : awake (create (clear r)))
    by (revert Ha; apply awake_same; reflexivity).
  destruct (negb _); [|by injection H as <-].
  exact (attach_open_awake _ _ _ (done_awake cb) H Hc).
Qed.

Lemma build_open_awake uw r r' :
  build_open f uw r = Some r' -> awake r -> awake r'.
Proof.
  intros H Ha. unfold build_open in H.
  pose proof (awake_not_defers _ Ha) as Hd. unfold defers in Hd.
  rewrite Hd in H.
  destruct (prepare r) eqn:Hp; cbn [negb] in H.
  - injection H as <-. revert Ha.
    destruct (0 <? Queue.length (queue r)); apply awake_same; reflexivity.
  - unfold make_open in H.
    replace (prepare (with_tasks Counter.increment r)) with false in H
      by (symmetry; exact Hp).
    apply (_make_open_awake _ _ _ H).
    revert Ha. apply awake_same; reflexivity.
Qed.

End Awake.

Lemma build_awake (d : nat) uw r r' :
  build d uw r = Some r' -> awake r -> awake r'.
Proof.
  revert uw r r'. induction d as [|d IH]; intros uw r r' H Ha; [done|].
  exact (build_open_awake (build d) IH uw r r' H Ha).
Qed.

(** With a preparation step, a build that is not deferred only touches the
    task counter and the queue. *)
Lemma build_queues (d : nat) uw r :
  prepare r = true -> defers r = false ->
  exists r',
    build (S d) uw r = Some r'
    /\ queue r' = [uw]
    /\ Counter.count (tasks r')
       = (Counter.count (tasks r) + 1 - Z.of_nat (Queue.length (queue r)))%Z
    /\ prepare r' = true /\ defers r' = false
    /\ bufferList r' = bufferList r /\ calls r' = calls r
    /\ lazyProps r' = lazyProps r /\ disposed r' = disposed r.
Proof.
  intros Hp Hd. unfold defers in Hd. cbn [build]. unfold build_open.
  rewrite Hd, Hp. cbn [negb]. eexists. split; [reflexivity|].
  destruct (queue r) as [|job jobs] eqn:Hq; cbn; rewrite ?Hq.
  - repeat split; try done. lia.
  - repeat split; try done. lia.
Qed.

(** Without a preparation step the deferred build runs inside
    [setVisibility(true)]: the old buffer goes, [create] and [attach] run
    once, and the task counter is back to zero. *)
Example lazy_hidden_shown :
  (deferred ← build 1 None lazy_hidden;
   r' ← setVisibility 3 (VBool true) VUndef deferred;
   Some (calls r', Counter.count (tasks r'), lp_build (lazyProps r')))
  = Some ([ViewerRemove 7; BufferDispose 7; RequestRender; Create; Attach;
           RequestRender], 0%Z, false).
Proof. vm_compute. reflexivity. Qed.

(** *** Coalescing *)

Lemma builds_snoc (d : nat) uws uw r :
  builds d (uws ++ [uw]) r = (r' ← builds d uws r; build d uw r').
Proof.
  revert r. induction uws as [|uw' uws IH]; intros r.
  - change (builds d ([] ++ [uw]) r) with (r' ← build d uw r; Some r').
    change (r' ← builds d [] r; build d uw r') with (build d uw r).
    destruct (build d uw r); reflexivity.
  - change (builds d ((uw' :: uws) ++ [uw]) r)
      with (r' ← build d uw' r; builds d (uws ++ [uw]) r').
    change (builds d (uw' :: uws) r)
      with (r' ← build d uw' r; builds d uws r').
    destruct (build d uw' r) as [r1|]; [apply IH|reflexivity].
Qed.

(** After one build at least, exactly the last job is queued, and the
    counter was corrected by what the first call found in the queue. *)
Lemma builds_queue (d : nat) uws uw r :
  prepare r = true -> defers r = false ->
  exists r',
    builds (S d) (uws ++ [uw]) r = Some r'
    /\ queue r' = [uw]
    /\ Counter.count (tasks r')
       = (Counter.count (tasks r) + 1 - Z.of_nat (Queue.length (queue r)))%Z
    /\ prepare r' = true /\ defers r' = false
    /\ bufferList r' = bufferList r /\ calls r' = calls r.
Proof.
  intros Hp Hd. revert uw.
  induction uws as [|uw' uws IH] using rev_ind; intros uw.
  - cbn [app builds].
    destruct (build_queues d uw r Hp Hd)
      as (r' & -> & Hq & Hc & Hp' & Hd' & Hb & Hcalls & _).
    by exists r'.
  - destruct (IH uw') as (r1 & H1 & Hq1 & Hc1 & Hp1 & Hd1 & Hb1 & Hcalls1).
    rewrite builds_snoc, H1. cbn [mbind option_bind].
    destruct (build_queues d uw r1 Hp1 Hd1)
      as (r' & -> & Hq & Hc & Hp' & Hd' & Hb & Hcalls & _).
    exists r'. repeat split; try congruence.
    rewrite Hc, Hc1, Hq1. cbn. lia.
Qed.

(** C2: on an idle representation with a preparation step (empty queue,
    counter at zero, builds not deferred), [N >= 1] consecutive [build]
    calls leave exactly one job in the queue, the one of the last call, and
    a task counter of exactly 1. *)
Theorem builds_coalesce (d : nat) uws uw r :
  prepare r = true ->
  defers r = false ->
  queue r = [] ->
  Counter.count (tasks r) = 0%Z ->
  exists r',
    builds (S d) (uws ++ [uw]) r = Some r'
    /\ queue r' = [uw]
    /\ Queue.length (queue r') = 1
    /\ Counter.count (tasks r') = 1%Z.
Proof.
  intros Hp Hd Hq Hc.
  destruct (builds_queue d uws uw r Hp Hd) as (r' & H & Hq' & Hc' & _).
  exists r'. repeat split; try done.
  - by rewrite Hq'.
  - rewrite Hc', Hc, Hq. reflexivity.
Qed.

(** Three builds in a row on the idle representation of the scenarios. *)
Lemma builds_coalesce_three :
  exists r',
    builds 1 ([None; Some ∅] ++ [Some {["color" := VBool true]}]) prepared
    = Some r'
    /\ queue r' = [Some {["color" := VBool true]}]
    /\ Queue.length (queue r') = 1
    /\ Counter.count (tasks r') = 1%Z.
Proof.
  exact (builds_coalesce 0 [None; Some ∅] (Some {["color" := VBool true]})
           prepared eq_refl eq_refl eq_refl eq_refl).
Defined.

(** The correction at work: a second call finds one job, kills it and
    leaves the counter where it was. *)
Lemma build_replaces_queued_job (d : nat) uw job r :
  prepare r = true -> defers r = false -> queue r = [job] ->
  exists r',
    build (S d) uw r = Some r'
    /\ queue r' = [uw]
    /\ Counter.count (tasks r') = Counter.count (tasks r).
Proof.
  intros Hp Hd Hq.
  destruct (build_queues d uw r Hp Hd) as (r' & H & Hq' & Hc & _).
  exists r'. repeat split; try done. rewrite Hc, Hq. cbn. lia.
Qed.

(** *** Disposal *)

Lemma dispose_disposed r : disposed (dispose r) = true.
Proof. reflexivity. Qed.

Lemma occurrences_called c cs r :
  occurrences c (called cs r)
  = occurrences c r + List.length (filter (fun c' => c' = c) cs).
Proof. unfold occurrences. cbn [calls called]. by rewrite filter_app, length_app. Qed.

Lemma removals_no_attach (bs : list Buffer.Buffer) :
  filter (fun c' => c' = Attach)
    (flat_map (fun b => [ViewerRemove (Buffer.id b); BufferDispose (Buffer.id b)])
              bs) = [].
Proof.
  induction bs as [|b bs IH]; [done|]. cbn [flat_map app].
  rewrite !filter_cons. by repeat case_decide.
Qed.

(** [clear] and [create] do not attach. *)
Lemma occurrences_Attach_clear r :
  occurrences Attach (clear r) = occurrences Attach r.
Proof.
  unfold clear. rewrite occurrences_called.
  change (occurrences Attach (with_bufferList [] ?x))
    with (occurrences Attach x).
  rewrite occurrences_called, removals_no_attach.
  rewrite filter_cons. case_decide; [done|]. cbn. lia.
Qed.

Lemma occurrences_Attach_create r :
  occurrences Attach (create r) = occurrences Attach r.
Proof.
  unfold create. rewrite occurrences_called.
  rewrite filter_cons. case_decide; [done|]. cbn. lia.
Qed.

Lemma occurrences_Attach_called_other c r :
  c <> Attach -> occurrences Attach (called [c] r) = occurrences Attach r.
Proof.
  intros Hc. rewrite occurrences_called, filter_cons.
  case_decide; [done|]. cbn. lia.
Qed.

Lemma occurrences_Attach_invoke cb r :
  occurrences Attach (invoke cb r) = occurrences Attach r.
Proof.
  destruct cb; [|done]. by apply occurrences_Attach_called_other.
Qed.

(** A synchronous build on a disposed representation clears and creates
    and stops there. *)
Lemma build_disposed (d : nat) uw r :
  disposed r = true ->
  exists r',
    build (S d) uw r = Some r'
    /\ disposed r' = true
    /\ occurrences Attach r' = occurrences Attach r.
Proof.
  intros Hdis. cbn [build]. unfold build_open.
  destruct (_ && _); [by eexists|].
  destruct (prepare r) eqn:Hp; cbn [negb].
  - eexists. split; [reflexivity|].
    by destruct (0 <? Queue.length (queue r)).
  - unfold make_open.
    replace (prepare (with_tasks Counter.increment r)) with false
      by (symmetry; exact Hp).
    unfold _make_open.
    replace (disposed (create (clear (with_tasks Counter.increment r))))
      with true by (symmetry; exact Hdis).
    cbn [negb]. eexists. split; [reflexivity|]. split; [exact Hdis|].
    by rewrite occurrences_Attach_create, occurrences_Attach_clear.
Qed.

(** On a disposed representation a continuation never attaches. *)
Lemma build_disposed_continuation (d : nat) uw cb r :
  disposed r = true ->
  exists r',
    _make (S d) uw cb r = Some r'
    /\ disposed r' = true
    /\ occurrences Attach r' = occurrences Attach r.
Proof.
  intros Hdis. unfold _make, _make_open. destruct uw as [what|].
  - unfold update_open.
    destruct (build_disposed d (Some what) r Hdis) as (r1 & -> & Hdis1 & Hocc).
    cbn [mbind option_bind]. eexists. split; [reflexivity|].
    split; [by destruct cb|].
    rewrite <- Hocc, occurrences_Attach_invoke.
    change (occurrences Attach (with_tasks Counter.decrement ?x))
      with (occurrences Attach x).
    by apply occurrences_Attach_called_other.
  - replace (disposed (create (clear r))) with true by (symmetry; exact Hdis).
    cbn [negb]. eexists. split; [reflexivity|]. split; [exact Hdis|].
    by rewrite occurrences_Attach_create, occurrences_Attach_clear.
Qed.

(** C3: on a disposed representation, the continuation of a build,
    whatever [updateWhat] and callback it closes over, returns normally,
    never enters [attach], and leaves the representation disposed; when no
    [updateWhat] was given, construction still runs (clear, then create)
    and that is all. *)
Theorem make_after_dispose_skips_attach (d : nat) uw cb r :
  disposed r = true ->
  exists r',
    _make (S d) uw cb r = Some r'
    /\ disposed r' = true
    /\ occurrences Attach r' = occurrences Attach r
    /\ (uw = None -> r' = create (clear r)).
Proof.
  intros Hdis.
  destruct (build_disposed_continuation d uw cb r Hdis) as (r' & H & Hd & Hocc).
  exists r'. repeat split; try done.
  intros ->. unfold _make, _make_open in H.
  replace (disposed (create (clear r))) with true in H
    by (symmetry; exact Hdis).
  by injection H as <-.
Qed.

(** The continuation of a full build, run after [dispose()] on the idle
    representation of the scenarios. *)
Lemma make_after_dispose_prepared :
  exists r',
    _make 1 None true (dispose prepared) = Some r'
    /\ disposed r' = true
    /\ occurrences Attach r' = occurrences Attach (dispose prepared)
    /\ (@None (gmap string Value) = None ->
        r' = create (clear (dispose prepared))).
Proof.
  exact (make_after_dispose_skips_attach 0 None true (dispose prepared)
           (dispose_disposed prepared)).
Defined.

(** The same for the continuation the preparation step holds when
    [dispose()] runs. *)
Lemma resume_after_dispose (d : nat) r :
  exists r',
    resume (S d) (dispose r) = Some r'
    /\ disposed r' = true
    /\ occurrences Attach r' = occurrences Attach (dispose r).
Proof.
  unfold resume.
  change (pending (dispose r)) with (pending r).
  destruct (pending r) as [|[uw cb] rest]; [by eexists|].
  destruct (build_disposed_continuation d uw cb (with_pending rest (dispose r))
              eq_refl) as (r' & H & Hdis & Hocc).
  by exists r'.
Qed.

(** The race of the specification: a build is handed to the preparation
    step, [dispose()] runs, then the preparation step resumes. *)
Example dispose_during_build :
  (r1 ← build 1 None (with_queue (fun _ => []) prepared);
   r2 ← make 1 None true (with_queue Queue.kill r1);
   r3 ← resume 1 (dispose r2);
   Some (pending r2, calls r3, bufferList r3))
  = Some ([(None, true)],
          [Prepare; ViewerRemove 7; BufferDispose 7; RequestRender;
           RequestRender; Create], []).
Proof. vm_compute. reflexivity. Qed.

(** Without disposal the same continuation does attach. *)
Example attach_without_dispose :
  (r2 ← make 1 None true prepared;
   r3 ← resume 1 r2;
   Some (calls r3))
  = Some [Prepare; ViewerRemove 7; BufferDispose 7; RequestRender; Create;
          Attach; RequestRender; Callback].
Proof. vm_compute. reflexivity. Qed.

(** *** Colour normalization *)

Lemma get_put_same (p : Params) (k : string) (v : Value) :
  get (put p k v) k = v.
Proof.
  induction p as [|[k' w] p IH]; cbn.
  - by rewrite String.eqb_refl.
  - destruct (String.eqb k' k) eqn:E; cbn; by rewrite E.
Qed.

Lemma get_put_other (p : Params) (k k' : string) (v : Value) :
  k <> k' -> get (put p k v) k' = get p k'.
Proof.
  intros Hk. apply String.eqb_neq in Hk.
  induction p as [|[k0 w] p IH]; cbn.
  - by rewrite Hk.
  - destruct (String.eqb k0 k) eqn:E; cbn.
    + apply String.eqb_eq in E as ->. by rewrite Hk.
    + by rewrite IH.
Qed.

(** C5: with a target, [setColor] leaves the representation alone and
    updates the target: a value that names a registered scheme becomes its
    [colorScheme] and [colorValue] keeps what it held; any other defined
    value makes [colorScheme] ['uniform'] and [colorValue] the hex number
    the value resolves to; [undefined] leaves the target as it was. *)
Theorem setColor_normalizes (host : Host) (d : nat) (value : Value)
    (p : Params) (r : Representation) :
  exists p',
    setColor host d value (Some p) r = Some (r, Some p')
    /\ (names_scheme host value = true ->
        p' = put p "colorScheme" value
        /\ get p' "colorScheme" = value
        /\ get p' "colorValue" = get p "colorValue")
    /\ (names_scheme host value = false -> is_undefined value = false ->
        get p' "colorScheme" = VStr "uniform"
        /\ get p' "colorValue" = VNum (Color_getHex host (heap r) value))
    /\ (value = VUndef -> p' = p).
Proof.
  eexists. split; [reflexivity|].
  assert (Hliteral :
            let p' := put (put p "colorScheme" (VStr "uniform")) "colorValue"
                          (VNum (Color_getHex host (heap r) value)) in
            get p' "colorScheme" = VStr "uniform"
            /\ get p' "colorValue" = VNum (Color_getHex host (heap r) value)).
  { cbn zeta. rewrite get_put_other by done. by rewrite !get_put_same. }
  unfold names_scheme, setColor_target.
  destruct value as [|b|x|str|l|l]; cbn [is_undefined].
  - split; [done|]. split; [done|]. done.
  - split; [done|]. split; [intros _ _; apply Hliteral|done].
  - split; [done|]. split; [intros _ _; apply Hliteral|done].
  - destruct (existsb _ _).
    + split; [|split; done]. intros _. split; [done|].
      split; [apply get_put_same|by apply get_put_other].
    + split; [done|]. split; [intros _ _; apply Hliteral|done].
  - split; [done|]. split; [intros _ _; apply Hliteral|done].
  - split; [done|]. split; [intros _ _; apply Hliteral|done].
Qed.

(** The two scenarios of the specification. *)
Example setColor_red :
  setColor scenario_host 0 (VStr "red") (Some [("colorValue", VNum 5)]) blank
  = Some (blank, Some [("colorValue", VNum 16711680);
                       ("colorScheme", VStr "uniform")]).
Proof. vm_compute. reflexivity. Qed.

Example setColor_uniform :
  setColor scenario_host 0 (VStr "Uniform") (Some [("colorValue", VNum 5)]) blank
  = Some (blank, Some [("colorValue", VNum 5);
                       ("colorScheme", VStr "Uniform")]).
Proof. vm_compute. reflexivity. Qed.

(** *** The loop of [setParameters] *)

Section Loop.
Variable host : Host.

Lemma get_coerced (p : Params) (name : string) (m : Meta.Meta) :
  let p1 := if Meta.int m
            then put p name (VNum (parseInt host (get p name))) else p in
  let p2 := if Meta.float m
            then put p1 name (VNum (parseFloat host (get p1 name))) else p1 in
  get p2 name = coerced host m (get p name).
Proof.
  unfold coerced. destruct (Meta.int m), (Meta.float m); cbn zeta;
    by rewrite ?get_put_same.
Qed.

(** One turn of the loop on a recognized name with a defined value that
    the test takes for a change: the value is committed, staged, marked
    and may escalate. *)
Lemma loop_body_changed (st : Loop) (name : string) :
  let r := l_this st in
  let m := meta_of (parameters r !! name) in
  let v := coerced host m (get (l_p st) name) in
  is_undefined (get (l_p st) name) = false ->
  tp_undefined (parameters r !! name) = false ->
  changed host (heap r) v (this_prop r name) = true ->
  let st' := loop_body host st name in
  l_this st' = commit host name v r
  /\ l_bufferParams st' = staged m name v (l_bufferParams st)
  /\ l_what st' = marked m (l_what st)
  /\ l_rebuild st'
     = l_rebuild st
       || escalates host m (this_prop (commit host name v r) "disableImpostor").
Proof.
  intros r m v Hdef Htp Hch. unfold loop_body. fold r. rewrite Hdef, Htp.
  fold m. rewrite (get_coerced (l_p st) name m). fold v.
  unfold changed in Hch. apply negb_true_iff in Hch. rewrite Hch.
  cbn [l_this l_bufferParams l_what l_rebuild].
  repeat split.
  unfold escalates. destruct (Meta.rebuild m); cbn.
  - by rewrite orb_false_r.
  - by rewrite orb_true_r.
  - destruct (ExtensionFragDepth host && _); cbn;
      by rewrite ?orb_false_r, ?orb_true_r.
Qed.

(** One turn on a value the test takes for unchanged: nothing is
    committed, staged, marked or escalated. *)
Lemma loop_body_unchanged (st : Loop) (name : string) :
  let r := l_this st in
  let m := meta_of (parameters r !! name) in
  changed host (heap r) (coerced host m (get (l_p st) name)) (this_prop r name)
  = false ->
  let st' := loop_body host st name in
  l_this st' = l_this st
  /\ l_bufferParams st' = l_bufferParams st
  /\ l_what st' = l_what st
  /\ l_rebuild st' = l_rebuild st.
Proof.
  intros r m Hch. unfold loop_body. fold r.
  destruct (is_undefined _); [done|].
  destruct (tp_undefined _); [done|].
  fold m. rewrite (get_coerced (l_p st) name m).
  unfold changed in Hch. apply negb_false_iff in Hch. by rewrite Hch.
Qed.

(** A primitive value is unchanged exactly when it is [===] the current
    one. *)
Lemma changed_primitive (h : gmap nat Obj) (v cur : Value) :
  has_equals v = false -> changed host h v cur = negb (strict_eq v cur).
Proof. unfold changed. intros ->. cbn. by rewrite andb_true_r. Qed.

(** A value object held under another reference is a change, whatever
    [equals] would say. *)
Lemma changed_other_reference (h : gmap nat Obj) (l l' : nat) :
  l <> l' -> changed host h (VObj l) (VObj l') = true.
Proof.
  intros Hl. unfold changed. cbn [strict_eq].
  apply Nat.eqb_neq in Hl. by rewrite Hl.
Qed.

(** The flag only goes up. *)
Lemma loop_body_rebuild_stays (st : Loop) (name : string) :
  l_rebuild st = true -> l_rebuild (loop_body host st name) = true.
Proof.
  intros Hr. unfold loop_body.
  repeat (case_match; cbn [l_rebuild]; try done).
Qed.

Lemma foldl_rebuild_stays (names : list string) (st : Loop) :
  l_rebuild st = true -> l_rebuild (foldl (loop_body host) st names) = true.
Proof.
  revert st. induction names as [|n names IH]; intros st Hr; [done|].
  cbn [foldl]. by apply IH, loop_body_rebuild_stays.
Qed.

(** With a single parameter, [setColor] leaves it first in the enumeration
    and does not touch its value. *)
Lemma setColor_target_single (h : gmap nat Obj) (name : string) (v : Value) :
  exists rest,
    map fst (setColor_target host h (get [(name, v)] "color") [(name, v)])
    = name :: rest
    /\ get (setColor_target host h (get [(name, v)] "color") [(name, v)]) name
       = v.
Proof.
  cbn [get]. destruct (String.eqb name "color") eqn:E.
  - apply String.eqb_eq in E as ->. unfold setColor_target.
    destruct v; try destruct (existsb _ _); cbn;
      eexists; split; reflexivity.
  - unfold setColor_target. cbn. rewrite String.eqb_refl. eauto.
Qed.

End Loop.

(** *** The trace only grows *)

Lemma grows_refl r : grows r r.
Proof. exists []. by rewrite app_nil_r. Qed.

Lemma grows_trans r1 r2 r3 : grows r1 r2 -> grows r2 r3 -> grows r1 r3.
Proof.
  intros [a Ha] [b Hb]. exists (a ++ b). by rewrite Hb, Ha, app_assoc.
Qed.

Lemma grows_same r r' : calls r' = calls r -> grows r r'.
Proof. intros H. exists []. by rewrite app_nil_r. Qed.

Lemma grows_called cs r : grows r (called cs r).
Proof. by exists cs. Qed.

Lemma grows_propagate v nrr r : grows r (propagate v nrr r).
Proof.
  unfold propagate. destruct (truthy nrr); [by apply grows_same|].
  by exists [RequestRender].
Qed.

Lemma grows_invoke cb r : grows r (invoke cb (with_tasks Counter.decrement r)).
Proof. destruct cb; [by exists [Callback]|by apply grows_same]. Qed.

Section Grows.
Variable f :
  option (gmap string Value) -> Representation -> option Representation.
Hypothesis Hf : forall uw r r', f uw r = Some r' -> grows r r'.

Lemma updateParameters_open_grows bp what r r' :
  updateParameters_open f bp what r = Some r' -> grows r r'.
Proof.
  unfold updateParameters_open, update_open. intros H.
  destruct (_ && _ && _); [injection H as <-; by apply grows_same|].
  destruct (nonempty what).
  - destruct (f _ _) as [r2|] eqn:E; [|done]. injection H as <-.
    apply Hf in E. eapply grows_trans; [|apply grows_called].
    eapply grows_trans; [|exact E]. by apply grows_same.
  - injection H as <-. by exists [RequestRender].
Qed.

Lemma setVisibility_open_grows v nrr r r' :
  setVisibility_open f v nrr r = Some r' -> grows r r'.
Proof.
  unfold setVisibility_open. intros H.
  destruct (_ && _);
    [|injection H as <-; eapply grows_trans; [|apply grows_propagate];
      by apply grows_same].
  destruct (lp_build _).
  { apply Hf in H. eapply grows_trans; [|exact H]. by apply grows_same. }
  destruct (_ || _);
    [|injection H as <-; eapply grows_trans; [|apply grows_propagate];
      by apply grows_same].
  destruct (updateParameters_open f _ _ _) as [r1|] eqn:E; [|done].
  injection H as <-. apply updateParameters_open_grows in E.
  eapply grows_trans; [|apply grows_propagate].
  eapply grows_trans; [|exact E]. by apply grows_same.
Qed.

Lemma attach_open_grows cb r r' :
  attach_open f (fun x => invoke cb (with_tasks Counter.decrement x)) r = Some r' ->
  grows (called [Attach] r) r'.
Proof.
  unfold attach_open. intros H.
  destruct (setVisibility_open f _ _ _) as [r1|] eqn:E; [|done].
  injection H as <-. apply setVisibility_open_grows in E.
  eapply grows_trans; [exact E|apply grows_invoke].
Qed.

(** A full [_make] clears, creates and, unless disposed, attaches. *)
Lemma _make_open_rebuilds cb r r' :
  _make_open f None cb r = Some r' ->
  exists rest,
    calls r' = calls r ++ removals (bufferList r) ++ [RequestRender; Create]
                 ++ rest.
Proof.
  unfold _make_open. intros H.
  destruct (negb _).
  - apply attach_open_grows in H as [rest Hrest]. exists ([Attach] ++ rest).
    rewrite Hrest. unfold removals. cbn. by rewrite <- !app_assoc.
  - injection H as <-. exists []. unfold removals. cbn.
    by rewrite <- !app_assoc.
Qed.

Lemma build_open_grows uw r r' :
  build_open f uw r = Some r' -> grows r r'.
Proof.
  unfold build_open. intros H.
  destruct (_ && _); [injection H as <-; by apply grows_same|].
  destruct (prepare r) eqn:Hp; cbn [negb] in H.
  - injection H as <-. apply grows_same.
    by destruct (0 <? Queue.length (queue r)).
  - unfold make_open in H.
    replace (prepare (with_tasks Counter.increment r)) with false in H
      by (symmetry; exact Hp).
    apply _make_open_rebuilds in H as [rest Hrest].
    eexists. exact Hrest.
Qed.

(** A build that is neither deferred nor queued is a full rebuild: every
    owned buffer is removed from the viewer and disposed, then [create]
    runs. *)
Lemma build_open_rebuilds uw r r' :
  prepare r = false -> defers r = false ->
  build_open f uw r = Some r' ->
  exists rest,
    calls r' = calls r ++ removals (bufferList r) ++ [RequestRender; Create]
                 ++ rest.
Proof.
  intros Hp Hd H. unfold build_open in H. unfold defers in Hd.
  rewrite Hd, Hp in H. cbn [negb] in H. unfold make_open in H.
  replace (prepare (with_tasks Counter.increment r)) with false in H
    by (symmetry; exact Hp).
  by apply _make_open_rebuilds in H.
Qed.

End Grows.

Lemma build_grows (d : nat) uw r r' : build d uw r = Some r' -> grows r r'.
Proof.
  revert uw r r'. induction d as [|d IH]; intros uw r r' H; [done|].
  exact (build_open_grows (build d) IH uw r r' H).
Qed.

Lemma build_rebuilds (d : nat) uw r :
  prepare r = false -> defers r = false ->
  exists r' rest,
    build (3 + d) uw r = Some r'
    /\ calls r' = calls r ++ removals (bufferList r) ++ [RequestRender; Create]
                    ++ rest.
Proof.
  intros Hp Hd. destruct (build_returns d uw r) as [r' H]. exists r'.
  destruct (build_open_rebuilds (build (2 + d)) (build_grows (2 + d)) uw r r'
              Hp Hd H) as [rest Hrest].
  by exists rest.
Qed.

(** *** Rebuild or update *)

Section Escalation.
Variable host : Host.

(** The special case on opacity and [setColor] touch neither the
    properties, the parameters, the heap, the buffers nor the trace. *)
Lemma loop_entry_frame (p : Params) what rb r :
  let st := loop_entry host p what rb r in
  l_p st = setColor_target host (heap r) (get p "color") p
  /\ parameters (l_this st) = parameters r
  /\ self (l_this st) = self r
  /\ heap (l_this st) = heap r
  /\ bufferList (l_this st) = bufferList r
  /\ calls (l_this st) = calls r.
Proof.
  unfold loop_entry. destruct (_ && _); [destruct (lp_build _)|]; by cbn.
Qed.

Lemma commit_frame (name : string) (v : Value) r :
  parameters (commit host name v r) = parameters r
  /\ bufferList (commit host name v r) = bufferList r
  /\ calls (commit host name v r) = calls r.
Proof. unfold commit. by repeat case_match. Qed.

Lemma loop_body_frame (st : Loop) (name : string) :
  bufferList (l_this (loop_body host st name)) = bufferList (l_this st)
  /\ calls (l_this (loop_body host st name)) = calls (l_this st).
Proof.
  unfold loop_body.
  destruct (is_undefined _); [done|]. destruct (tp_undefined _); [done|].
  destruct (_ && _); [done|]. cbn [l_this].
  match goal with
  | |- context [commit host ?n ?v ?r] =>
      by destruct (commit_frame n v r) as (_ & ? & ?)
  end.
Qed.

Lemma foldl_frame (names : list string) (st : Loop) :
  bufferList (l_this (foldl (loop_body host) st names)) = bufferList (l_this st)
  /\ calls (l_this (foldl (loop_body host) st names)) = calls (l_this st).
Proof.
  revert st. induction names as [|n names IH]; intros st; [done|].
  cbn [foldl]. destruct (IH (loop_body host st n)) as [-> ->].
  apply loop_body_frame.
Qed.

(** A changed parameter marked [rebuild: true] sends [setParameters] to
    [build()], whatever else the call carries. *)
Lemma setParameters_rebuild_true (d : nat) (name : string) (v : Value)
    what rb r :
  let m := meta_of (parameters r !! name) in
  tp_undefined (parameters r !! name) = false ->
  is_undefined v = false ->
  changed host (heap r) (coerced host m v) (this_prop r name) = true ->
  Meta.rebuild m = RebuildTrue ->
  exists r1,
    setParameters host d [(name, v)] what rb r = build d None r1
    /\ bufferList r1 = bufferList r /\ calls r1 = calls r.
Proof.
  intros m Htp Hdef Hch Hm.
  unfold setParameters, setParameters_open, loop.
  destruct (loop_entry_frame [(name, v)] what rb r)
    as (Hp & Hpar & Hself & Hheap & Hbufs & Hcalls).
  set (st0 := loop_entry host [(name, v)] what rb r) in *.
  destruct (setColor_target_single host (heap r) name v) as (rest & Hkeys & Hget).
  rewrite Hp, Hkeys. cbn [foldl].
  destruct (loop_body_changed host st0 name) as (_ & _ & _ & Hrb).
  { by rewrite Hp, Hget. }
  { by rewrite Hpar. }
  { unfold this_prop. rewrite Hp, Hget, Hpar, Hheap, Hself. exact Hch. }
  rewrite Hpar in Hrb. fold m in Hrb. unfold escalates in Hrb.
  rewrite Hm, orb_true_r in Hrb.
  rewrite (foldl_rebuild_stays host rest _ Hrb).
  eexists. split; [reflexivity|].
  destruct (foldl_frame rest (loop_body host st0 name)) as [-> ->].
  destruct (loop_body_frame st0 name) as [-> ->]. by rewrite Hbufs, Hcalls.
Qed.

(** The whole of [setParameters({name: v})] for one recognized, changed
    parameter other than [color] and [opacity]. *)
Lemma setParameters_single (d : nat) (name : string) (v : Value) what r :
  let m := meta_of (parameters r !! name) in
  let v' := coerced host m v in
  let r' := commit host name v' r in
  tp_undefined (parameters r !! name) = false ->
  is_undefined v = false ->
  changed host (heap r) v' (this_prop r name) = true ->
  name <> "color" -> name <> "opacity" ->
  setParameters host d [(name, v)] what false r
  = if escalates host m (this_prop r' "disableImpostor")
    then build d None r'
    else updateParameters d (staged m name v' ∅) (marked m what) r'.
Proof.
  intros m v' r' Htp Hdef Hch Hcolor Hopacity.
  apply String.eqb_neq in Hcolor, Hopacity.
  unfold setParameters, setParameters_open, loop, loop_entry.
  cbn [get]. rewrite Hcolor, Hopacity. cbn [is_undefined negb].
  rewrite andb_false_r. cbn [l_p l_this l_bufferParams l_what l_rebuild
                               setColor_target map fst foldl].
  destruct (loop_body_changed host (mkLoop [(name, v)] r ∅ what false) name)
    as (Hthis & Hbp & Hwhat & Hrb).
  { cbn. by rewrite String.eqb_refl. }
  { exact Htp. }
  { cbn [l_p l_this get]. rewrite String.eqb_refl. exact Hch. }
  cbn [l_p l_this l_bufferParams l_what l_rebuild get] in Hthis, Hbp, Hwhat, Hrb.
  rewrite String.eqb_refl in Hthis, Hbp, Hrb.
  rewrite Hthis, Hbp, Hwhat, Hrb. reflexivity.
Qed.

End Escalation.

(** With impostor rendering available and enabled, a new [sphereDetail]
    does not escalate, and it does once the extension is missing: the
    reading of the specification fails both ways. *)
Lemma impostor_rule_counterexample :
  ~ suppressed_when_unavailable scenario_host with_sphereDetail
      "sphereDetail" (VNum 2).
Proof.
  intros [Hsuppressed _].
  assert (E : l_rebuild (loop scenario_host
                           (loop_entry scenario_host [("sphereDetail", VNum 2)]
                                       ∅ false with_sphereDetail)) = false)
    by (vm_compute; reflexivity).
  destruct (Hsuppressed E) as [H|H]; vm_compute in H; discriminate H.
Qed.

Example impostor_unavailable_escalates :
  l_rebuild (loop scenario_host_no_impostor
               (loop_entry scenario_host_no_impostor [("sphereDetail", VNum 2)]
                           ∅ false with_sphereDetail)) = true.
Proof. vm_compute. reflexivity. Qed.

(** The metadata [init] installs: [sphereDetail], [radialSegments] and
    [openEnded] carry the ['impostor'] marker, [disableImpostor] carries
    [rebuild: true]. *)
Example init_declares_metadata :
  let r := init scenario_host []
             (with_parameters
                (fun _ => <["sphereDetail" := PValue (VBool true)]>
                            (<["disableImpostor" := PValue (VBool true)]> ∅))
                blank) in
  (parameters r !! "sphereDetail", parameters r !! "disableImpostor",
   this_prop r "sphereDetail", this_prop r "disableImpostor")
  = (Some (PMeta sphereDetail_meta), Some (PMeta disableImpostor_meta),
     VNum 1, VBool false).
Proof. vm_compute. reflexivity. Qed.

(** *** Visibility *)

(** C6, as amended: a [setVisibility(value, noRenderRequest)] that does
    not trigger a deferred build returns, and when it does every buffer of
    the owned list has the value and, unless [noRenderRequest] is set, the
    last call of the trace is the render request, also on the path that
    flushes deferred parameter updates.  When a build was deferred and the
    representation becomes visible with a nonzero opacity, the call resets
    the flag, runs [build()] and returns what it returns, without
    propagating or requesting anything itself. *)
Theorem setVisibility_propagates (d : nat) (value nrr : Value) r :
  (truthy value && tp_truthy r "opacity" && lp_build (lazyProps r) = false ->
   (exists r', setVisibility (2 + d) value nrr r = Some r')
   /\ forall d' r',
        setVisibility d' value nrr r = Some r' ->
        Forall (fun b => Buffer.visible b = value) (bufferList r')
        /\ (truthy nrr = false -> exists cs, calls r' = cs ++ [RequestRender]))
  /\ (truthy value && tp_truthy r "opacity" && lp_build (lazyProps r) = true ->
      setVisibility d value nrr r
      = build d None
          (with_lazyProps
             (mkLazyProps false (lp_bufferParams (lazyProps r))
                          (lp_what (lazyProps r)))
             (with_self (insert "visible" value) r))).
Proof.
  assert (Hv : truthy (this_prop (with_self (insert "visible" value) r) "visible")
               = truthy value).
  { unfold this_prop, prop. cbn. by rewrite lookup_insert_eq. }
  assert (Hfinish : forall r0,
             Forall (fun b => Buffer.visible b = value)
                    (bufferList (propagate value nrr r0))
             /\ (truthy nrr = false ->
                 exists cs, calls (propagate value nrr r0) = cs ++ [RequestRender])).
  { intros r0. unfold propagate. split.
    - assert (Hall : Forall (fun b => Buffer.visible b = value)
                            (map (Buffer.setVisibility value) (bufferList r0))).
      { apply Forall_forall. intros b Hb. apply list_elem_of_fmap in Hb.
        by destruct Hb as (b0 & -> & _). }
      by destruct (truthy nrr).
    - intros ->. by eexists. }
  split.
  - intros Hcond. split; [apply setVisibility_returns|].
    intros d' r' H. unfold setVisibility, setVisibility_open in H.
    rewrite Hv in H. change (tp_truthy (with_self _ r) "opacity")
      with (tp_truthy r "opacity") in H.
    cbn [lazyProps with_self] in H.
    destruct (truthy value && tp_truthy r "opacity");
      [|injection H as <-; apply Hfinish].
    cbn [andb] in Hcond. rewrite Hcond in H.
    destruct (_ || _); [|injection H as <-; apply Hfinish].
    destruct (updateParameters_open _ _ _ _) as [r1|]; [|done].
    injection H as <-. apply Hfinish.
  - intros Hcond. apply andb_true_iff in Hcond as [Hcond Hb].
    unfold setVisibility, setVisibility_open.
    rewrite Hv. change (tp_truthy (with_self _ r) "opacity")
      with (tp_truthy r "opacity").
    cbn [lazyProps with_self]. by rewrite Hcond, Hb.
Qed.

(** A build was deferred on a hidden representation with a preparation
    step: [setVisibility(true)] queues the build and returns; the buffer it
    owns is still hidden and no render was requested. *)
Lemma setVisibility_deferred_build_counterexample :
  ~ always_propagates 3 (VBool true) VUndef hidden_with_deferred_build.
Proof.
  intros H. edestruct H as [Hall _]; [vm_compute; reflexivity|].
  cbv in Hall. inversion Hall as [|b bs Hvisible _]. discriminate Hvisible.
Qed.

Example setVisibility_deferred_build_trace :
  (r' ← setVisibility 3 (VBool true) (VBool false) hidden_with_deferred_build;
   Some (map Buffer.visible (bufferList r'), calls r', queue r'))
  = Some ([VBool false], [], [None]).
Proof. vm_compute. reflexivity. Qed.

(** The path that flushes deferred parameter updates does propagate. *)
Example setVisibility_flushes_then_propagates :
  (r' ← setVisibility 3 (VBool true) VUndef
          (with_lazyProps (mkLazyProps false {["opacity" := VNum 1]} ∅)
                          lazy_hidden);
   Some (map Buffer.visible (bufferList r'), calls r'))
  = Some ([VBool true], [RequestRender; RequestRender]).
Proof. vm_compute. reflexivity. Qed.

(** *** Unchanged values *)

(** C7, as the code has it: [clipCenter] holds the vector at address 1 and
    the call passes the vector at address 2, equal to it by [equals].  The
    test for no value change asks for [===] first, so the value counts as
    changed: it is committed again, staged for the buffers, the attribute
    is marked and the rebuild is escalated. *)
Theorem equal_vector_is_not_skipped :
  let st := loop_body scenario_host
              (mkLoop [("clipCenter", VObj 2)] with_clipCenter ∅ ∅ false)
              "clipCenter" in
  equals_method scenario_host (heap with_clipCenter) (VObj 2) (VObj 1) = true
  /\ changed scenario_host (heap with_clipCenter) (VObj 2) (VObj 1) = true
  /\ l_this st = commit scenario_host "clipCenter" (VObj 2) with_clipCenter
  /\ l_bufferParams st !! "clipCenter" = Some (VObj 2)
  /\ l_what st !! "position" = Some (VBool true)
  /\ l_rebuild st = true.
Proof. vm_compute. repeat split; reflexivity. Qed.

(** The state is reached by a first [setParameters({clipCenter: a})] on a
    representation that has no [clipCenter] yet; the second call, with an
    equal vector, stages and escalates again. *)
Example equal_vector_after_first_set :
  let fresh := with_self (delete "clipCenter") with_clipCenter in
  let st1 := loop scenario_host
               (loop_entry scenario_host [("clipCenter", VObj 1)] ∅ false fresh) in
  let st2 := loop scenario_host
               (loop_entry scenario_host [("clipCenter", VObj 2)] ∅ false
                           (l_this st1)) in
  (this_prop (l_this st1) "clipCenter", l_bufferParams st2 !! "clipCenter",
   l_rebuild st2)
  = (VObj 1, Some (VObj 2), true).
Proof. vm_compute. reflexivity. Qed.

(** The whole call then rebuilds the representation. *)
Example equal_vector_rebuilds :
  (r' ← setParameters scenario_host 3 [("clipCenter", VObj 2)] ∅ false
          with_clipCenter;
   Some (calls r'))
  = Some [ViewerRemove 7; BufferDispose 7; RequestRender; Create; Attach;
          RequestRender].
Proof. vm_compute. reflexivity. Qed.

(** What the test does get right: a primitive value that is [===] the
    current one, and a value object passed under the reference it is held
    by, are skipped. *)
Lemma unchanged_value_is_skipped (host : Host) (st : Loop) (name : string) :
  let r := l_this st in
  let v := coerced host (meta_of (parameters r !! name)) (get (l_p st) name) in
  strict_eq v (this_prop r name) = true ->
  (has_equals v = true ->
   equals_method host (heap r) v (this_prop r name) = true) ->
  let st' := loop_body host st name in
  l_this st' = l_this st
  /\ l_bufferParams st' = l_bufferParams st
  /\ l_what st' = l_what st
  /\ l_rebuild st' = l_rebuild st.
Proof.
  intros r v Heq Hequals. apply loop_body_unchanged. fold r v.
  unfold changed. rewrite Heq. destruct (has_equals v); cbn; [|done].
  by rewrite Hequals.
Qed.

End RepresentationSpec.


(** ** Grid: addressing and cell access *)

Module GridAccess.
Import Grid.

Lemma index_range (g : Grid) (x y z : nat) :
  in_bounds g x y z ->
  index g x y z + elemSize g <= length g * width g * height g * elemSize g.
Proof.
  intros (Hx & Hy & Hz). unfold index.
  assert (H1 : x * width g + y + 1 <= length g * width g) by nia.
  assert (H2 : (x * width g + y) * height g + z + 1
               <= length g * width g * height g) by nia.
  nia.
Qed.

Lemma row_unique (h a z a' z' : nat) :
  z < h -> z' < h -> a * h + z = a' * h + z' -> a = a' /\ z = z'.
Proof.
  intros Hz Hz' H.
  destruct (Nat.lt_trichotomy a a') as [Hlt | [-> | Hgt]].
  - assert (a * h + h <= a' * h) by nia. lia.
  - split; [done|lia].
  - assert (a' * h + h <= a * h) by nia. lia.
Qed.

Lemma index_cells_apart (g : Grid) (x y z x' y' z' : nat) :
  in_bounds g x y z -> in_bounds g x' y' z' ->
  (x, y, z) <> (x', y', z') ->
  index g x y z + elemSize g <= index g x' y' z'
  \/ index g x' y' z' + elemSize g <= index g x y z.
Proof.
  intros (Hx & Hy & Hz) (Hx' & Hy' & Hz') Hne. unfold index.
  set (a := (x * width g + y) * height g + z).
  set (a' := (x' * width g + y') * height g + z').
  assert (Ha : a <> a').
  { intros E. apply row_unique in E as [E ->]; [|done..].
    apply row_unique in E as [-> ->]; [|done..]. by apply Hne. }
  destruct (Nat.lt_ge_cases a a'); [left|right]; nia.
Qed.

(** *** The write loop of [set] *)

Lemma length_set_from c d i j n args :
  List.length (set_from c d i j n args) = List.length d.
Proof.
  revert d j. induction n as [|n IH]; intros d j; [done|].
  cbn [set_from]. by rewrite IH, length_insert.
Qed.

Lemma set_from_outside c d i j n args (m : nat) :
  m < i + j \/ i + j + n <= m ->
  set_from c d i j n args !! m = d !! m.
Proof.
  revert d j. induction n as [|n IH]; intros d j Hm; [done|].
  cbn [set_from]. rewrite IH by lia.
  apply list_lookup_insert_ne. lia.
Qed.

Lemma set_from_inside c d i j n args (k : nat) :
  i + j + n <= List.length d -> j <= k < j + n ->
  set_from c d i j n args !! (i + k) = Some (store c (nth k args 0%Z)).
Proof.
  revert d j. induction n as [|n IH]; intros d j Hlen Hk; [lia|].
  cbn [set_from]. destruct (decide (k = j)) as [->|Hne].
  - rewrite set_from_outside by lia.
    apply list_lookup_insert_eq. lia.
  - apply IH; [rewrite length_insert|]; lia.
Qed.

Lemma set_from_beyond c d i j n args :
  List.length d <= i -> set_from c d i j n args = d.
Proof.
  revert d j. induction n as [|n IH]; intros d j Hlen; [done|].
  cbn [set_from]. rewrite list_insert_ge by lia. by apply IH.
Qed.

(** *** The read loop of [toArray] *)

Lemma toArray_from_append d (a : JsArray) i offset j n :
  List.length a = offset + j ->
  toArray_from d a i offset j n
  = a ++ map (fun k => d !! (i + j + k)) (seq 0 n).
Proof.
  revert a j. induction n as [|n IH]; intros a j Hlen.
  - cbn. by rewrite app_nil_r.
  - cbn [toArray_from]. unfold array_write.
    rewrite <- Hlen, Nat.ltb_irrefl, Nat.sub_diag. cbn [replicate app].
    rewrite IH by (rewrite length_app; cbn; lia).
    rewrite <- app_assoc. cbn [app seq map]. rewrite Nat.add_0_r.
    do 2 f_equal. rewrite <- seq_shift, map_map.
    apply map_ext. intros k. f_equal. lia.
Qed.

Lemma toArray_from_ext d d' (a : JsArray) i offset j n :
  (forall k, k < n -> d !! (i + j + k) = d' !! (i + j + k)) ->
  toArray_from d a i offset j n = toArray_from d' a i offset j n.
Proof.
  revert a j. induction n as [|n IH]; intros a j H; [done|].
  cbn [toArray_from]. specialize (H 0 ltac:(lia)) as H0.
  rewrite Nat.add_0_r in H0. rewrite H0. apply IH.
  intros k Hk. specialize (H (S k) ltac:(lia)).
  by replace (i + S j + k) with (i + j + S k) by lia.
Qed.

Lemma fromArray_from_is_set_from c d (args : list Z) i j n :
  fromArray_from c d (map Some args) i 0 j n = set_from c d i j n args.
Proof.
  revert d j. induction n as [|n IH]; intros d j; [done|].
  cbn [fromArray_from set_from]. rewrite <- IH. do 2 f_equal.
  cbn [Nat.add]. unfold JsArray. change (map Some args) with (Some <$> args).
  rewrite list_lookup_fmap, nth_lookup.
  by destruct (args !! j).
Qed.

(** *** Addressing *)

(** Every in-bounds cell lies inside the backing array of a well-formed
    grid. *)
Theorem cell_inside_backing_array (g : Grid) (x y z : nat) :
  wf g -> in_bounds g x y z ->
  index g x y z + elemSize g <= List.length (data g).
Proof. intros [-> _] Hb. by apply index_range. Qed.

Lemma cell_inside_backing_array_2_3_4 :
  index (new 2 3 4 Int32Array 2) 1 2 3 + elemSize (new 2 3 4 Int32Array 2)
  <= List.length (data (new 2 3 4 Int32Array 2)).
Proof.
  apply (cell_inside_backing_array (new 2 3 4 Int32Array 2) 1 2 3).
  - apply GridSpec.new_wf.
  - unfold in_bounds. cbn. lia.
Defined.

(** Two different in-bounds cells occupy disjoint ranges of the backing
    array. *)
Theorem cells_do_not_overlap (g : Grid) (x y z x' y' z' : nat) :
  in_bounds g x y z -> in_bounds g x' y' z' ->
  (x, y, z) <> (x', y', z') ->
  index g x y z + elemSize g <= index g x' y' z'
  \/ index g x' y' z' + elemSize g <= index g x y z.
Proof. apply index_cells_apart. Qed.

Lemma cells_do_not_overlap_2_3_4 :
  index (new 2 3 4 Int32Array 2) 0 2 3 + elemSize (new 2 3 4 Int32Array 2)
  <= index (new 2 3 4 Int32Array 2) 1 0 0
  \/ index (new 2 3 4 Int32Array 2) 1 0 0 + elemSize (new 2 3 4 Int32Array 2)
     <= index (new 2 3 4 Int32Array 2) 0 2 3.
Proof.
  apply (cells_do_not_overlap (new 2 3 4 Int32Array 2) 0 2 3 1 0 0).
  - unfold in_bounds. cbn. lia.
  - unfold in_bounds. cbn. lia.
  - discriminate.
Defined.

(** No bounds are checked: a [y] one past the row addresses the first cell
    of the next row, and a [z] one past the column the next column. *)
Theorem overflow_addresses_next_cell (g : Grid) (x y z : nat) (args : list Z) :
  index g x (width g) z = index g (S x) 0 z
  /\ index g x y (height g) = index g x (S y) 0
  /\ set g x (width g) z args = set g (S x) 0 z args
  /\ set g x y (height g) args = set g x (S y) 0 args.
Proof.
  assert (H1 : index g x (width g) z = index g (S x) 0 z)
    by (unfold index; lia).
  assert (H2 : index g x y (height g) = index g x (S y) 0)
    by (unfold index; lia).
  unfold set. by rewrite H1, H2.
Qed.

(** *** Reading back what was written *)

(** On a well-formed grid, writing a full cell of representable values
    with [set] and reading the cell back with [toArray], appending to an
    array, gives those values. *)
Theorem set_then_toArray (g : Grid) (x y z : nat) (args : list Z)
    (array : JsArray) :
  wf g -> in_bounds g x y z ->
  List.length args = elemSize g ->
  Forall (fun v => store (DataCtor g) v = v) args ->
  toArray (set g x y z args) x y z (Some array) (Some (List.length array))
  = array ++ map Some args.
Proof.
  intros Hwf Hb Hlen Hrep.
  pose proof (cell_range := index_range g x y z Hb).
  destruct Hwf as [Hdata _]. rewrite <- Hdata in cell_range.
  unfold toArray.
  change (index (set g x y z args) x y z) with (index g x y z).
  change (elemSize (set g x y z args)) with (elemSize g).
  change (data (set g x y z args))
    with (set_from (DataCtor g) (data g) (index g x y z) 0 (elemSize g) args).
  change (default [] (Some array)) with array.
  change (default 0 (Some (List.length array))) with (List.length array).
  rewrite toArray_from_append by lia. f_equal.
  rewrite <- Hlen. rewrite <- Hlen in cell_range.
  change (map ?f ?l) with (f <$> l).
  apply list_eq. intros k. rewrite !list_lookup_fmap.
  destruct (decide (k < List.length args)) as [Hk|Hk].
  - rewrite lookup_seq_lt by done. cbn [fmap option_fmap option_map Nat.add].
    replace (index g x y z + 0 + k) with (index g x y z + k) by lia.
    rewrite set_from_inside by lia.
    destruct (lookup_lt_is_Some_2 args k Hk) as [v Hv].
    rewrite Hv. cbn. rewrite (nth_lookup_Some _ _ _ _ Hv). do 2 f_equal.
    eapply Forall_lookup_1 in Hrep; [|exact Hv]. exact Hrep.
  - rewrite lookup_seq_ge by lia. rewrite lookup_ge_None_2 by lia. done.
Qed.

Lemma set_then_toArray_2_3_4 :
  toArray (set (new 2 3 4 Int32Array 2) 1 2 3 [42%Z; (-7)%Z]) 1 2 3
          (Some [Some 1%Z]) (Some (List.length [Some 1%Z]))
  = [Some 1%Z] ++ map Some [42%Z; (-7)%Z].
Proof.
  apply (set_then_toArray (new 2 3 4 Int32Array 2) 1 2 3 [42%Z; (-7)%Z]
           [Some 1%Z]).
  - apply GridSpec.new_wf.
  - unfold in_bounds. cbn. lia.
  - reflexivity.
  - repeat constructor.
Defined.

(** Writing one in-bounds cell leaves every other in-bounds cell as it
    was. *)
Theorem set_leaves_other_cells (g : Grid) (x y z x' y' z' : nat)
    (args : list Z) (array : option JsArray) (offset : option nat) :
  in_bounds g x y z -> in_bounds g x' y' z' ->
  (x, y, z) <> (x', y', z') ->
  toArray (set g x y z args) x' y' z' array offset
  = toArray g x' y' z' array offset.
Proof.
  intros Hb Hb' Hne. unfold toArray.
  change (index (set g x y z args) x' y' z') with (index g x' y' z').
  change (elemSize (set g x y z args)) with (elemSize g).
  change (data (set g x y z args))
    with (set_from (DataCtor g) (data g) (index g x y z) 0 (elemSize g) args).
  apply toArray_from_ext. intros k Hk.
  apply set_from_outside.
  destruct (index_cells_apart g x y z x' y' z' Hb Hb' Hne); lia.
Qed.

Lemma set_leaves_other_cells_2_3_4 :
  toArray (set (new 2 3 4 Int32Array 1) 1 2 3 [42%Z]) 0 0 0 None None
  = toArray (new 2 3 4 Int32Array 1) 0 0 0 None None.
Proof.
  apply (set_leaves_other_cells (new 2 3 4 Int32Array 1) 1 2 3 0 0 0).
  - unfold in_bounds. cbn. lia.
  - unfold in_bounds. cbn. lia.
  - discriminate.
Defined.

(** A write at or past [x = length] falls outside the typed array and is
    dropped, and the read there gives [undefined] for every value of the
    cell. *)
Theorem access_past_the_end (g : Grid) (x y z : nat) (args : list Z) :
  wf g -> length g <= x ->
  set g x y z args = g
  /\ toArray g x y z None None = replicate (elemSize g) None.
Proof.
  intros [Hdata _] Hx.
  assert (Hi : elemSize g = 0 \/ List.length (data g) <= index g x y z).
  { destruct (Nat.eq_dec (elemSize g) 0) as [He|He]; [by left|right].
    rewrite Hdata. unfold index.
    apply Nat.mul_le_mono_r.
    assert (length g * width g <= x * width g + y) by nia. nia. }
  split.
  - unfold set. destruct Hi as [He | Hi].
    + replace (set_from (DataCtor g) (data g) (index g x y z) 0 (elemSize g)
                        args) with (data g) by (by rewrite He).
      by destruct g.
    + rewrite set_from_beyond by done. by destruct g.
  - unfold toArray.
    change (default [] None) with (@nil (option Z)).
    change (default 0 None) with 0.
    rewrite toArray_from_append by done.
    cbn [app]. destruct Hi as [He | Hi]; [by rewrite He|].
    change (map ?f ?l) with (f <$> l).
    apply list_eq. intros k. rewrite list_lookup_fmap.
    destruct (decide (k < elemSize g)) as [Hk|Hk].
    + rewrite lookup_seq_lt by done. cbn.
      rewrite lookup_ge_None_2 by lia.
      symmetry. by apply lookup_replicate_2.
    + rewrite lookup_seq_ge by lia. cbn.
      symmetry. apply lookup_replicate_None. lia.
Qed.

Lemma access_past_the_end_2_3_4 :
  set (new 2 3 4 Int32Array 2) 2 0 0 [5%Z; 6%Z] = new 2 3 4 Int32Array 2
  /\ toArray (new 2 3 4 Int32Array 2) 2 0 0 None None
     = replicate (elemSize (new 2 3 4 Int32Array 2)) None.
Proof.
  apply (access_past_the_end (new 2 3 4 Int32Array 2) 2 0 0 [5%Z; 6%Z]).
  - apply GridSpec.new_wf.
  - cbn. lia.
Defined.

(** [fromArray] from an array that holds the values, at offset 0, writes
    what [set] writes with the same values as arguments. *)
Theorem fromArray_is_set (g : Grid) (x y z : nat) (args : list Z) :
  fromArray g x y z (map Some args) None = set g x y z args.
Proof.
  unfold fromArray, set. cbn [default]. by rewrite fromArray_from_is_set_from.
Qed.

(** *** Bulk copy *)

Lemma map_store_fixed (c : DataCtorKind) (l : list Z) :
  Forall (fun v => store c v = v) l -> map (store c) l = l.
Proof.
  induction 1 as [|v vs Hv _ IH]; cbn; [done|]. by rewrite Hv, IH.
Qed.

(** [copy] from a well-formed grid of the same element type onto a grid
    whose backing array has the same size overwrites all of it: the
    receiver then holds the data of the source, cell for cell. *)
Theorem copy_same_size (this grid : Grid) :
  wf grid -> DataCtor this = DataCtor grid ->
  List.length (data this) = List.length (data grid) ->
  copy this grid
  = Some (mkGrid (length this) (width this) (height this) (DataCtor this)
                 (elemSize this) (data grid), RetUndefined).
Proof.
  intros [_ Hall] Hctor Hlen. unfold copy.
  rewrite Hlen, Nat.leb_refl. rewrite drop_ge by lia. rewrite app_nil_r.
  by rewrite Hctor, map_store_fixed.
Qed.

Lemma copy_same_size_2_3_4 :
  copy (new 2 3 4 Int32Array 1) (set (new 2 3 4 Int32Array 1) 1 2 3 [42%Z])
  = Some (mkGrid 2 3 4 Int32Array 1
                 (data (set (new 2 3 4 Int32Array 1) 1 2 3 [42%Z])),
          RetUndefined).
Proof.
  apply (copy_same_size (new 2 3 4 Int32Array 1)
           (set (new 2 3 4 Int32Array 1) 1 2 3 [42%Z])).
  - split; [reflexivity|]. cbn. repeat constructor.
  - reflexivity.
  - reflexivity.
Defined.

End GridAccess.


(** ** Primitive: the columns of a shape *)

Module PrimitiveColumns.
Import Three Primitive.

Section Columns.
Variable this : PrimitiveClass.
Variable data : gmap string DataValue.

Lemma addElement_app (value : DataValue) (col l : list Cell) :
  addElement value [] = Some l -> addElement value col = Some (col ++ l).
Proof.
  destruct value as [v|elems|elems|x y z|r g b]; cbn; try done.
  - by intros [= <-].
  - by intros [= <-].
  - destruct (defined x); intros [= <-]; [done|by rewrite app_nil_r].
  - destruct (defined r); intros [= <-]; [done|by rewrite app_nil_r].
Qed.

Lemma addElement_None (value : DataValue) (col : list Cell) :
  addElement value [] = None -> addElement value col = None.
Proof.
  destruct value as [v|elems|elems|x y z|r g b]; cbn; try done.
  - by destruct (defined x).
  - by destruct (defined r).
Qed.

Lemma key_of_getShapeKey (fname : string) :
  fname <> "" -> getShapeKey this fname = Some (key_of this fname).
Proof. unfold key_of. by destruct fname. Qed.

(** [valueToShape] appends the cells of the name to its column. *)
Lemma valueToShape_cells (sh : Shape) (fname : string) (col l : list Cell) :
  fname <> "" ->
  _primitiveData sh !! key_of this fname = Some col ->
  cells this data fname = Some l ->
  valueToShape this sh fname (data_prop data fname)
  = Some (mkShape (name sh)
                  (<[key_of this fname := col ++ l]> (_primitiveData sh))
                  (boundingBox sh)).
Proof.
  intros Hne Hcol Hcells. unfold valueToShape.
  rewrite (key_of_getShapeKey fname Hne). cbn [mbind option_bind].
  rewrite Hcol. cbn [mbind option_bind]. unfold cells in Hcells.
  destruct (field_kind (fields this) fname) as [[]|].
  - by rewrite (addElement_app _ _ _ Hcells).
  - by rewrite (addElement_app _ _ _ Hcells).
  - destruct (pushed _) as [v|]; [|done]. by injection Hcells as <-.
  - destruct (pushed _) as [v|]; [|done]. by injection Hcells as <-.
  - destruct (pushed _) as [v|]; [|done]. by injection Hcells as <-.
Qed.

(** A name whose cells cannot be taken from [data] makes the call
    throw. *)
Lemma valueToShape_throws (sh : Shape) (fname : string) :
  cells this data fname = None ->
  valueToShape this sh fname (data_prop data fname) = None.
Proof.
  intros Hcells. unfold valueToShape.
  destruct (getShapeKey this fname) as [key|]; [|done].
  cbn [mbind option_bind].
  destruct (_primitiveData sh !! key) as [col|]; [|done].
  cbn [mbind option_bind]. unfold cells in Hcells.
  destruct (field_kind (fields this) fname) as [[]|].
  - by rewrite (addElement_None _ _ Hcells).
  - by rewrite (addElement_None _ _ Hcells).
  - by destruct (pushed _).
  - by destruct (pushed _).
  - by destruct (pushed _).
Qed.

Lemma foldl_step_None (names : list string) : foldl (append_column this data) None names = None.
Proof. by induction names. Qed.

(** The columns after a run of steps over names with distinct keys. *)
Lemma foldl_step_columns (names : list string) (sh : Shape) :
  Forall (fun fname => fname <> "") names ->
  NoDup (map (key_of this) names) ->
  (forall fname, fname ∈ names ->
     exists col l, _primitiveData sh !! key_of this fname = Some col
                   /\ cells this data fname = Some l) ->
  exists sh',
    foldl (append_column this data) (Some sh) names = Some sh'
    /\ name sh' = name sh
    /\ boundingBox sh' = boundingBox sh
    /\ (forall fname col l,
          fname ∈ names ->
          _primitiveData sh !! key_of this fname = Some col ->
          cells this data fname = Some l ->
          _primitiveData sh' !! key_of this fname = Some (col ++ l))
    /\ (forall key, key ∉ map (key_of this) names ->
          _primitiveData sh' !! key = _primitiveData sh !! key).
Proof.
  revert sh. induction names as [|fname names IH]; intros sh Hne Hnd Hall.
  - exists sh. repeat split; try done. intros ? ? ? H. by apply not_elem_of_nil in H.
  - apply Forall_cons in Hne as [Hne Hnes].
    cbn [map] in Hnd. apply NoDup_cons in Hnd as [Hfresh Hnd].
    destruct (Hall fname) as (col & l & Hcol & Hcells); [by left|].
    cbn [foldl]. unfold append_column at 2. cbn [mbind option_bind].
    rewrite (valueToShape_cells sh fname col l Hne Hcol Hcells).
    set (sh1 := mkShape _ _ _).
    assert (Hother : forall key, key <> key_of this fname ->
                       _primitiveData sh1 !! key = _primitiveData sh !! key).
    { intros key Hk. unfold sh1. cbn. by rewrite lookup_insert_ne. }
    destruct (IH sh1 Hnes Hnd) as (sh' & Hfold & Hname & Hbox & Hin & Hout).
    { intros f Hf. destruct (Hall f) as (c & m & Hc & Hm); [by right|].
      exists c, m. split; [|done]. rewrite Hother; [done|].
      intros E. apply Hfresh. rewrite <- E. apply list_elem_of_fmap.
      by exists f. }
    exists sh'. split; [exact Hfold|]. split; [by rewrite Hname|].
    split; [by rewrite Hbox|]. split.
    + intros f c m Hf Hc Hm. apply elem_of_cons in Hf as [->|Hf].
      * rewrite Hout; [|exact Hfresh]. unfold sh1. cbn.
        rewrite lookup_insert_eq. congruence.
      * apply Hin; [done| |done]. rewrite Hother; [done|].
        intros E. apply Hfresh. rewrite <- E. apply list_elem_of_fmap.
        by exists f.
    + intros key Hk. cbn [map] in Hk. apply not_elem_of_cons in Hk as [Hk1 Hk2].
      rewrite Hout by done. by apply Hother.
Qed.

End Columns.

(** *** Facts about the twelve classes, by enumeration *)

Lemma column_names_not_empty (this : PrimitiveClass) :
  Forall (fun fname => fname <> "") (column_names this).
Proof. destruct this; by repeat constructor. Qed.

Lemma column_keys_distinct (this : PrimitiveClass) :
  NoDup (map (key_of this) (column_names this)).
Proof. destruct this; apply (bool_decide_unpack _); vm_compute; exact I. Qed.

Lemma reserved_names (this : PrimitiveClass) :
  ("name" ∉ map fst (fields this)) /\ ("shape" ∉ map fst (fields this)).
Proof.
  destruct this; split; apply (bool_decide_unpack _); vm_compute; exact I.
Qed.

Lemma field_kind_of_field (this : PrimitiveClass) (fname : string)
    (kind : FieldKind) :
  (fname, kind) ∈ fields this -> field_kind (fields this) fname = Some kind.
Proof.
  destruct this; cbn [fields]; intros H;
    repeat (apply elem_of_cons in H as [[= -> ->]|H]; [reflexivity|]);
    by apply not_elem_of_nil in H.
Qed.

Lemma field_kind_name (this : PrimitiveClass) :
  field_kind (fields this) "name" = None.
Proof. by destruct this. Qed.

Lemma field_in_column_names (this : PrimitiveClass) (fname : string)
    (kind : FieldKind) :
  (fname, kind) ∈ fields this -> fname ∈ column_names this.
Proof.
  intros H. unfold column_names. apply elem_of_app. left.
  apply list_elem_of_fmap. by exists (fname, kind).
Qed.

Lemma name_in_column_names (this : PrimitiveClass) :
  "name" ∈ column_names this.
Proof. unfold column_names. apply elem_of_app. right. by left. Qed.

Lemma field_kind_in (fs : list (string * FieldKind)) (fname : string)
    (kind : FieldKind) :
  field_kind fs fname = Some kind -> exists l1 l2, fs = l1 ++ (fname, kind) :: l2.
Proof.
  induction fs as [|[n k] fs IH]; [done|]. cbn [field_kind].
  destruct (String.eqb n fname) eqn:E.
  - apply String.eqb_eq in E as ->. intros [= ->]. by exists [], fs.
  - intros H. destruct (IH H) as (l1 & l2 & ->). by exists ((n, k) :: l1), l2.
Qed.

(** [objectToShape] is the run over the column names, then the box. *)
Lemma objectToShape_unfold (this : PrimitiveClass) (sh : Shape)
    (data : gmap string DataValue) :
  objectToShape this sh data
  = (shape2 ← foldl (append_column this data) (Some sh) (column_names this);
     box ← expandBoundingBox this (boundingBox shape2) data;
     Some (mkShape (name shape2) (_primitiveData shape2) box)).
Proof.
  unfold objectToShape, column_names. rewrite foldl_app.
  assert (E : forall (fs : list (string * FieldKind)) acc,
             foldl (fun acc '(name, _) =>
                      sh ← acc; valueToShape this sh name (data_prop data name))
                   acc fs
             = foldl (append_column this data) acc (map fst fs)).
  { induction fs as [|[f k] fs IH]; intros acc; [done|]. cbn. apply IH. }
  rewrite E. cbn [foldl]. unfold append_column at 1.
  by destruct (foldl _ _ _).
Qed.

(** The point [tmpVec.fromArray] reads from a value that went into a
    vector column. *)
Lemma point_of_cells (value : DataValue) (l : list Cell) :
  addElement value [] = Some l -> is_Some (point_of value).
Proof. destruct value as [[]| | | |]; cbn; by eauto. Qed.

Lemma expandBoundingBox_complete (this : PrimitiveClass)
    (data : gmap string DataValue) (box : list Vector3) :
  complete this data -> is_Some (expandBoundingBox this box data).
Proof.
  intros Hc.
  assert (Hp : forall fname,
             field_kind (fields this) fname = Some K_v3 ->
             fname ∈ column_names this ->
             is_Some (point_of (data_prop data fname))).
  { intros fname Hk Hin. destruct (Hc fname Hin) as (l & Hl & _).
    unfold cells in Hl. rewrite Hk in Hl. by eapply point_of_cells. }
  destruct this; unfold expandBoundingBox;
    try (destruct (Hp "position") as [p ->];
         [reflexivity|apply (bool_decide_unpack _); vm_compute; exact I|];
         by eexists);
    (destruct (Hp "position1") as [p1 ->];
       [reflexivity|apply (bool_decide_unpack _); vm_compute; exact I|];
     destruct (Hp "position2") as [p2 ->];
       [reflexivity|apply (bool_decide_unpack _); vm_compute; exact I|];
     by eexists).
Qed.

(** What [objectToShape] does to a shape that has the columns of the
    class, given a complete [data] object. *)
Lemma objectToShape_columns (this : PrimitiveClass) (sh : Shape) (n : nat)
    (data : gmap string DataValue) :
  aligned this n sh ->
  complete this data ->
  exists sh',
    objectToShape this sh data = Some sh'
    /\ name sh' = name sh
    /\ expandBoundingBox this (boundingBox sh) data = Some (boundingBox sh')
    /\ (forall fname col l,
          fname ∈ column_names this ->
          _primitiveData sh !! key_of this fname = Some col ->
          cells this data fname = Some l ->
          _primitiveData sh' !! key_of this fname = Some (col ++ l))
    /\ (forall key, key ∉ map (key_of this) (column_names this) ->
          _primitiveData sh' !! key = _primitiveData sh !! key).
Proof.
  intros Ha Hc.
  destruct (foldl_step_columns this data (column_names this) sh
              (column_names_not_empty this) (column_keys_distinct this))
    as (sh2 & Hfold & Hname & Hbox & Hin & Hout).
  { intros fname Hf. destruct (Ha fname Hf) as (col & Hcol & _).
    destruct (Hc fname Hf) as (l & Hl & _). by exists col, l. }
  destruct (expandBoundingBox_complete this data (boundingBox sh) Hc)
    as [box Hb].
  exists (mkShape (name sh2) (_primitiveData sh2) box).
  rewrite objectToShape_unfold, Hfold. cbn [mbind option_bind].
  rewrite Hbox, Hb. cbn [mbind option_bind name boundingBox _primitiveData].
  done.
Qed.

(** Reading the row at [n] of a column that held [n] rows before [l] was
    appended. *)
Lemma valueFromShape_appended (this : PrimitiveClass) (sh : Shape) (n : nat)
    (fname : string) (col l : list Cell) :
  fname <> "" ->
  _primitiveData sh !! key_of this fname = Some (col ++ l) ->
  List.length col = cell_width (field_kind (fields this) fname) * n ->
  valueFromShape this sh (Some n) fname
  = Some (as_value (field_kind (fields this) fname) l).
Proof.
  intros Hne Hcol Hlen.
  rewrite (PrimitiveSpec.valueFromShape_column this sh (Some n) fname
             (key_of this fname) (col ++ l) (key_of_getShapeKey this fname Hne)
             Hcol).
  unfold as_value, Vector3_fromArray, Color_fromArray, times3, offset_add.
  destruct (field_kind (fields this) fname) as [[]|]; cbn [cell_width] in Hlen.
  - rewrite <- (Nat.add_0_r (3 * n)) at 1.
    by rewrite !(PrimitiveSpec.at_index_app_length col _ (3 * n)).
  - rewrite <- (Nat.add_0_r (3 * n)) at 1.
    by rewrite !(PrimitiveSpec.at_index_app_length col _ (3 * n)).
  - rewrite <- (Nat.add_0_r n) at 1.
    rewrite (PrimitiveSpec.at_index_app_length col _ n); [done|lia].
  - rewrite <- (Nat.add_0_r n) at 1.
    rewrite (PrimitiveSpec.at_index_app_length col _ n); [done|lia].
  - rewrite <- (Nat.add_0_r n) at 1.
    rewrite (PrimitiveSpec.at_index_app_length col _ n); [done|lia].
Qed.

(** Reading a row below [n] of such a column. *)
Lemma valueFromShape_earlier (this : PrimitiveClass) (sh sh' : Shape)
    (n pid : nat) (fname : string) (col l : list Cell) :
  fname <> "" ->
  _primitiveData sh !! key_of this fname = Some col ->
  _primitiveData sh' !! key_of this fname = Some (col ++ l) ->
  List.length col = cell_width (field_kind (fields this) fname) * n ->
  pid < n ->
  valueFromShape this sh' (Some pid) fname
  = valueFromShape this sh (Some pid) fname.
Proof.
  intros Hne Hcol Hcol' Hlen Hpid.
  rewrite (PrimitiveSpec.valueFromShape_column this sh' (Some pid) fname
             _ _ (key_of_getShapeKey this fname Hne) Hcol').
  rewrite (PrimitiveSpec.valueFromShape_column this sh (Some pid) fname
             _ _ (key_of_getShapeKey this fname Hne) Hcol).
  unfold Vector3_fromArray, Color_fromArray, times3, offset_add, at_index.
  destruct (field_kind (fields this) fname) as [[]|]; cbn [cell_width] in Hlen;
    by rewrite !lookup_app_l by lia.
Qed.

(** The object [objectFromShape] builds: every field holds what
    [valueFromShape] reads for it. *)
Lemma foldl_read (this : PrimitiveClass) (sh : Shape) (pid : option nat)
    (fs : list (string * FieldKind)) (o0 : gmap string ObjectValue) :
  (forall fname, fname ∈ map fst fs ->
     is_Some (valueFromShape this sh pid fname)) ->
  exists o,
    foldl (fun acc '(fname, _) =>
             o ← acc; v ← valueFromShape this sh pid fname;
             Some (<[fname := v]> o))
          (Some o0) fs = Some o
    /\ (forall fname, fname ∈ map fst fs ->
          o !! fname = valueFromShape this sh pid fname)
    /\ (forall fname, fname ∉ map fst fs -> o !! fname = o0 !! fname).
Proof.
  revert o0. induction fs as [|[f k] fs IH]; intros o0 Hall.
  - exists o0. split; [done|]. split; [|done].
    intros ? H. by apply not_elem_of_nil in H.
  - destruct (Hall f) as [v Hv]; [by left|].
    cbn [foldl mbind option_bind]. rewrite Hv. cbn [mbind option_bind].
    destruct (IH (<[f := v]> o0)) as (o & Hfold & Hin & Hout).
    { intros g Hg. apply Hall. by right. }
    exists o. split; [exact Hfold|]. split.
    + intros g Hg. destruct (decide (g ∈ map fst fs)) as [Hgs|Hgs].
      * by apply Hin.
      * cbn [map fst] in Hg. apply elem_of_cons in Hg as [->|Hg]; [|done].
        rewrite (Hout f Hgs), Hv. by rewrite lookup_insert_eq.
    + intros g Hg. cbn [map fst] in Hg. apply not_elem_of_cons in Hg as [Hg1 Hg2].
      rewrite (Hout g Hg2). by rewrite lookup_insert_ne.
Qed.

(** After an append, the row at [n] of every column of the class reads
    as the cells taken from [data]. *)
Lemma appended_row (this : PrimitiveClass) (sh sh' : Shape) (n : nat)
    (data : gmap string DataValue) :
  aligned this n sh ->
  complete this data ->
  (forall fname col l,
     fname ∈ column_names this ->
     _primitiveData sh !! key_of this fname = Some col ->
     cells this data fname = Some l ->
     _primitiveData sh' !! key_of this fname = Some (col ++ l)) ->
  forall fname, fname ∈ column_names this ->
    exists l,
      cells this data fname = Some l
      /\ valueFromShape this sh' (Some n) fname
         = Some (as_value (field_kind (fields this) fname) l).
Proof.
  intros Ha Hc Hin fname Hf.
  destruct (Ha fname Hf) as (col & Hcol & Hlen).
  destruct (Hc fname Hf) as (l & Hl & _).
  exists l. split; [done|].
  apply (valueFromShape_appended this sh' n fname col l); [|by apply Hin|done].
  pose proof (column_names_not_empty this) as Hne.
  rewrite Forall_forall in Hne. by apply Hne.
Qed.

Lemma objectFromShape_object (this : PrimitiveClass) (sh : Shape)
    (pid : option nat) (recorded : Cell) :
  valueFromShape this sh pid "name" = Some (OCell recorded) ->
  (forall fname, fname ∈ map fst (fields this) ->
     is_Some (valueFromShape this sh pid fname)) ->
  exists o,
    objectFromShape this sh pid = Some o
    /\ o !! "shape" = Some (OShape sh)
    /\ o !! "name"
       = Some (OCell (if defined recorded then recorded
                      else CStr (type this +:+ ": " +:+ pid_text pid +:+ " ("
                                   +:+ name sh +:+ ")")))
    /\ (forall fname, fname ∈ map fst (fields this) ->
          o !! fname = valueFromShape this sh pid fname).
Proof.
  intros Hn Hall. unfold objectFromShape. rewrite Hn. cbn [mbind option_bind].
  match goal with
  | |- context [foldl _ (Some ?o0) _] =>
      destruct (foldl_read this sh pid (fields this) o0 Hall)
        as (o & -> & Hin & Hout)
  end.
  destruct (reserved_names this) as [Rn Rs].
  exists o. split; [done|]. split; [|split; [|done]].
  - rewrite (Hout "shape" Rs). by simplify_map_eq.
  - rewrite (Hout "name" Rn). destruct recorded; by simplify_map_eq.
Qed.

Lemma fresh_shape_aligned_sphere : aligned SpherePrimitive 0 fresh_shape.
Proof.
  intros fname H. unfold column_names in H. cbn [fields map fst app] in H.
  repeat (apply elem_of_cons in H as [->|H]; [by exists []|]).
  by apply not_elem_of_nil in H.
Qed.

Lemma fresh_shape_aligned_cylinder : aligned CylinderPrimitive 0 fresh_shape.
Proof.
  intros fname H. unfold column_names in H. cbn [fields map fst app] in H.
  repeat (apply elem_of_cons in H as [->|H]; [by exists []|]).
  by apply not_elem_of_nil in H.
Qed.

Lemma one_cylinder_aligned : aligned CylinderPrimitive 1 one_cylinder.
Proof.
  intros fname H. unfold column_names in H. cbn [fields map fst app] in H.
  repeat (apply elem_of_cons in H as [->|H];
          [eexists; split; [vm_compute; reflexivity|reflexivity]|]).
  by apply not_elem_of_nil in H.
Qed.

Lemma sphere_data_complete (px py pz cr cg cb radius : Cell) :
  complete SpherePrimitive (sphere_data px py pz cr cg cb radius).
Proof.
  intros fname H. unfold column_names in H. cbn [fields map fst app] in H.
  repeat (apply elem_of_cons in H as [->|H]; [by eexists|]).
  by apply not_elem_of_nil in H.
Qed.

Lemma cylinder_data_complete : complete CylinderPrimitive cylinder_data.
Proof.
  intros fname H. unfold column_names in H. cbn [fields map fst app] in H.
  repeat (apply elem_of_cons in H as [->|H]; [by eexists|]).
  by apply not_elem_of_nil in H.
Qed.

(** Appending an instance of any class to a shape that holds [n] of
    them, from a complete [data] object, succeeds and leaves a shape that
    holds [n + 1]: every column of the class has grown by one row of its
    width. *)
Theorem append_keeps_columns_aligned (this : PrimitiveClass) (sh : Shape)
    (n : nat) (data : gmap string DataValue) :
  aligned this n sh ->
  complete this data ->
  exists sh', objectToShape this sh data = Some sh' /\ aligned this (S n) sh'.
Proof.
  intros Ha Hc.
  destruct (objectToShape_columns this sh n data Ha Hc)
    as (sh' & Hto & _ & _ & Hin & _).
  exists sh'. split; [done|]. intros fname Hf.
  destruct (Ha fname Hf) as (col & Hcol & Hlen).
  destruct (Hc fname Hf) as (l & Hl & Hll).
  exists (col ++ l). split; [by apply Hin|].
  rewrite length_app, Hlen, Hll. lia.
Qed.

Lemma append_keeps_columns_aligned_cylinder :
  exists sh',
    objectToShape CylinderPrimitive fresh_shape cylinder_data = Some sh'
    /\ aligned CylinderPrimitive 1 sh'.
Proof.
  exact (append_keeps_columns_aligned CylinderPrimitive fresh_shape 0
           cylinder_data fresh_shape_aligned_cylinder cylinder_data_complete).
Defined.

(** For every class: the object read at the pid of the instance just
    appended holds, under each field, the cells that were taken from
    [data] for it, as a vector, a colour or a scalar. *)
Theorem append_then_read_back (this : PrimitiveClass) (sh : Shape) (n : nat)
    (data : gmap string DataValue) :
  aligned this n sh ->
  complete this data ->
  exists sh' o,
    objectToShape this sh data = Some sh'
    /\ objectFromShape this sh' (Some n) = Some o
    /\ o !! "shape" = Some (OShape sh')
    /\ forall fname kind l,
         (fname, kind) ∈ fields this ->
         cells this data fname = Some l ->
         o !! fname = Some (as_value (Some kind) l).
Proof.
  intros Ha Hc.
  destruct (objectToShape_columns this sh n data Ha Hc)
    as (sh' & Hto & _ & _ & Hin & _).
  pose proof (appended_row this sh sh' n data Ha Hc Hin) as Hrow.
  destruct (Hrow "name" (name_in_column_names this)) as (ln & _ & Hname).
  rewrite field_kind_name in Hname. cbn [as_value] in Hname.
  destruct (objectFromShape_object this sh' (Some n) _ Hname)
    as (o & Hfrom & Hshape & _ & Hfields).
  { intros fname Hf. apply list_elem_of_fmap in Hf as ([f k] & -> & Hf).
    cbn [fst]. destruct (Hrow f (field_in_column_names this f k Hf)) as (l & _ & ->).
    by eexists. }
  exists sh', o. split; [done|]. split; [done|]. split; [done|].
  intros fname kind l Hf Hl.
  rewrite Hfields by (apply list_elem_of_fmap; by exists (fname, kind)).
  destruct (Hrow fname (field_in_column_names this fname kind Hf))
    as (l' & Hl' & ->).
  rewrite (field_kind_of_field this fname kind Hf). congruence.
Qed.

Lemma append_then_read_back_cylinder :
  exists sh' o,
    objectToShape CylinderPrimitive fresh_shape cylinder_data = Some sh'
    /\ objectFromShape CylinderPrimitive sh' (Some 0) = Some o
    /\ o !! "shape" = Some (OShape sh')
    /\ forall fname kind l,
         (fname, kind) ∈ fields CylinderPrimitive ->
         cells CylinderPrimitive cylinder_data fname = Some l ->
         o !! fname = Some (as_value (Some kind) l).
Proof.
  exact (append_then_read_back CylinderPrimitive fresh_shape 0
           cylinder_data fresh_shape_aligned_cylinder cylinder_data_complete).
Defined.

(** For every class: a name given in [data] is the name of the object
    read back; when none is given, the name is made from the type, the pid
    and the name of the shape.  An empty string counts as given. *)
Theorem append_then_read_name (this : PrimitiveClass) (sh : Shape) (n : nat)
    (data : gmap string DataValue) (given : Cell) :
  aligned this n sh ->
  complete this data ->
  data_prop data "name" = DPrim given ->
  exists sh' o,
    objectToShape this sh data = Some sh'
    /\ objectFromShape this sh' (Some n) = Some o
    /\ o !! "name"
       = Some (OCell (if defined given then given
                      else CStr (type this +:+ ": " +:+ pretty n +:+ " ("
                                   +:+ name sh +:+ ")"))).
Proof.
  intros Ha Hc Hgiven.
  destruct (objectToShape_columns this sh n data Ha Hc)
    as (sh' & Hto & Hnm & _ & Hin & _).
  pose proof (appended_row this sh sh' n data Ha Hc Hin) as Hrow.
  destruct (Hrow "name" (name_in_column_names this)) as (ln & Hln & Hname).
  rewrite field_kind_name in Hname. cbn [as_value] in Hname.
  unfold cells in Hln. rewrite field_kind_name, Hgiven in Hln.
  cbn in Hln. injection Hln as <-. cbn in Hname.
  destruct (objectFromShape_object this sh' (Some n) _ Hname)
    as (o & Hfrom & _ & Hn & _).
  { intros fname Hf. apply list_elem_of_fmap in Hf as ([f k] & -> & Hf).
    cbn [fst]. destruct (Hrow f (field_in_column_names this f k Hf)) as (l & _ & ->).
    by eexists. }
  exists sh', o. split; [done|]. split; [done|].
  rewrite Hn, Hnm. done.
Qed.

Lemma append_then_read_name_sphere :
  exists sh' o,
    objectToShape SpherePrimitive fresh_shape
      (<["name" := DPrim (CStr "")]>
         (sphere_data (CNum 1) (CNum 2) (CNum 3) (CNum 0) (CNum 1) (CNum 0)
                      (CNum 2)))
    = Some sh'
    /\ objectFromShape SpherePrimitive sh' (Some 0) = Some o
    /\ o !! "name" = Some (OCell (CStr "")).
Proof.
  refine (append_then_read_name SpherePrimitive fresh_shape 0 _ (CStr "")
            fresh_shape_aligned_sphere _ _); [|reflexivity].
  intros fname H. unfold column_names in H. cbn [fields map fst app] in H.
  repeat (apply elem_of_cons in H as [->|H]; [by eexists|]).
  by apply not_elem_of_nil in H.
Defined.

(** An append changes nothing else: the rows of the instances already
    there read as before, columns of other classes are as they were, and
    so is the name of the shape. *)
Theorem append_keeps_earlier_instances (this : PrimitiveClass) (sh : Shape)
    (n : nat) (data : gmap string DataValue) :
  aligned this n sh ->
  complete this data ->
  exists sh',
    objectToShape this sh data = Some sh'
    /\ name sh' = name sh
    /\ (forall pid fname,
          pid < n -> fname ∈ column_names this ->
          valueFromShape this sh' (Some pid) fname
          = valueFromShape this sh (Some pid) fname)
    /\ (forall key, key ∉ map (key_of this) (column_names this) ->
          _primitiveData sh' !! key = _primitiveData sh !! key).
Proof.
  intros Ha Hc.
  destruct (objectToShape_columns this sh n data Ha Hc)
    as (sh' & Hto & Hnm & _ & Hin & Hout).
  exists sh'. split; [done|]. split; [done|]. split; [|done].
  intros pid fname Hpid Hf.
  destruct (Ha fname Hf) as (col & Hcol & Hlen).
  destruct (Hc fname Hf) as (l & Hl & _).
  apply (valueFromShape_earlier this sh sh' n pid fname col l);
    [|done|by apply Hin|done|done].
  pose proof (column_names_not_empty this) as Hne.
  rewrite Forall_forall in Hne. by apply Hne.
Qed.

Lemma append_keeps_earlier_instances_cylinder :
  exists sh',
    objectToShape CylinderPrimitive one_cylinder cylinder_data = Some sh'
    /\ name sh' = name one_cylinder
    /\ (forall pid fname,
          pid < 1 -> fname ∈ column_names CylinderPrimitive ->
          valueFromShape CylinderPrimitive sh' (Some pid) fname
          = valueFromShape CylinderPrimitive one_cylinder (Some pid) fname)
    /\ (forall key,
          key ∉ map (key_of CylinderPrimitive) (column_names CylinderPrimitive) ->
          _primitiveData sh' !! key = _primitiveData one_cylinder !! key).
Proof.
  exact (append_keeps_earlier_instances CylinderPrimitive one_cylinder 1
           cylinder_data one_cylinder_aligned cylinder_data_complete).
Defined.

(** A vector or colour field that [data] lacks, or gives as a number or a
    string, makes [objectToShape] throw, whatever the shape and the other
    fields. *)
Theorem missing_vector_field_throws (this : PrimitiveClass) (sh : Shape)
    (data : gmap string DataValue) (fname : string) (v : Cell) :
  (field_kind (fields this) fname = Some K_v3
   \/ field_kind (fields this) fname = Some K_c) ->
  data_prop data fname = DPrim v ->
  objectToShape this sh data = None.
Proof.
  intros Hkind Hv.
  assert (Hcells : cells this data fname = None).
  { unfold cells. rewrite Hv. by destruct Hkind as [-> | ->]. }
  assert (exists kind, field_kind (fields this) fname = Some kind)
    as [kind Hk] by (destruct Hkind; by eexists).
  destruct (field_kind_in _ _ _ Hk) as (l1 & l2 & Hfs).
  rewrite objectToShape_unfold. unfold column_names. rewrite Hfs.
  rewrite map_app. cbn [map fst]. rewrite <- !app_assoc, foldl_app.
  cbn [app foldl].
  replace (append_column this data _ fname) with (@None Shape).
  - by rewrite foldl_step_None.
  - unfold append_column. destruct (foldl _ _ _) as [sh0|]; [|done].
    cbn [mbind option_bind]. symmetry. by apply valueToShape_throws.
Qed.

Lemma missing_vector_field_throws_no_color :
  objectToShape SpherePrimitive fresh_shape
    (<["position" := DArray [CNum 1; CNum 2; CNum 3]]> ∅)
  = None.
Proof.
  apply (missing_vector_field_throws SpherePrimitive fresh_shape _ "color" CUndef);
    [by right|reflexivity].
Defined.

(** For every class: the position read at the pid of the instance just
    appended is the position given, and for the cylinder, arrow, cone and
    wideline it is the midpoint of the two end points given. *)
Theorem append_then_position (host : Host) (this : PrimitiveClass)
    (sh : Shape) (n : nat) (data : gmap string DataValue) :
  aligned this n sh ->
  complete this data ->
  exists sh',
    objectToShape this sh data = Some sh'
    /\ positionFromShape host this sh' (Some n)
       = if two_ended this
         then l1 ← cells this data "position1";
              l2 ← cells this data "position2";
              Some (OVector3
                      (multiplyScalar host
                         (add host (Vector3_fromArray l1 (Some 0))
                                   (Vector3_fromArray l2 (Some 0))) 0.5))
         else l ← cells this data "position";
              Some (OVector3 (Vector3_fromArray l (Some 0))).
Proof.
  intros Ha Hc.
  destruct (objectToShape_columns this sh n data Ha Hc)
    as (sh' & Hto & _ & _ & Hin & _).
  pose proof (appended_row this sh sh' n data Ha Hc Hin) as Hrow.
  exists sh'. split; [done|].
  destruct this; cbn [positionFromShape two_ended];
    try (destruct (Hrow "position") as (l & -> & ->);
         [apply (bool_decide_unpack _); vm_compute; exact I|reflexivity]);
    (destruct (Hrow "position1") as (l1 & -> & ->);
       [apply (bool_decide_unpack _); vm_compute; exact I|];
     destruct (Hrow "position2") as (l2 & -> & ->);
       [apply (bool_decide_unpack _); vm_compute; exact I|];
     reflexivity).
Qed.

Lemma append_then_position_cylinder :
  exists sh',
    objectToShape CylinderPrimitive fresh_shape cylinder_data = Some sh'
    /\ positionFromShape numeric_host CylinderPrimitive sh' (Some 0)
       = Some (OVector3
                 (multiplyScalar numeric_host
                    (add numeric_host (mkVector3 (CNum 0) (CNum 0) (CNum 0))
                                      (mkVector3 (CNum 2) (CNum 0) (CNum 0)))
                    0.5)).
Proof.
  exact (append_then_position numeric_host CylinderPrimitive fresh_shape 0
           cylinder_data
           fresh_shape_aligned_cylinder cylinder_data_complete).
Defined.

(** A position given as a plain [{x, y, z}] object is stored in the
    column like an array, and reads back as that vector, but the bounding
    box is expanded by a point whose components are all [undefined]:
    [fromArray] finds no index 0, 1 or 2 on the object. *)
Theorem xyz_position_gives_undefined_corner (this : PrimitiveClass)
    (sh : Shape) (n : nat) (data : gmap string DataValue) (a b c : Cell) :
  two_ended this = false ->
  aligned this n sh ->
  complete this data ->
  data_prop data "position" = DXyz a b c ->
  exists sh',
    objectToShape this sh data = Some sh'
    /\ valueFromShape this sh' (Some n) "position"
       = Some (OVector3 (mkVector3 a b c))
    /\ boundingBox sh' = boundingBox sh ++ [mkVector3 CUndef CUndef CUndef].
Proof.
  intros Hone Ha Hc Hxyz.
  destruct (objectToShape_columns this sh n data Ha Hc)
    as (sh' & Hto & _ & Hbox & Hin & _).
  pose proof (appended_row this sh sh' n data Ha Hc Hin) as Hrow.
  exists sh'. split; [done|].
  assert (Hpos : "position" ∈ column_names this
                 /\ field_kind (fields this) "position" = Some K_v3).
  { destruct this; try discriminate Hone;
      (split; [apply (bool_decide_unpack _); vm_compute; exact I|reflexivity]). }
  destruct Hpos as [Hp Hk].
  destruct (Hc "position" Hp) as (l0 & Hl0 & Hlen).
  destruct (Hrow "position" Hp) as (l & Hl & ->).
  rewrite Hk in *. unfold cells in Hl, Hl0. rewrite Hk, Hxyz in Hl, Hl0.
  cbn [addElement] in Hl, Hl0. destruct (defined a).
  - injection Hl as <-. split; [reflexivity|].
    assert (E : expandBoundingBox this (boundingBox sh) data
                = Some (boundingBox sh ++ [mkVector3 CUndef CUndef CUndef])).
    { destruct this; try discriminate Hone;
        unfold expandBoundingBox; by rewrite Hxyz. }
    congruence.
  - injection Hl0 as <-. discriminate Hlen.
Qed.

Lemma xyz_position_gives_undefined_corner_sphere :
  exists sh',
    objectToShape SpherePrimitive fresh_shape
      (<["position" := DXyz (CNum 1) (CNum 2) (CNum 3)]>
         (sphere_data CUndef CUndef CUndef (CNum 0) (CNum 1) (CNum 0) (CNum 2)))
    = Some sh'
    /\ valueFromShape SpherePrimitive sh' (Some 0) "position"
       = Some (OVector3 (mkVector3 (CNum 1) (CNum 2) (CNum 3)))
    /\ boundingBox sh'
       = boundingBox fresh_shape ++ [mkVector3 CUndef CUndef CUndef].
Proof.
  refine (xyz_position_gives_undefined_corner SpherePrimitive fresh_shape 0 _
            (CNum 1) (CNum 2) (CNum 3) eq_refl fresh_shape_aligned_sphere
            _ _); [|reflexivity].
  intros fname H. unfold column_names in H. cbn [fields map fst app] in H.
  repeat (apply elem_of_cons in H as [->|H]; [by eexists|]).
  by apply not_elem_of_nil in H.
Defined.

End PrimitiveColumns.


(** ** Picker: what a pid resolves to *)

Module PickerAccess.
Import Three Primitive Picker.

(** The picker of any shape primitive resolves every pid to the same
    object: the name is made with the text [undefined] for the pid, and
    every field is read at an undefined offset, so vectors and colours
    have undefined components and scalars are undefined. *)
Theorem shape_picker_ignores_pid (prim : PrimitiveClass) (sh : Shape)
    (n pid : nat) :
  aligned prim n sh ->
  exists o,
    ShapePicker_getObject (ShapePicker_new prim sh) pid = Some o
    /\ o !! "shape" = Some (OShape sh)
    /\ o !! "name"
       = Some (OCell (CStr (Primitive.type prim +:+ ": undefined ("
                              +:+ name sh +:+ ")")))
    /\ forall fname kind,
         (fname, kind) ∈ fields prim ->
         o !! fname
         = Some (match kind with
                 | K_v3 => OVector3 (mkVector3 CUndef CUndef CUndef)
                 | K_c => OColor (mkColor CUndef CUndef CUndef)
                 | _ => OCell CUndef
                 end).
Proof.
  intros Ha. unfold ShapePicker_getObject.
  rewrite PickerSpec.ShapePicker_getIndex_undefined.
  cbn [primitive shape ShapePicker_new].
  assert (Hread : forall fname, fname ∈ column_names prim ->
            valueFromShape prim sh None fname
            = Some (match field_kind (fields prim) fname with
                    | Some K_v3 => OVector3 (mkVector3 CUndef CUndef CUndef)
                    | Some K_c => OColor (mkColor CUndef CUndef CUndef)
                    | _ => OCell CUndef
                    end)).
  { intros fname Hf. destruct (Ha fname Hf) as (col & Hcol & _).
    pose proof (PrimitiveColumns.column_names_not_empty prim) as Hne.
    rewrite Forall_forall in Hne.
    rewrite (PrimitiveSpec.valueFromShape_column prim sh None fname _ col
               (PrimitiveColumns.key_of_getShapeKey prim fname (Hne fname Hf))
               Hcol).
    by destruct (field_kind (fields prim) fname) as [[]|]. }
  pose proof (Hread "name" (PrimitiveColumns.name_in_column_names prim)) as Hn.
  rewrite PrimitiveColumns.field_kind_name in Hn.
  destruct (PrimitiveColumns.objectFromShape_object prim sh None CUndef Hn)
    as (o & Ho & Hshape & Hname & Hfields).
  { intros fname Hf. apply list_elem_of_fmap in Hf as ([f k] & -> & Hf).
    cbn [fst].
    rewrite (Hread f (PrimitiveColumns.field_in_column_names prim f k Hf)).
    by eexists. }
  exists o. split; [done|]. split; [done|]. split; [exact Hname|].
  intros fname kind Hf.
  rewrite Hfields by (apply list_elem_of_fmap; by exists (fname, kind)).
  rewrite (Hread fname (PrimitiveColumns.field_in_column_names prim fname kind Hf)).
  by rewrite (PrimitiveColumns.field_kind_of_field prim fname kind Hf).
Qed.

Lemma shape_picker_ignores_pid_one_cylinder :
  exists o,
    ShapePicker_getObject (CylinderPicker one_cylinder) 0 = Some o
    /\ o !! "shape" = Some (OShape one_cylinder)
    /\ o !! "name" = Some (OCell (CStr "cylinder: undefined (shape)"))
    /\ forall fname kind,
         (fname, kind) ∈ fields CylinderPrimitive ->
         o !! fname
         = Some (match kind with
                 | K_v3 => OVector3 (mkVector3 CUndef CUndef CUndef)
                 | K_c => OColor (mkColor CUndef CUndef CUndef)
                 | _ => OCell CUndef
                 end).
Proof.
  exact (shape_picker_ignores_pid CylinderPrimitive one_cylinder 1 0
           PrimitiveColumns.one_cylinder_aligned).
Defined.

(** A bond picker returns the midpoint of the two atoms of the bond the
    pid resolves to, the bond being looked up in the store given to the
    constructor and, without one, in the store of the structure. *)
Theorem bond_picker_midpoint (host : Host) (array : option (list nat))
    (st : Structure) (bs : option BondStore) (pid i a1 a2 : nat)
    (p1 p2 : Vector3) :
  getIndex array pid = Some i ->
  atomIndex1 (default (bondStore st) bs) !! i = Some a1 ->
  atomIndex2 (default (bondStore st) bs) !! i = Some a2 ->
  atomPositions st !! a1 = Some p1 ->
  atomPositions st !! a2 = Some p2 ->
  bp_index (BondPicker_getObject (BondPicker_new array st bs) pid) = Some i
  /\ bp_bondStore (BondPicker_getObject (BondPicker_new array st bs) pid)
     = default (bondStore st) bs
  /\ BondPicker_getPosition host (BondPicker_new array st bs) pid
     = multiplyScalar host (add host p1 p2) 0.5.
Proof.
  intros Hi H1 H2 Hp1 Hp2.
  unfold BondPicker_getPosition, BondPicker_getObject, BondPicker_new,
    getBondProxy, atom1, atom2, positionToVector3; simpl.
  rewrite Hi; simpl. by rewrite H1, H2, Hp1, Hp2.
Qed.

Lemma bond_picker_midpoint_reversed_store :
  bp_index (BondPicker_getObject
              (BondPicker_new (Some [0]) two_atoms (Some (mkBondStore [1] [0])))
              0) = Some 0
  /\ bp_bondStore (BondPicker_getObject
                     (BondPicker_new (Some [0]) two_atoms
                                     (Some (mkBondStore [1] [0]))) 0)
     = mkBondStore [1] [0]
  /\ BondPicker_getPosition numeric_host
       (BondPicker_new (Some [0]) two_atoms (Some (mkBondStore [1] [0]))) 0
     = multiplyScalar numeric_host
         (add numeric_host (mkVector3 (CNum 2) (CNum 0) (CNum 0))
                           (mkVector3 (CNum 0) (CNum 0) (CNum 0))) 0.5.
Proof.
  exact (bond_picker_midpoint numeric_host (Some [0]) two_atoms
           (Some (mkBondStore [1] [0])) 0 0 1 0 _ _
           eq_refl eq_refl eq_refl eq_refl eq_refl).
Defined.

(** A contact picker returns an object exactly when the pid resolves
    through every table: the pid to a contact, the contact to its two
    features, and each feature to an atom set.  On any other pid
    [getObject] throws, reading element 0 of an [undefined] atom set, and
    so does [_getPosition]. *)
Theorem contact_picker_returns_iff_resolved (host : Host)
    (this : ContactPicker) (pid : nat) :
  (is_Some (ContactPicker_getObject this pid)
   <-> exists i k l sk sl,
         getIndex (c_array this) pid = Some i
         /\ index1 (contacts this) !! i = Some k
         /\ index2 (contacts this) !! i = Some l
         /\ atomSets (contacts this) !! k = Some sk
         /\ atomSets (contacts this) !! l = Some sl)
  /\ (is_Some (ContactPicker_getPosition host this pid)
      <-> is_Some (ContactPicker_getObject this pid)).
Proof.
  split.
  - unfold ContactPicker_getObject. split.
    + intros [o Ho].
      destruct (getIndex (c_array this) pid) as [i|] eqn:Ei; [|done].
      cbn [mbind option_bind] in Ho.
      destruct (index1 (contacts this) !! i) as [k|] eqn:Ek; [|done].
      cbn [mbind option_bind] in Ho.
      destruct (atomSets (contacts this) !! k) as [sk|] eqn:Esk; [|done].
      destruct (index2 (contacts this) !! i) as [l|] eqn:El; [|done].
      cbn [mbind option_bind] in Ho.
      destruct (atomSets (contacts this) !! l) as [sl|] eqn:Esl; [|done].
      by exists i, k, l, sk, sl.
    + intros (i & k & l & sk & sl & -> & H1 & H2 & Hk & Hl).
      cbn [mbind option_bind]. rewrite H1, H2. cbn [mbind option_bind].
      rewrite Hk, Hl. by eexists.
  - unfold ContactPicker_getPosition.
    destruct (ContactPicker_getObject this pid) as [o|]; split;
      intros [? ?]; by eauto.
Qed.

End PickerAccess.


(** ** Representation: what the calls keep, finish and defer *)

Module RepresentationFrame.
Import JS Representation.

Lemma kept_refl r : kept r r.
Proof. by repeat split. Qed.

Lemma kept_trans r1 r2 r3 : kept r1 r2 -> kept r2 r3 -> kept r1 r3.
Proof.
  intros (P1 & H1 & D1 & R1 & Q1 & S1) (P2 & H2 & D2 & R2 & Q2 & S2).
  repeat split; try congruence.
  all: intros name; by rewrite S2.
Qed.

Lemma steady_refl r : steady r r.
Proof. split; [apply kept_refl|done]. Qed.

Lemma steady_trans r1 r2 r3 : steady r1 r2 -> steady r2 r3 -> steady r1 r3.
Proof.
  intros [K1 B1] [K2 B2]. split; [by eapply kept_trans|].
  intros H. rewrite B2, B1; [done|done|].
  destruct K1 as (_ & _ & D1 & R1 & _). rewrite D1, R1. exact H.
Qed.

(** A step that touches none of the fields concerned. *)
Lemma steady_fields r r' :
  parameters r' = parameters r -> heap r' = heap r ->
  disposed r' = disposed r -> prepare r' = prepare r ->
  pending r' = pending r -> self r' = self r ->
  tasks r' = tasks r -> queue r' = queue r ->
  steady r r'.
Proof.
  intros P H D R Q S T U. split.
  - repeat split; try done. intros name. unfold this_prop. by rewrite S.
  - intros _. unfold outstanding. by rewrite T, U.
Qed.

Lemma steady_called cs r : steady r (called cs r).
Proof. by apply steady_fields. Qed.

Lemma steady_with_lazyProps l r : steady r (with_lazyProps l r).
Proof. by apply steady_fields. Qed.

Lemma steady_with_bufferList l r : steady r (with_bufferList l r).
Proof. by apply steady_fields. Qed.

Lemma steady_propagate v nrr r : steady r (propagate v nrr r).
Proof.
  unfold propagate. destruct (truthy nrr); by apply steady_fields.
Qed.

Lemma steady_clear r : steady r (clear r).
Proof. by apply steady_fields. Qed.

Lemma steady_create r : steady r (create r).
Proof. by apply steady_fields. Qed.

(** [this.visible = this.visible] *)
Lemma steady_same_visible r :
  steady r (with_self (insert "visible" (this_prop r "visible")) r).
Proof.
  split.
  - repeat split; try done. intros name. unfold this_prop, prop.
    cbn [self with_self].
    destruct (decide (name = "visible")) as [->|Hn].
    + by rewrite lookup_insert_eq.
    + by rewrite lookup_insert_ne.
  - done.
Qed.

Section Steady.
Variable f :
  option (gmap string Value) -> Representation -> option Representation.
Hypothesis Hf : forall uw r r', f uw r = Some r' -> steady r r'.

Lemma updateParameters_open_steady bp what r r' :
  updateParameters_open f bp what r = Some r' -> steady r r'.
Proof.
  unfold updateParameters_open, update_open.
  destruct (_ && _ && _).
  - intros [= <-]. apply steady_with_lazyProps.
  - destruct (nonempty what).
    + destruct (f (Some what) _) as [r2|] eqn:E; [|done].
      cbn [mbind option_bind]. intros [= <-].
      eapply steady_trans; [apply steady_with_bufferList|].
      eapply steady_trans; [exact (Hf _ _ _ E)|apply steady_called].
    + cbn [mbind option_bind]. intros [= <-].
      eapply steady_trans; [apply steady_with_bufferList|apply steady_called].
Qed.

Lemma setVisibility_open_steady v nrr r r' :
  setVisibility_open f v nrr r = Some r' ->
  steady (with_self (insert "visible" v) r) r'.
Proof.
  unfold setVisibility_open.
  set (r0 := with_self (insert "visible" v) r).
  destruct (_ && _); [|intros [= <-]; apply steady_propagate].
  destruct (lp_build (lazyProps r0)).
  - intros E. eapply steady_trans; [apply steady_with_lazyProps|].
    exact (Hf _ _ _ E).
  - destruct (_ || _); [|intros [= <-]; apply steady_propagate].
    destruct (updateParameters_open f _ _ _) as [r1|] eqn:E; [|done].
    cbn [mbind option_bind]. intros [= <-].
    eapply steady_trans; [apply steady_with_lazyProps|].
    eapply steady_trans; [exact (updateParameters_open_steady _ _ _ _ E)|].
    apply steady_propagate.
Qed.

Lemma build_open_steady uw r r' :
  build_open f uw r = Some r' -> steady r r'.
Proof.
  unfold build_open.
  destruct (_ && _); [intros [= <-]; apply steady_with_lazyProps|].
  destruct (prepare r) eqn:Hp; cbn [negb].
  - intros [= <-]. split; [by destruct (0 <? _)|].
    intros _. unfold outstanding, Queue.length, Queue.push, Queue.kill.
    destruct (0 <? List.length (queue r)) eqn:Hq;
      cbn [tasks queue with_queue with_tasks Counter.count Counter.change
           Counter.increment];
      rewrite ?length_app; cbn [List.length]; unfold Queue.Queue in *.
    + lia.
    + apply Nat.ltb_ge in Hq. lia.
  - unfold make_open.
    replace (prepare (with_tasks Counter.increment r)) with false
      by (symmetry; exact Hp).
    unfold _make_open.
    set (r1 := create (clear (with_tasks Counter.increment r))).
    assert (K1 : kept r r1) by (by repeat split).
    assert (O1 : outstanding r1 = (outstanding r + 1)%Z).
    { unfold outstanding, r1.
      cbn [tasks queue create clear called with_bufferList with_tasks
           Counter.count Counter.increment Counter.change].
      lia. }
    destruct (disposed r1) eqn:Hd; cbn [negb].
    + intros [= <-]. split; [exact K1|].
      intros [H|H]; [congruence|]. change (disposed r1) with (disposed r) in Hd.
      congruence.
    + unfold attach_open.
      destruct (setVisibility_open f _ _ _) as [r2|] eqn:E; [|done].
      cbn [mbind option_bind invoke]. intros [= <-].
      apply setVisibility_open_steady in E.
      assert (S2 : steady r1 r2).
      { eapply steady_trans; [apply (steady_called [Attach])|].
        eapply steady_trans; [|exact E].
        apply (steady_same_visible (called [Attach] r1)). }
      destruct S2 as [K2 B2]. split.
      * eapply kept_trans; [exact K1|].
        eapply kept_trans; [exact K2|]. by repeat split.
      * intros _. unfold outstanding in *.
        cbn [tasks queue with_tasks Counter.count Counter.decrement
             Counter.change] in *.
        specialize (B2 (or_intror Hd)). lia.
Qed.

End Steady.

Lemma build_steady (d : nat) uw r r' : build d uw r = Some r' -> steady r r'.
Proof.
  revert uw r r'. induction d as [|d IH]; intros uw r r'; [done|].
  cbn [build]. by apply build_open_steady.
Qed.

(** [build] changes no parameter and no property: whatever it does to
    buffers, tasks and the queue, the parameter table, the heap, the
    [disposed] flag and every [this[name]] are as before. *)
Theorem build_changes_no_property (d : nat) uw r r' :
  build d uw r = Some r' -> kept r r'.
Proof. intros H. by destruct (build_steady d uw r r' H). Qed.

Lemma build_changes_no_property_clipCenter :
  exists r',
    build 3 None with_clipCenter = Some r' /\ kept with_clipCenter r'.
Proof.
  eexists. split; [vm_compute; reflexivity|].
  apply (build_changes_no_property 3 None with_clipCenter).
  vm_compute. reflexivity.
Defined.

(** [setVisibility(value)] sets [this.visible] to the value and changes no
    other property, no parameter and nothing on the heap, also when it
    runs a deferred build or a deferred update. *)
Theorem setVisibility_changes_only_visible (d : nat) (value nrr : Value) r r' :
  setVisibility d value nrr r = Some r' ->
  this_prop r' "visible" = value
  /\ (forall name, name <> "visible" -> this_prop r' name = this_prop r name)
  /\ parameters r' = parameters r
  /\ heap r' = heap r
  /\ disposed r' = disposed r.
Proof.
  intros H. apply (setVisibility_open_steady (build d)) in H;
    [|intros; by eapply build_steady].
  destruct H as [(P & Hh & D & _ & _ & S) _].
  split; [|split; [|done]].
  - rewrite S. unfold this_prop, prop. cbn [self with_self].
    by rewrite lookup_insert_eq.
  - intros name Hn. rewrite S. unfold this_prop, prop. cbn [self with_self].
    by rewrite lookup_insert_ne.
Qed.

Lemma setVisibility_changes_only_visible_deferred_build :
  exists r',
    setVisibility 3 (VBool true) VUndef hidden_with_deferred_build = Some r'
    /\ this_prop r' "visible" = VBool true
    /\ (forall name, name <> "visible" ->
          this_prop r' name = this_prop hidden_with_deferred_build name)
    /\ parameters r' = parameters hidden_with_deferred_build
    /\ heap r' = heap hidden_with_deferred_build
    /\ disposed r' = disposed hidden_with_deferred_build.
Proof.
  eexists. split; [vm_compute; reflexivity|].
  apply (setVisibility_changes_only_visible 3 (VBool true) VUndef
           hidden_with_deferred_build).
  vm_compute. reflexivity.
Defined.

(** On a representation that is not disposed, or that builds through a
    preparation step, [build] leaves the number of tasks that are not
    queued jobs as it was: a synchronous build finishes the task it
    starts, also when it runs nested builds, and a queued build counts one
    task for the one job it leaves in the queue. *)
Theorem build_keeps_outstanding_tasks (d : nat) uw r r' :
  build d uw r = Some r' ->
  prepare r = true \/ disposed r = false ->
  outstanding r' = outstanding r.
Proof. intros H. by destruct (build_steady d uw r r' H). Qed.

Lemma build_keeps_outstanding_tasks_clipCenter :
  exists r',
    build 3 None with_clipCenter = Some r'
    /\ outstanding r' = outstanding with_clipCenter.
Proof.
  eexists. split; [vm_compute; reflexivity|].
  apply (build_keeps_outstanding_tasks 3 None with_clipCenter);
    [vm_compute; reflexivity|by right].
Defined.

(** Every call returns: three nested builds are the most any call of
    [build], [setVisibility], [updateParameters] or [setParameters] leads
    to, in every state. *)
Theorem methods_return (host : Host) (d : nat) :
  (forall uw r, is_Some (build (3 + d) uw r))
  /\ (forall value nrr r, is_Some (setVisibility (3 + d) value nrr r))
  /\ (forall bp what r, is_Some (updateParameters (3 + d) bp what r))
  /\ (forall params what rebuild r,
        is_Some (setParameters host (3 + d) params what rebuild r)).
Proof.
  split; [intros; apply RepresentationSpec.build_returns|].
  split; [intros; apply (RepresentationSpec.setVisibility_returns (S d))|].
  assert (U : forall bp what r, is_Some (updateParameters (3 + d) bp what r)).
  { intros bp what r. apply RepresentationSpec.updateParameters_open_returns.
    intros uw r1 _. apply RepresentationSpec.build_returns. }
  split; [exact U|].
  intros params what rebuild r. unfold setParameters, setParameters_open.
  destruct (l_rebuild _); [apply RepresentationSpec.build_returns|apply U].
Qed.

(** *** Parameters *)

(** What [getParameters] holds under a key of the parameter table. *)
Lemma getParameters_declared r (name : string) :
  is_Some (parameters r !! name) ->
  getParameters r !! name = Some (this_prop r name).
Proof.
  unfold getParameters.
  set (base := <["quality" := _]> _).
  apply (map_fold_weak_ind
           (fun (res : gmap string Value) (m : gmap string ParamEntry) =>
              is_Some (m !! name) -> res !! name = Some (this_prop r name))).
  - intros [? H]. by rewrite lookup_empty in H.
  - intros i x m res Hi IH Hs.
    destruct (decide (i = name)) as [->|Hn].
    + by rewrite lookup_insert_eq.
    + rewrite lookup_insert_ne by done. apply IH.
      by rewrite lookup_insert_ne in Hs.
Qed.

Lemma declared_is_Some r (name : string) :
  tp_undefined (parameters r !! name) = false ->
  is_Some (parameters r !! name).
Proof. destruct (parameters r !! name); [by eexists|done]. Qed.

Section Parameters.
Variable host : Host.

Lemma loop_body_undeclared (st : Loop) (name : string) :
  tp_undefined (parameters (l_this st) !! name) = true ->
  loop_body host st name = st.
Proof.
  intros H. unfold loop_body. rewrite H. by destruct (is_undefined _).
Qed.

Lemma foldl_undeclared (names : list string) (st : Loop) :
  Forall (fun name => tp_undefined (parameters (l_this st) !! name) = true)
         names ->
  foldl (loop_body host) st names = st.
Proof.
  induction 1 as [|name names H _ IH]; [done|].
  cbn [foldl]. by rewrite (loop_body_undeclared st name H).
Qed.

End Parameters.

(** Names that the parameter table does not declare are ignored: a call
    of [setParameters] with only such names (and neither a colour nor an
    opacity) commits nothing and is the call
    [updateParameters({}, what)]. *)
Theorem undeclared_parameters_are_ignored (host : Host) (d : nat)
    (params : Params) (what : gmap string Value) r :
  Forall (fun name => tp_undefined (parameters r !! name) = true)
         (map fst params) ->
  get params "color" = VUndef ->
  get params "opacity" = VUndef ->
  setParameters host d params what false r = updateParameters d ∅ what r.
Proof.
  intros Hall Hcolor Hopacity.
  unfold setParameters, setParameters_open, loop, loop_entry.
  rewrite Hcolor, Hopacity. cbn [is_undefined negb].
  rewrite andb_false_r.
  cbn [l_p l_this l_bufferParams l_what l_rebuild setColor_target].
  rewrite foldl_undeclared by exact Hall.
  reflexivity.
Qed.

Lemma undeclared_parameters_are_ignored_clipCenter :
  setParameters scenario_host 3
    [("clipcenter", VNum 1); ("radius", VUndef)] ∅ false with_clipCenter
  = updateParameters 3 ∅ ∅ with_clipCenter.
Proof.
  apply (undeclared_parameters_are_ignored scenario_host 3
           [("clipcenter", VNum 1); ("radius", VUndef)] ∅ with_clipCenter);
    [by repeat constructor|reflexivity|reflexivity].
Defined.

(** Round trip: after [setParameters({name: v})] on a declared parameter
    whose current value is not a three.js object, [getParameters()] gives
    under that name the value set, after the [int] and [float] coercions
    of the metadata, or, when the loop took the value for unchanged, the
    current value, which is then [===] to it. *)
Theorem setParameters_then_getParameters (host : Host) (d : nat)
    (name : string) (v : Value) r r' :
  let v' := coerced host (meta_of (parameters r !! name)) v in
  tp_undefined (parameters r !! name) = false ->
  is_undefined v = false ->
  name <> "color" -> name <> "opacity" ->
  has_equals (this_prop r name) = false ->
  setParameters host d [(name, v)] ∅ false r = Some r' ->
  exists w,
    getParameters r' !! name = Some w
    /\ (w = v' \/ (w = this_prop r name /\ strict_eq v' w = true)).
Proof.
  intros v' Htp Hdef Hcolor Hopacity Hcur Hset.
  assert (Hkept : exists r1,
             parameters r1 = parameters r
             /\ kept r1 r'
             /\ (this_prop r1 name = v'
                 \/ (this_prop r1 name = this_prop r name
                     /\ strict_eq v' (this_prop r name) = true))).
  { destruct (changed host (heap r) v' (this_prop r name)) eqn:Hch.
    - rewrite (RepresentationSpec.setParameters_single host d name v ∅ r
                 Htp Hdef Hch Hcolor Hopacity) in Hset.
      exists (commit host name v' r). fold v' in Hset.
      split; [by destruct (RepresentationSpec.commit_frame host name v' r)|].
      split.
      + destruct (escalates host _ _).
        * by destruct (build_steady d None _ r' Hset).
        * apply (updateParameters_open_steady (build d)) in Hset;
            [by destruct Hset|intros; by eapply build_steady].
      + left. unfold commit.
        destruct (this_prop r name) eqn:E; try discriminate Hcur;
          unfold this_prop, prop; cbn [self with_self];
          by rewrite lookup_insert_eq.
    - exists r. split; [done|].
      apply String.eqb_neq in Hcolor, Hopacity.
      unfold setParameters, setParameters_open, loop, loop_entry in Hset.
      cbn [get] in Hset. rewrite Hcolor, Hopacity in Hset.
      cbn [is_undefined negb] in Hset. rewrite andb_false_r in Hset.
      cbn [l_p l_this l_bufferParams l_what l_rebuild setColor_target map fst
           foldl] in Hset.
      destruct (RepresentationSpec.loop_body_unchanged host
                  (mkLoop [(name, v)] r ∅ ∅ false) name)
        as (Hthis & Hbp & Hwhat & Hrb).
      { cbn [l_p l_this get]. rewrite String.eqb_refl. exact Hch. }
      cbn [l_this l_bufferParams l_what l_rebuild] in Hthis, Hbp, Hwhat, Hrb.
      rewrite Hthis, Hbp, Hwhat, Hrb in Hset.
      split.
      + apply (updateParameters_open_steady (build d)) in Hset;
          [by destruct Hset|intros; by eapply build_steady].
      + right. split; [done|].
        unfold changed in Hch. apply negb_false_iff in Hch.
        by apply andb_true_iff in Hch as [? _]. }
  destruct Hkept as (r1 & Hpar & (P & _ & _ & _ & _ & S) & Hv).
  exists (this_prop r' name). split.
  - apply getParameters_declared. rewrite P, Hpar.
    by apply declared_is_Some.
  - rewrite S. destruct Hv as [->|[-> Heq]]; [by left|by right].
Qed.

Lemma setParameters_then_getParameters_sphereDetail :
  exists r',
    setParameters scenario_host 3 [("sphereDetail", VNum 2)] ∅ false
      with_sphereDetail = Some r'
    /\ exists w,
         getParameters r' !! "sphereDetail" = Some w
         /\ (w = VNum 2
             \/ (w = this_prop with_sphereDetail "sphereDetail"
                 /\ strict_eq (VNum 2) w = true)).
Proof.
  eexists. split; [vm_compute; reflexivity|].
  apply (setParameters_then_getParameters scenario_host 3 "sphereDetail"
           (VNum 2) with_sphereDetail); done.
Defined.

(** *** Deferred updates *)

Lemma nonempty_false (m : gmap string Value) : nonempty m = false -> m = ∅.
Proof.
  unfold nonempty. intros H. apply negb_false_iff, Nat.eqb_eq in H.
  by apply map_size_empty_iff.
Qed.

Lemma this_prop_visible_set (v : Value) r :
  this_prop (with_self (insert "visible" v) r) "visible" = v.
Proof.
  unfold this_prop, prop. cbn [self with_self]. by rewrite lookup_insert_eq.
Qed.

Lemma this_prop_visible_other (v : Value) (name : string) r :
  name <> "visible" ->
  this_prop (with_self (insert "visible" v) r) name = this_prop r name.
Proof.
  intros Hn. unfold this_prop, prop. cbn [self with_self].
  by rewrite lookup_insert_ne.
Qed.

Lemma Representation_eq r r' :
  parameters r = parameters r' -> self r = self r' ->
  lazyProps r = lazyProps r' -> tasks r = tasks r' -> queue r = queue r' ->
  bufferList r = bufferList r' -> disposed r = disposed r' ->
  prepare r = prepare r' -> pending r = pending r' -> heap r = heap r' ->
  calls r = calls r' ->
  r = r'.
Proof. destruct r, r'. cbn. by intros -> -> -> -> -> -> -> -> -> -> ->. Qed.

Section Flush.
Variable f :
  option (gmap string Value) -> Representation -> option Representation.

(** [updateParameters(bufferParams, {})] when it does not defer. *)
Lemma updateParameters_open_applies (bp : gmap string Value) r :
  truthy (this_prop r "lazy")
  && (negb (truthy (this_prop r "visible"))
      || negb (truthy (this_prop r "opacity")))
  && is_undefined (prop bp "opacity") = false ->
  updateParameters_open f bp ∅ r
  = Some (called [RequestRender]
            (with_bufferList (map (Buffer.setParameters bp) (bufferList r)) r)).
Proof. intros H. unfold updateParameters_open. by rewrite H. Qed.

(** [updateParameters] when it defers. *)
Lemma updateParameters_open_defers (bp what : gmap string Value) r :
  truthy (this_prop r "lazy")
  && (negb (truthy (this_prop r "visible"))
      || negb (truthy (this_prop r "opacity")))
  && is_undefined (prop bp "opacity") = true ->
  updateParameters_open f bp what r
  = Some (with_lazyProps
            (mkLazyProps (lp_build (lazyProps r))
                         (bp ∪ lp_bufferParams (lazyProps r))
                         (what ∪ lp_what (lazyProps r))) r).
Proof. intros H. unfold updateParameters_open. by rewrite H. Qed.

(** [setVisibility] with a truthy value when updates are deferred and no
    build is. *)
Lemma setVisibility_open_flushes (v nrr : Value) r :
  truthy v = true ->
  tp_truthy r "opacity" = true ->
  lp_build (lazyProps r) = false ->
  nonempty (lp_bufferParams (lazyProps r)) = true ->
  setVisibility_open f v nrr r
  = (r1 ← updateParameters_open f (lp_bufferParams (lazyProps r))
            (lp_what (lazyProps r))
            (with_lazyProps (mkLazyProps false ∅ ∅)
                            (with_self (insert "visible" v) r));
     Some (propagate v nrr r1)).
Proof.
  intros Hv Htp Hb Hne. unfold setVisibility_open.
  rewrite this_prop_visible_set, Hv.
  change (tp_truthy (with_self (insert "visible" v) r) "opacity")
    with (tp_truthy r "opacity").
  rewrite Htp. cbn [andb lazyProps with_self].
  by rewrite Hb, Hne.
Qed.

End Flush.


(** The same call sequence when [this.opacity] is not truthy, as on a
    representation whose opacity was only given to [init], which stores
    it in [this.parameters]: showing the representation defers the
    parameters again, and the buffers never get them. *)
Theorem deferred_update_stays_deferred (d : nat) (bp : gmap string Value) r :
  truthy (this_prop r "lazy") = true ->
  truthy (this_prop r "visible") = false ->
  truthy (this_prop r "opacity") = false ->
  tp_truthy r "opacity" = true ->
  is_undefined (prop bp "opacity") = true ->
  nonempty bp = true ->
  quiet r ->
  exists r1 r2,
    updateParameters d bp ∅ r = Some r1
    /\ setVisibility d (VBool true) VUndef r1 = Some r2
    /\ bufferList r2 = map (Buffer.setVisibility (VBool true)) (bufferList r)
    /\ lp_bufferParams (lazyProps r2) = bp
    /\ setVisibility d (VBool true) VUndef r2
       = Some (called [RequestRender] r2).
Proof.
  intros Hlazy Hvis Hop Htp Hbp Hne (Hb & Hqb & Hqw).
  apply nonempty_false in Hqb, Hqw.
  set (r1 := with_lazyProps (mkLazyProps false bp ∅) r).
  set (r0 := with_lazyProps (mkLazyProps false ∅ ∅)
               (with_self (insert "visible" (VBool true)) r1)).
  assert (Hdef : forall r', self r' = <["visible" := VBool true]> (self r) ->
            truthy (this_prop r' "lazy")
            && (negb (truthy (this_prop r' "visible"))
                || negb (truthy (this_prop r' "opacity")))
            && is_undefined (prop bp "opacity") = true).
  { intros r' Hs. unfold this_prop. rewrite Hs, Hbp.
    unfold prop. rewrite lookup_insert_eq, !lookup_insert_ne by done.
    unfold this_prop, prop in Hlazy, Hop. rewrite Hlazy, Hop. done. }
  set (r2 := propagate (VBool true) VUndef
               (with_lazyProps (mkLazyProps false bp ∅) r0)).
  assert (E1 : setVisibility d (VBool true) VUndef r1 = Some r2).
  { unfold setVisibility. rewrite setVisibility_open_flushes by done.
    change (lp_bufferParams (lazyProps r1)) with bp.
    change (lp_what (lazyProps r1)) with (∅ : gmap string Value).
    fold r0. rewrite updateParameters_open_defers by (by apply Hdef).
    cbn [mbind option_bind]. unfold r2.
    change (lp_build (lazyProps r0)) with false.
    change (lp_bufferParams (lazyProps r0)) with (∅ : gmap string Value).
    change (lp_what (lazyProps r0)) with (∅ : gmap string Value).
    by rewrite !(right_id_L (∅ : gmap string Value) union). }
  exists r1, r2. split.
  { unfold updateParameters.
    rewrite updateParameters_open_defers
      by (by rewrite Hlazy, Hvis, Hbp).
    by rewrite Hb, Hqb, Hqw, !(right_id_L (∅ : gmap string Value) union). }
  split; [exact E1|]. split; [done|]. split; [done|].
  unfold setVisibility. rewrite setVisibility_open_flushes; try done.
  change (lp_bufferParams (lazyProps r2)) with bp.
  change (lp_what (lazyProps r2)) with (∅ : gmap string Value).
  rewrite updateParameters_open_defers.
  - cbn [mbind option_bind lazyProps with_lazyProps lp_build lp_bufferParams
         lp_what].
    rewrite !(right_id_L (∅ : gmap string Value) union).
    f_equal. apply Representation_eq; try reflexivity.
    + transitivity (<["visible" := VBool true]>
                      (<["visible" := VBool true]> (self r)));
        [reflexivity|].
      by rewrite insert_insert_eq.
    + transitivity (map (Buffer.setVisibility (VBool true))
                      (map (Buffer.setVisibility (VBool true)) (bufferList r)));
        [reflexivity|].
      transitivity (map (Buffer.setVisibility (VBool true)) (bufferList r));
        [|reflexivity].
      rewrite map_map. by apply map_ext.
  - apply Hdef.
    transitivity (<["visible" := VBool true]>
                    (<["visible" := VBool true]> (self r)));
      [reflexivity|].
    by rewrite insert_insert_eq.
Qed.


Lemma deferred_update_stays_deferred_lazy_hidden :
  exists r1 r2,
    updateParameters 0 (<["side" := VStr "front"]> ∅) ∅
      (with_self (insert "lazy" (VBool true)) lazy_hidden) = Some r1
    /\ setVisibility 0 (VBool true) VUndef r1 = Some r2
    /\ bufferList r2
       = map (Buffer.setVisibility (VBool true)) (bufferList lazy_hidden)
    /\ lp_bufferParams (lazyProps r2) = <["side" := VStr "front"]> ∅
    /\ setVisibility 0 (VBool true) VUndef r2
       = Some (called [RequestRender] r2).
Proof.
  apply (deferred_update_stays_deferred 0 (<["side" := VStr "front"]> ∅)
           (with_self (insert "lazy" (VBool true)) lazy_hidden));
    done.
Defined.

(** *** Initialization *)

Lemma tp_truthy_same r r' (name : string) :
  parameters r' !! name = parameters r !! name ->
  tp_truthy r' name = tp_truthy r name.
Proof. unfold tp_truthy. by intros ->. Qed.

Lemma lookup_default_parameter (p : Params) (n name : string) (d : Value) r :
  n <> name ->
  parameters (default_parameter p n d r) !! name = parameters r !! name.
Proof.
  intros Hn. unfold default_parameter. cbn [parameters with_parameters].
  by rewrite lookup_insert_ne.
Qed.

Lemma lookup_default_parameter_same (p : Params) (n : string) (d : Value) r :
  parameters (default_parameter p n d r) !! n
  = Some (PValue (defaults (get p n) d)).
Proof.
  unfold default_parameter. cbn [parameters with_parameters].
  by rewrite lookup_insert_eq.
Qed.

Lemma lookup_declare (n name : string) (m : Meta.Meta) r :
  n <> name -> parameters (declare n m r) !! name = parameters r !! name.
Proof.
  intros Hn. unfold declare. destruct (tp_truthy r n); [|done].
  cbn [parameters with_parameters]. by rewrite lookup_insert_ne.
Qed.

Lemma tp_truthy_declare (n name : string) (m : Meta.Meta) r :
  tp_truthy (declare n m r) name = tp_truthy r name.
Proof.
  destruct (decide (n = name)) as [->|Hn].
  - unfold declare. destruct (tp_truthy r name) eqn:E; [|done].
    unfold tp_truthy. cbn [parameters with_parameters].
    by rewrite lookup_insert_eq.
  - by apply tp_truthy_same, lookup_declare.
Qed.

Lemma parameters_assign_if_declared (n : string) (v : Value) r :
  parameters (assign_if_declared n v r) = parameters r.
Proof. unfold assign_if_declared. by destruct (tp_truthy r n). Qed.

Lemma tp_truthy_assign_if_declared (n name : string) (v : Value) r :
  tp_truthy (assign_if_declared n v r) name = tp_truthy r name.
Proof. apply tp_truthy_same. by rewrite parameters_assign_if_declared. Qed.

Lemma this_prop_assign_other (n name : string) (v : Value) r :
  n <> name -> this_prop (assign_if_declared n v r) name = this_prop r name.
Proof.
  intros Hn. unfold assign_if_declared. destruct (tp_truthy r n); [|done].
  unfold this_prop, prop. cbn [self with_self]. by rewrite lookup_insert_ne.
Qed.

Lemma this_prop_assign_same (n : string) (v : Value) r :
  tp_truthy r n = true -> this_prop (assign_if_declared n v r) n = v.
Proof.
  intros H. unfold assign_if_declared. rewrite H.
  unfold this_prop, prop. cbn [self with_self]. by rewrite lookup_insert_eq.
Qed.

Lemma parameters_with_heap (h : gmap nat Obj) r :
  parameters (with_heap h r) = parameters r.
Proof. reflexivity. Qed.

Lemma parameters_with_lazyProps (l : LazyProps) r :
  parameters (with_lazyProps l r) = parameters r.
Proof. reflexivity. Qed.

Section Init.
Variable host : Host.

(** [setColor] writes [colorScheme] and [colorValue] only. *)
Lemma get_setColor_target (h : gmap nat Obj) (value : Value) (p : Params)
    (name : string) :
  name <> "colorScheme" -> name <> "colorValue" ->
  get (setColor_target host h value p) name = get p name.
Proof.
  intros H1 H2. unfold setColor_target.
  destruct value; try destruct (existsb _ _);
    by rewrite ?RepresentationSpec.get_put_other.
Qed.

Lemma get_setColor_target_colorScheme (h : gmap nat Obj) (value : Value)
    (p : Params) :
  is_undefined value = false ->
  get (setColor_target host h value p) "colorScheme"
  = if names_scheme host value then value else VStr "uniform".
Proof.
  intros Hv. unfold setColor_target, names_scheme.
  destruct value; try discriminate Hv; try destruct (existsb _ _);
    by rewrite ?RepresentationSpec.get_put_same,
               ?(RepresentationSpec.get_put_other _ "colorValue" "colorScheme"),
               ?RepresentationSpec.get_put_same.
Qed.

(** The step of [init] on the quality. *)
Lemma init_detail (params : Params) r :
  let q := get params "quality" in
  tp_truthy r "sphereDetail" = true ->
  tp_truthy r "radialSegments" = true ->
  this_prop (init host params r) "sphereDetail"
  = (if strict_eq q (VStr "low") then VNum 0
     else if strict_eq q (VStr "medium") then VNum 1
     else if strict_eq q (VStr "high") then VNum 2
     else defaults (get params "sphereDetail") (VNum 1))
  /\ this_prop (init host params r) "radialSegments"
     = (if strict_eq q (VStr "low") then VNum 5
        else if strict_eq q (VStr "medium") then VNum 10
        else if strict_eq q (VStr "high") then VNum 20
        else defaults (get params "radialSegments") (VNum 10)).
Proof.
  intros q Hs Hr. unfold init.
  cbv beta iota zeta delta [allocate].
  match goal with
  | |- context [setColor_target host ?h ?c params] =>
      set (p := setColor_target host h c params)
  end.
  assert (Hq : get p "quality" = q) by (by apply get_setColor_target).
  assert (Hsd : get p "sphereDetail" = get params "sphereDetail")
    by (by apply get_setColor_target).
  assert (Hrs : get p "radialSegments" = get params "radialSegments")
    by (by apply get_setColor_target).
  rewrite Hq, Hsd, Hrs. clearbody p.
  match goal with
  | |- context [declare "disableImpostor" disableImpostor_meta ?r0] =>
      set (R := declare "disableImpostor" disableImpostor_meta r0)
  end.
  assert (Ts : tp_truthy R "sphereDetail" = true).
  { unfold R. rewrite !tp_truthy_declare.
    etransitivity; [apply tp_truthy_same|exact Hs].
    by repeat first [rewrite lookup_default_parameter by done
                    |rewrite parameters_with_heap
                    |rewrite parameters_with_lazyProps]. }
  assert (Tr : tp_truthy R "radialSegments" = true).
  { unfold R. rewrite !tp_truthy_declare.
    etransitivity; [apply tp_truthy_same|exact Hr].
    by repeat first [rewrite lookup_default_parameter by done
                    |rewrite parameters_with_heap
                    |rewrite parameters_with_lazyProps]. }
  clearbody R.
  rewrite !this_prop_assign_other by done.
  destruct (strict_eq q (VStr "low")); [|destruct (strict_eq q (VStr "medium"));
    [|destruct (strict_eq q (VStr "high"))]];
    (split;
     [rewrite ?this_prop_assign_other by done; by apply this_prop_assign_same
     |apply this_prop_assign_same; by rewrite tp_truthy_assign_if_declared]).
Qed.

End Init.

Lemma strict_eq_VStr (q : Value) (str : string) :
  strict_eq q (VStr str) = true <-> q = VStr str.
Proof.
  destruct q; cbn; try (split; [discriminate|intros [=]]).
  rewrite String.eqb_eq. split; [by intros ->|by intros [= ->]].
Qed.

(** In a class that declares [sphereDetail] and [radialSegments], [init]
    takes both from the quality preset when there is one, low (0, 5),
    medium (1, 10) or high (2, 20), whatever the parameters give for
    them; it takes them from the parameters, with the defaults 1 and 10,
    only without a preset. *)
Theorem init_quality_preset (host : Host) (params : Params) r :
  let q := get params "quality" in
  let r' := init host params r in
  tp_truthy r "sphereDetail" = true ->
  tp_truthy r "radialSegments" = true ->
  (q = VStr "low" ->
   this_prop r' "sphereDetail" = VNum 0
   /\ this_prop r' "radialSegments" = VNum 5)
  /\ (q = VStr "medium" ->
      this_prop r' "sphereDetail" = VNum 1
      /\ this_prop r' "radialSegments" = VNum 10)
  /\ (q = VStr "high" ->
      this_prop r' "sphereDetail" = VNum 2
      /\ this_prop r' "radialSegments" = VNum 20)
  /\ (q <> VStr "low" -> q <> VStr "medium" -> q <> VStr "high" ->
      this_prop r' "sphereDetail" = defaults (get params "sphereDetail") (VNum 1)
      /\ this_prop r' "radialSegments"
         = defaults (get params "radialSegments") (VNum 10)).
Proof.
  intros q r' Hs Hr.
  destruct (init_detail host params r Hs Hr) as [Ds Dr].
  fold q r' in Ds, Dr. rewrite Ds, Dr. clear Ds Dr. clearbody q. clear r'.
  split; [by intros ->|]. split; [by intros ->|]. split; [by intros ->|].
  intros Hl Hm Hh.
  apply (not_iff_compat (strict_eq_VStr q "low")) in Hl.
  apply (not_iff_compat (strict_eq_VStr q "medium")) in Hm.
  apply (not_iff_compat (strict_eq_VStr q "high")) in Hh.
  apply not_true_is_false in Hl, Hm, Hh. by rewrite Hl, Hm, Hh.
Qed.

Lemma init_quality_preset_low :
  this_prop (init scenario_host
               [("quality", VStr "low"); ("sphereDetail", VNum 3)] detailed)
            "sphereDetail" = VNum 0
  /\ this_prop (init scenario_host
                  [("quality", VStr "low"); ("sphereDetail", VNum 3)] detailed)
               "radialSegments" = VNum 5.
Proof.
  exact (proj1 (init_quality_preset scenario_host
                  [("quality", VStr "low"); ("sphereDetail", VNum 3)] detailed
                  eq_refl eq_refl) eq_refl).
Defined.

(** A colour given to [init] decides the colour scheme, whatever scheme
    the parameters give: the colour itself when it names a registered
    scheme, ['uniform'] otherwise.  The colour is not what [init] stores
    under [value], which is the value given or the default grey. *)
Theorem init_color_decides_colorScheme (host : Host) (params : Params) r :
  is_undefined (get params "color") = false ->
  parameters (init host params r) !! "colorScheme"
  = Some (PValue (if names_scheme host (get params "color")
                  then get params "color" else VStr "uniform"))
  /\ parameters (init host params r) !! "value"
     = Some (PValue (defaults (get params "value") (VNum 9474192))).
Proof.
  intros Hc. unfold init.
  cbv beta iota zeta delta [allocate].
  match goal with
  | |- context [setColor_target host ?h ?c params] =>
      assert (Hs : get (setColor_target host h c params) "colorScheme"
                   = if names_scheme host c then c else VStr "uniform")
        by (by apply get_setColor_target_colorScheme);
      assert (Hv : get (setColor_target host h c params) "value"
                   = get params "value")
        by (by apply get_setColor_target);
      set (p := setColor_target host h c params) in *
  end.
  clearbody p.
  assert (Hd : defaults (get p "colorScheme") (VStr "uniform")
               = get p "colorScheme").
  { rewrite Hs. unfold names_scheme.
    destruct (get params "color"); try done. by destruct (existsb _ _). }
  match goal with
  | |- context [declare "disableImpostor" disableImpostor_meta ?r0] =>
      set (R := declare "disableImpostor" disableImpostor_meta r0)
  end.
  assert (Rs : parameters R !! "colorScheme"
               = Some (PValue (get p "colorScheme"))).
  { unfold R. rewrite !lookup_declare by done.
    repeat first [rewrite lookup_default_parameter by done
                 |rewrite parameters_with_heap
                 |rewrite parameters_with_lazyProps].
    by rewrite lookup_default_parameter_same, Hd. }
  assert (Rv : parameters R !! "value"
               = Some (PValue (defaults (get p "value") (VNum 9474192)))).
  { unfold R. rewrite !lookup_declare by done.
    repeat first [rewrite lookup_default_parameter by done
                 |rewrite parameters_with_heap
                 |rewrite parameters_with_lazyProps].
    by rewrite lookup_default_parameter_same. }
  clearbody R. rewrite !parameters_assign_if_declared.
  destruct (strict_eq _ (VStr "low")); [|destruct (strict_eq _ (VStr "medium"));
    [|destruct (strict_eq _ (VStr "high"))]];
    rewrite !parameters_assign_if_declared; by rewrite Rs, Rv, Hs, Hv.
Qed.

Lemma init_color_decides_colorScheme_red :
  parameters (init scenario_host
                [("color", VStr "red"); ("colorScheme", VStr "element")] blank)
    !! "colorScheme"
  = Some (PValue (VStr "uniform"))
  /\ parameters (init scenario_host
                   [("color", VStr "red"); ("colorScheme", VStr "element")]
                   blank)
       !! "value"
     = Some (PValue (VNum 9474192)).
Proof.
  exact (init_color_decides_colorScheme scenario_host
           [("color", VStr "red"); ("colorScheme", VStr "element")] blank
           eq_refl).
Defined.

End RepresentationFrame.


(** ** Representation: deferred builds and rebuilds *)

Module RepresentationBuild.
Import JS Representation.

(** *** A synchronous build, step by step *)

Section Sync.
Variable f :
  option (gmap string Value) -> Representation -> option Representation.

(** [build()] without a preparation step, not deferred, not disposed:
    the counter goes up, [clear], [create], [attach], and the counter
    goes down in the callback. *)
Lemma build_open_sync uw r :
  prepare r = false -> defers r = false -> disposed r = false ->
  build_open f uw r
  = (r2 ← setVisibility_open f (this_prop r "visible") VUndef
            (called [Attach] (create (clear (with_tasks Counter.increment r))));
     Some (with_tasks Counter.decrement r2)).
Proof.
  intros Hp Hd Hdis. unfold build_open. unfold defers in Hd.
  rewrite Hd, Hp. cbn [negb]. unfold make_open.
  replace (prepare (with_tasks Counter.increment r)) with false
    by (symmetry; exact Hp).
  unfold _make_open.
  replace (disposed (create (clear (with_tasks Counter.increment r))))
    with false by (symmetry; exact Hdis).
  cbn [negb]. unfold attach_open.
  change (this_prop (create (clear (with_tasks Counter.increment r))) "visible")
    with (this_prop r "visible").
  by destruct (setVisibility_open f _ _ _).
Qed.

(** [setVisibility] when no build and no attribute update is deferred:
    no build is called; the call only asks for renders. *)
Lemma setVisibility_open_no_build (v nrr : Value) r :
  lp_build (lazyProps r) = false ->
  nonempty (lp_what (lazyProps r)) = false ->
  exists r' rest,
    setVisibility_open f v nrr r = Some r'
    /\ calls r' = calls r ++ rest
    /\ Forall (fun c => c = RequestRender) rest
    /\ tasks r' = tasks r
    /\ lp_build (lazyProps r') = false
    /\ (bufferList r = [] -> bufferList r' = []).
Proof.
  intros Hb Hw. unfold setVisibility_open.
  set (r0 := with_self (insert "visible" v) r).
  assert (P : forall x, lp_build (lazyProps x) = false ->
                exists rest,
                  calls (propagate v nrr x) = calls x ++ rest
                  /\ Forall (fun c => c = RequestRender) rest
                  /\ tasks (propagate v nrr x) = tasks x
                  /\ lp_build (lazyProps (propagate v nrr x)) = false
                  /\ (bufferList x = [] -> bufferList (propagate v nrr x) = [])).
  { intros x Hx. unfold propagate. destruct (truthy nrr).
    - exists []. cbn. rewrite app_nil_r. repeat split; try done.
      by intros ->.
    - exists [RequestRender]. cbn. repeat split; try done.
      + by repeat constructor.
      + by intros ->. }
  destruct (_ && _).
  - change (lp_build (lazyProps r0)) with (lp_build (lazyProps r)).
    rewrite Hb.
    change (lp_what (lazyProps r0)) with (lp_what (lazyProps r)).
    change (lp_bufferParams (lazyProps r0)) with (lp_bufferParams (lazyProps r)).
    rewrite Hw, orb_false_r.
    destruct (nonempty (lp_bufferParams (lazyProps r))).
    + unfold updateParameters_open. rewrite Hw.
      destruct (_ && _ && _); cbn [mbind option_bind].
      * match goal with
        | |- context [propagate v nrr ?x] =>
            destruct (P x eq_refl) as (rest & Hc & Hr & Ht & Hl & Hbuf)
        end.
        eexists _, rest. split; [reflexivity|]. by repeat split.
      * match goal with
        | |- context [propagate v nrr ?x] =>
            destruct (P x eq_refl) as (rest & Hc & Hr & Ht & Hl & Hbuf)
        end.
        eexists _, (RequestRender :: rest). split; [reflexivity|].
        split; [rewrite Hc; cbn [calls called with_bufferList with_lazyProps
                                  with_self r0]; by rewrite <- app_assoc|].
        split; [by constructor|]. split; [done|]. split; [done|].
        intros Hnil. apply Hbuf. cbn [bufferList called with_bufferList].
        change (bufferList (with_lazyProps _ r0)) with (bufferList r).
        by rewrite Hnil.
    + destruct (P r0 Hb) as (rest & Hc & Hr & Ht & Hl & Hbuf).
      by eexists _, rest.
  - destruct (P r0 Hb) as (rest & Hc & Hr & Ht & Hl & Hbuf).
    by eexists _, rest.
Qed.

End Sync.

(** *** Lazy deferral *)




Example deferred_update_builds_again_trace :
  (deferred ← build 4 None lazy_hidden_with_update;
   r' ← setVisibility 4 (VBool true) VUndef deferred;
   Some (calls r'))
  = Some [ViewerRemove 7; BufferDispose 7; RequestRender; Create; Attach;
          RequestRender; Create; Attach; RequestRender; RequestRender;
          RequestRender].
Proof. vm_compute. reflexivity. Qed.

(** The state of that scenario is the one [updateParameters] leaves. *)
Example lazy_hidden_with_update_reached :
  updateParameters 0 ∅ {["position" := VBool true]}
    (with_self (insert "opacity" (VNum 1))
       (with_self (insert "lazy" (VBool true)) lazy_hidden))
  = Some lazy_hidden_with_update.
Proof. vm_compute. reflexivity. Qed.

(** *** Rebuild *)

Lemma defers_same r r' :
  parameters r' = parameters r ->
  this_prop r' "visible" = this_prop r "visible" ->
  defers r' = defers r.
Proof. unfold defers, tp_truthy. by intros -> ->. Qed.

Section Rebuild.
Variable host : Host.

(** With a single parameter, [setColor] adds at most the keys
    [colorScheme] and [colorValue] after it. *)
Lemma setColor_target_single_keys (h : gmap nat Obj) (name : string)
    (v : Value) :
  exists rest,
    map fst (setColor_target host h (get [(name, v)] "color") [(name, v)])
    = name :: rest
    /\ Forall (fun k => k = "colorScheme" \/ k = "colorValue") rest
    /\ get (setColor_target host h (get [(name, v)] "color") [(name, v)]) name
       = v.
Proof.
  cbn [get]. destruct (String.eqb name "color") eqn:E.
  - apply String.eqb_eq in E as ->. unfold setColor_target.
    destruct v; try destruct (existsb _ _); cbn;
      eexists; (split; [reflexivity|split; [|reflexivity]]);
      repeat constructor; by eauto.
  - unfold setColor_target. cbn. rewrite String.eqb_refl.
    exists []. by repeat split.
Qed.

(** What the commit of a value leaves alone. *)
Lemma commit_keeps (name : string) (v : Value) r :
  prepare (commit host name v r) = prepare r
  /\ parameters (commit host name v r) = parameters r
  /\ (name <> "visible" ->
      this_prop (commit host name v r) "visible" = this_prop r "visible").
Proof.
  unfold commit. repeat case_match; repeat split; try done.
  all: intros Hn; unfold this_prop, prop; cbn [self with_self];
    by rewrite lookup_insert_ne.
Qed.

(** The commit does not read the deferred work. *)
Lemma defers_commit (name : string) (v : Value) r r0 :
  parameters r0 = parameters r -> self r0 = self r ->
  defers (commit host name v r0) = defers (commit host name v r).
Proof.
  intros Hp Hs. unfold commit, this_prop. rewrite Hs.
  repeat case_match; apply defers_same; cbn [parameters with_heap with_self];
    try done; unfold this_prop; cbn [self with_heap with_self];
    by rewrite Hs.
Qed.

Lemma loop_body_keeps (st : Loop) (name : string) :
  name <> "visible" ->
  prepare (l_this (loop_body host st name)) = prepare (l_this st)
  /\ defers (l_this (loop_body host st name)) = defers (l_this st).
Proof.
  intros Hn. unfold loop_body.
  destruct (is_undefined _); [done|]. destruct (tp_undefined _); [done|].
  destruct (_ && _); [done|]. cbn [l_this].
  match goal with
  | |- context [commit host name ?v ?r] =>
      destruct (commit_keeps name v r) as (Hp & Hpar & Hvis)
  end.
  split; [done|]. apply defers_same; [done|by apply Hvis].
Qed.

Lemma foldl_keeps (names : list string) (st : Loop) :
  Forall (fun k => k <> "visible") names ->
  prepare (l_this (foldl (loop_body host) st names)) = prepare (l_this st)
  /\ defers (l_this (foldl (loop_body host) st names)) = defers (l_this st).
Proof.
  intros Hall. revert st.
  induction Hall as [|n names Hn _ IH]; intros st; [done|].
  cbn [foldl]. destruct (IH (loop_body host st n)) as [-> ->].
  by apply loop_body_keeps.
Qed.

Lemma loop_entry_prepare (p : Params) what rb r :
  prepare (l_this (loop_entry host p what rb r)) = prepare r.
Proof.
  unfold loop_entry. destruct (_ && _); [destruct (lp_build _)|]; by cbn.
Qed.

(** A changed parameter marked [rebuild: true]: the state [setParameters]
    hands to [build()] is the committed one as far as [build] looks at
    it. *)
Lemma setParameters_rebuild_state (d : nat) (name : string) (v : Value)
    what rb r :
  let m := meta_of (parameters r !! name) in
  let v' := coerced host m v in
  tp_undefined (parameters r !! name) = false ->
  is_undefined v = false ->
  changed host (heap r) v' (this_prop r name) = true ->
  Meta.rebuild m = RebuildTrue ->
  exists r1,
    setParameters host d [(name, v)] what rb r = build d None r1
    /\ bufferList r1 = bufferList r /\ calls r1 = calls r
    /\ prepare r1 = prepare r
    /\ defers r1 = defers (commit host name v' r).
Proof.
  intros m v' Htp Hdef Hch Hm.
  unfold setParameters, setParameters_open, loop.
  destruct (RepresentationSpec.loop_entry_frame host [(name, v)] what rb r)
    as (Hp & Hpar & Hself & Hheap & Hbufs & Hcalls).
  pose proof (loop_entry_prepare [(name, v)] what rb r) as Hprep.
  set (st0 := loop_entry host [(name, v)] what rb r) in *.
  destruct (setColor_target_single_keys (heap r) name v)
    as (rest & Hkeys & Hrest & Hget).
  rewrite Hp, Hkeys. cbn [foldl].
  destruct (RepresentationSpec.loop_body_changed host st0 name)
    as (Hthis & _ & _ & Hrb).
  { by rewrite Hp, Hget. }
  { by rewrite Hpar. }
  { unfold this_prop. rewrite Hp, Hget, Hpar, Hheap, Hself. exact Hch. }
  rewrite Hpar in Hrb. fold m in Hrb. unfold escalates in Hrb.
  rewrite Hm, orb_true_r in Hrb.
  rewrite (RepresentationSpec.foldl_rebuild_stays host rest _ Hrb).
  eexists. split; [reflexivity|].
  destruct (RepresentationSpec.foldl_frame host rest (loop_body host st0 name))
    as [-> ->].
  destruct (RepresentationSpec.loop_body_frame host st0 name) as [-> ->].
  split; [exact Hbufs|]. split; [exact Hcalls|].
  destruct (foldl_keeps rest (loop_body host st0 name)) as [-> ->].
  { eapply Forall_impl; [exact Hrest|]. by intros k [-> | ->]. }
  rewrite Hthis, Hp, Hget, Hpar. fold m v'.
  destruct (commit_keeps name v' (l_this st0)) as (-> & _ & _).
  split; [exact Hprep|]. by apply defers_commit.
Qed.

End Rebuild.

(** C4, as amended: for a recognized parameter given a defined value that
    the loop takes for a change, metadata [rebuild: true] sends
    [setParameters] to [build()] and not to [updateParameters], with the
    buffers and the trace as they were before the call.  What that
    [build()] does is decided by the state after the commit: without a
    preparation step and when [build] does not defer, every owned buffer
    is removed from the viewer and disposed, then [create] runs; on a
    lazy representation that is hidden or fully transparent the build is
    only recorded and the buffers stay; with a preparation step a job is
    queued and the buffers stay.  Metadata [rebuild: 'impostor'] goes to
    [build()] too unless [ExtensionFragDepth] is set and [disableImpostor]
    is falsy, that is, the escalation is suppressed exactly when impostor
    rendering is available and not disabled, and the call then goes to
    [updateParameters] with what was staged and marked. *)
Theorem rebuild_parameter_escalates (host : Host) (d : nat) (name : string)
    (v : Value) what rb r :
  let m := meta_of (parameters r !! name) in
  let v' := coerced host m v in
  let r' := commit host name v' r in
  tp_undefined (parameters r !! name) = false ->
  is_undefined v = false ->
  changed host (heap r) v' (this_prop r name) = true ->
  (Meta.rebuild m = RebuildTrue ->
   (exists r1,
      setParameters host d [(name, v)] what rb r = build d None r1
      /\ bufferList r1 = bufferList r /\ calls r1 = calls r)
   /\ (prepare r = false -> defers r' = false ->
       exists r2 rest,
         setParameters host (3 + d) [(name, v)] what rb r = Some r2
         /\ calls r2 = calls r ++ removals (bufferList r)
                         ++ [RequestRender; Create] ++ rest)
   /\ (defers r' = true ->
       exists r2,
         setParameters host (S d) [(name, v)] what rb r = Some r2
         /\ lp_build (lazyProps r2) = true
         /\ bufferList r2 = bufferList r /\ calls r2 = calls r)
   /\ (prepare r = true -> defers r' = false ->
       exists r2,
         setParameters host (S d) [(name, v)] what rb r = Some r2
         /\ queue r2 = [None]
         /\ bufferList r2 = bufferList r /\ calls r2 = calls r))
  /\ (Meta.rebuild m = RebuildImpostor ->
      name <> "color" -> name <> "opacity" ->
      setParameters host d [(name, v)] what false r
      = if ExtensionFragDepth host
           && negb (truthy (this_prop r' "disableImpostor"))
        then updateParameters d (staged m name v' ∅) (marked m what) r'
        else build d None r')
  /\ (forall r0, prepare r0 = false -> defers r0 = false ->
      exists r2 rest,
        build (3 + d) None r0 = Some r2
        /\ calls r2 = calls r0 ++ removals (bufferList r0)
                        ++ [RequestRender; Create] ++ rest).
Proof.
  intros m v' r' Htp Hdef Hch. split; [|split].
  - intros Hm. split; [|split; [|split]].
    + destruct (setParameters_rebuild_state host d name v what rb r
                  Htp Hdef Hch Hm) as (r1 & H & Hb & Hc & _).
      by exists r1.
    + intros Hp Hd.
      destruct (setParameters_rebuild_state host (3 + d) name v what rb r
                  Htp Hdef Hch Hm) as (r1 & -> & Hb & Hc & Hp1 & Hd1).
      fold m v' r' in Hd1.
      destruct (RepresentationSpec.build_rebuilds d None r1)
        as (r2 & rest & H2 & Hcalls); [congruence|congruence|].
      exists r2, rest. split; [exact H2|]. by rewrite Hcalls, Hb, Hc.
    + intros Hd.
      destruct (setParameters_rebuild_state host (S d) name v what rb r
                  Htp Hdef Hch Hm) as (r1 & -> & Hb & Hc & Hp1 & Hd1).
      fold m v' r' in Hd1.
      rewrite RepresentationSpec.build_defers by congruence.
      eexists. split; [reflexivity|]. by repeat split.
    + intros Hp Hd.
      destruct (setParameters_rebuild_state host (S d) name v what rb r
                  Htp Hdef Hch Hm) as (r1 & -> & Hb & Hc & Hp1 & Hd1).
      fold m v' r' in Hd1.
      destruct (RepresentationSpec.build_queues d None r1)
        as (r2 & H2 & Hq & _ & _ & _ & Hb2 & Hc2 & _);
        [congruence|congruence|].
      exists r2. split; [exact H2|]. split; [exact Hq|].
      by rewrite Hb2, Hc2.
  - intros Hm Hcolor Hopacity.
    rewrite (RepresentationSpec.setParameters_single host d name v what r
               Htp Hdef Hch Hcolor Hopacity).
    fold m v' r'. unfold escalates. rewrite Hm.
    by destruct (ExtensionFragDepth host && _).
  - intros r0 Hp Hd. by apply RepresentationSpec.build_rebuilds.
Qed.

(** The scenario: [clipCenter], marked [rebuild: true], is given another
    vector, (1, 0, 0) for (0, 0, 0): the buffer the representation owns
    is removed from the viewer and disposed, and [create] runs. *)
Lemma rebuild_parameter_escalates_clipCenter :
  exists r2 rest,
    setParameters scenario_host 3 [("clipCenter", VObj 2)] ∅ false
                  clipCenter_moved
    = Some r2
    /\ calls r2
       = calls clipCenter_moved ++ removals (bufferList clipCenter_moved)
           ++ [RequestRender; Create] ++ rest.
Proof.
  exact (proj1 (proj2 (proj1 (rebuild_parameter_escalates scenario_host 0
                                "clipCenter" (VObj 2) ∅ false clipCenter_moved
                                eq_refl eq_refl eq_refl)
                             eq_refl))
               eq_refl eq_refl).
Defined.

Example clipCenter_moved_trace :
  (r2 ← setParameters scenario_host 3 [("clipCenter", VObj 2)] ∅ false
          clipCenter_moved;
   Some (calls r2, bufferList r2, heap r2 !! 1))
  = Some ([ViewerRemove 7; BufferDispose 7; RequestRender; Create; Attach;
           RequestRender], [], Some [1; 0; 0]%float).
Proof. vm_compute. reflexivity. Qed.

End RepresentationBuild.
